(** * A convolutional variational autoencoder: embedding and verification

    Source: [variational_autoencoder/VAE.py].

    The file has two parts.  Part I embeds the functions of the script
    (animation assembly, data preparation, layer shapes, loss, training
    loop); Part II states and proves their properties.

    Numbers are modelled as the code has them where it decides what the
    code does: the Python floats of [draw_gif] are IEEE binary64 values,
    the pixels of [prepare_data] are [uint8] bytes turned into IEEE
    binary32 values, and so are the entries of the tensors of the loss.
    The kernels of TensorFlow (the arithmetic of [float32] tensors,
    exponential, logarithm, power, sigmoid, cross-entropy, sum and mean)
    and the two networks, whose results depend on their weights, are
    functions.  A Python exception is a result of its own. *)

From Stdlib Require Import ZArith List Bool Lia String Ascii DecimalString.
From Stdlib Require Import Floats.SpecFloat.
From Stdlib Require Import Orders Sorting.Sorted Sorting.Mergesort.
From Stdlib Require Import Sorting.Permutation.
Import ListNotations.

Set Implicit Arguments.

(* ================================================================== *)
(** * Part I: embedding                                                *)
(* ================================================================== *)

(** ** Python exceptions and results

    A computation that may raise returns [inl e]; a normal result is
    [inr v].  Nothing in the script catches an exception, so a raised
    exception ends the run. *)

Module Py.

Inductive exn : Type :=
| UnboundLocalError    (* a local variable read before assignment *)
| OverflowError        (* int too large for a float, round(inf) *)
| ValueError           (* round(nan), reshape to another size *)
| IndexError           (* tuple index out of range *)
| InvalidArgument.     (* TensorFlow shape mismatch *)

Definition result (A : Type) : Type := (exn + A)%type.

Definition ret {A} (a : A) : result A := inr a.
Definition raise {A} (e : exn) : result A := inl e.

Definition bind {A B} (c : result A) (k : A -> result B) : result B :=
  match c with
  | inl e => inl e
  | inr a => k a
  end.

End Py.

Declare Scope py_scope.
Delimit Scope py_scope with py.
Notation "x <- c ;; k" := (Py.bind c (fun x => k))
  (at level 61, c at next level, right associativity) : py_scope.

(** ** IEEE 754 binary64: the Python [float] *)

Module Float64.

Definition prec : Z := 53.
Definition emax : Z := 1024.

Definition of_Z (z : Z) : spec_float := binary_normalize prec emax z 0 false.
Definition mul : spec_float -> spec_float -> spec_float := SFmul prec emax.
Definition sqrt : spec_float -> spec_float := SFsqrt prec emax.

(** [float(i)] for a Python int: raises when the int is out of range. *)
Definition of_int (z : Z) : Py.result spec_float :=
  match of_Z z with
  | S754_infinity _ | S754_nan => Py.raise Py.OverflowError
  | f => Py.ret f
  end.

(** Nearest integer to [m * 2^e], ties to the even one. *)
Definition round_half_even (m : positive) (e : Z) : Z :=
  match e with
  | Zneg p =>
      let d := Z.pow_pos 2 p in
      let q := Z.div (Zpos m) d in
      let r := Z.modulo (Zpos m) d in
      match Z.compare (2 * r) d with
      | Lt => q
      | Gt => q + 1
      | Eq => if Z.even q then q else q + 1
      end
  | _ => Zpos m * 2 ^ e
  end.

(** [float.__round__] without [ndigits]. *)
Definition round (f : spec_float) : Py.result Z :=
  match f with
  | S754_zero _ => Py.ret 0%Z
  | S754_finite s m e =>
      let n := round_half_even m e in
      Py.ret (if s then Z.opp n else n)
  | S754_infinity _ => Py.raise Py.OverflowError
  | S754_nan => Py.raise Py.ValueError
  end.

(** A float is [small K] when it is a zero, or finite, positive and below
    [2^K]. *)
Definition small (K : Z) (x : spec_float) : Prop :=
  match x with
  | S754_zero _ => True
  | S754_finite false m e => (Zdigits2 (Zpos m) + e <= K)%Z
  | _ => False
  end.

(** Subtraction and unary minus of Python floats. *)
Definition sub : spec_float -> spec_float -> spec_float := SFsub prec emax.
Definition neg : spec_float -> spec_float := SFopp.

Definition is_finite (x : spec_float) : bool :=
  match x with
  | S754_zero _ | S754_finite _ _ _ => true
  | _ => false
  end.

Definition is_infinite (x : spec_float) : bool :=
  match x with
  | S754_infinity _ => true
  | _ => false
  end.

(** The literals [0.], [.5] and [-0.5]. *)
Definition zero : spec_float := S754_zero false.
Definition half : spec_float := binary_normalize prec emax 1 (-1) false.
Definition minus_half : spec_float := neg half.

(** [np.pi], the binary64 value nearest to pi: 0x400921FB54442D18. *)
Definition pi : spec_float := S754_finite false 7074237752028440 (-51).

End Float64.

(** ** Python numbers: [last] in [draw_gif] is first an int, then a float *)

Inductive number : Type :=
| Int (z : Z)
| Float (f : spec_float).

(** The builtin [round] with one argument. *)
Definition py_round (x : number) : Py.result Z :=
  match x with
  | Int z => Py.ret z
  | Float f => Float64.round f
  end.

(** [sorted] on a list of [str]: Python compares strings by code point,
    which is the byte order of their UTF-8 encoding. *)

Module StringOrder <: TotalLeBool.
Definition t := string.
Definition leb : t -> t -> bool := String.leb.
Definition leb_total : forall a b, leb a b = true \/ leb b a = true :=
  String.leb_total.
End StringOrder.

Module StringSort := Sort StringOrder.

Definition sorted (l : list string) : list string := StringSort.sort l.

(** ** [draw_gif] *)

Module DrawGif.

Local Open Scope py_scope.

(** [2 * (i**0.5)]: the int is converted to a float, raised to the power
    one half and doubled.  Python computes the power with the C function
    [pow]; it is taken here as the correctly rounded square root. *)
Definition frame_of (i : nat) : Py.result spec_float :=
  x <- Float64.of_int (Z.of_nat i) ;;
  Py.ret (Float64.mul (Float64.of_Z 2) (Float64.sqrt x)).

(** One entry of the writer: the image read from [filename]; [index] is
    the value of the loop variable [i] when the image was read. *)
Record image : Type := imread_at { index : nat; filename : string }.

(** The local variables of [draw_gif] that the loop updates, and the
    frames appended to the writer so far.  [loop_vars] is [None] while
    [i] and [filename] are unbound. *)
Record locals : Type := mk_locals {
  last : number;
  loop_vars : option (nat * string);
  appended : list image
}.

(** The body of the [for] loop at [(i, filename)]. *)
Definition loop_body (i : nat) (fname : string) (st : locals)
  : Py.result locals :=
  frame <- frame_of i ;;
  rf <- py_round (Float frame) ;;
  rl <- py_round (last st) ;;
  if (rf >? rl)%Z
  then Py.ret (mk_locals (Float frame) (Some (i, fname))
                 (appended st ++ [imread_at i fname]))
  else Py.ret (mk_locals (last st) (Some (i, fname)) (appended st)).

Fixpoint for_loop (items : list (nat * string)) (st : locals)
  : Py.result locals :=
  match items with
  | [] => Py.ret st
  | (i, fname) :: rest =>
      st' <- loop_body i fname st ;;
      for_loop rest st'
  end.

Definition enumerate (l : list string) : list (nat * string) :=
  combine (seq 0 (List.length l)) l.

(** The locals on entry to the loop: [last = -1], nothing appended. *)
Definition initial : locals := mk_locals (Int (-1)) None [].

(** [draw_gif] on the list [matches] returned by [glob.glob]: the frames
    appended to the writer, in order.  The statements after the loop read
    [filename], which only the loop binds.  The display of the finished
    file in the notebook is left out. *)
Definition draw_gif (matches : list string) : Py.result (list image) :=
  let filenames := sorted matches in
  st <- for_loop (enumerate filenames) initial ;;
  match loop_vars st with
  | None => Py.raise Py.UnboundLocalError
  | Some (i, fname) => Py.ret (appended st ++ [imread_at i fname])
  end.

(** *** Vocabulary of the properties of [draw_gif] *)

(** The frames the loop alone has appended when it ends, before the
    append that follows it. *)
Definition selected_frames (matches : list string)
  : Py.result (list image) :=
  st <- for_loop (enumerate (sorted matches)) initial ;;
  Py.ret (appended st).

(** [round(2 * (i**0.5))], the value the selection compares. *)
Definition spacing (i : nat) : Py.result Z :=
  frame <- frame_of i ;;
  py_round (Float frame).

(** [a] comes before [b] in the file order and has a strictly smaller
    rounded spacing value. *)
Definition before (a b : image) : Prop :=
  index a < index b /\
  exists ka kb, spacing (index a) = inr ka /\ spacing (index b) = inr kb /\
                (ka < kb)%Z.

(** How many of the frames were read at loop index [n]. *)
Definition count_index (n : nat) (frames : list image) : nat :=
  List.length (filter (fun im => index im =? n) frames).

(** The frame of the last file of the sorted list. *)
Definition final_frame (matches : list string) : image :=
  imread_at (List.length matches - 1) (List.last (sorted matches) EmptyString).

(** A Python list holds at most [sys.maxsize] items (64-bit build). *)
Definition sys_maxsize : Z := 2 ^ 63 - 1.

(** The file at index [i] was skipped: a frame selected earlier has a
    rounded spacing value that the one of [i] does not exceed. *)
Definition skipped (sel : list image) (i : nat) : Prop :=
  exists im k k',
    In im sel /\ index im < i /\
    spacing i = inr k /\ spacing (index im) = inr k' /\ (k <= k')%Z.

(** What holds of the locals after the loop has gone through the files
    [pre]: [round(last)] is defined, it is the spacing of a selected frame
    unless none is selected yet, and it bounds the spacing of every frame
    appended so far; these are in strictly increasing order; every file
    gone through is selected or skipped. *)
Definition loop_inv (pre : list string) (st : locals) : Prop :=
  exists rl,
    py_round (last st) = inr rl /\
    StronglySorted before (appended st) /\
    Forall (fun im =>
              index im < List.length pre /\
              nth_error pre (index im) = Some (filename im) /\
              exists k, spacing (index im) = inr k /\ (k <= rl)%Z)
           (appended st) /\
    (appended st = [] /\ rl = (-1)%Z \/
     exists im, In im (appended st) /\ spacing (index im) = inr rl) /\
    forall i, i < List.length pre ->
              (exists im, In im (appended st) /\ index im = i) \/
              skipped (appended st) i.

(** Two frame files, as [glob] may return them. *)
Definition two_frames : list string :=
  ["image_at_epoch_0010.png"; "image_at_epoch_0000.png"]%string.

(** *** Vocabulary of further properties of [draw_gif] *)

(** [round(2 * sqrt(i))] in exact arithmetic: the integer nearest to the
    square root of [4 i], which is never halfway between two integers. *)
Definition exact_spacing (i : nat) : Z :=
  ((Z.sqrt (16 * Z.of_nat i) + 1) / 2)%Z.

(** The spacing value computed in binary64 at [i] is the exact one. *)
Definition spacing_is_exact (i : nat) : bool :=
  match spacing i with
  | inr k => Z.eqb k (exact_spacing i)
  | inl _ => false
  end.

(** The exact spacing value at [i] is above the one at [i - 1]. *)
Definition rising (i : nat) : bool :=
  (i =? 0) || (exact_spacing (i - 1) <? exact_spacing i)%Z.

(** The frames of the files at the rising indices. *)
Definition rising_frames (filenames : list string) : list image :=
  map (fun i => imread_at i (nth i filenames EmptyString))
      (filter rising (seq 0 (List.length filenames))).

(** The value of [round(last)] after the loop has gone through [n]
    files. *)
Definition last_spacing (n : nat) : Z :=
  match n with
  | O => (-1)%Z
  | S m => exact_spacing m
  end.

(** The number of files up to which the binary64 spacing values have been
    compared with the exact ones. *)
Definition compared_files : nat := 4096.

(** *** Vocabulary of the final frame *)

(** The rounded spacing value at [i] exceeds the one at [j]. *)
Definition exceeds (i j : nat) : bool :=
  match spacing i, spacing j with
  | inr ki, inr kj => (kj <? ki)%Z
  | _, _ => false
  end.

(** The index [i] is selected by the criterion [round(2 * sqrt(i))]:
    its rounded spacing value exceeds that of every index before it,
    hence that of the frame selected last, which is the greatest so
    far. *)
Definition selected_by_criterion (i : nat) : bool :=
  forallb (exceeds i) (seq 0 i).

End DrawGif.

(** ** IEEE 754 binary32: the dtype ['float32'] *)

Module Float32.

Definition prec : Z := 24.
Definition emax : Z := 128.

Definition of_Z (z : Z) : spec_float := binary_normalize prec emax z 0 false.
Definition div : spec_float -> spec_float -> spec_float := SFdiv prec emax.

(** [uint8] to [float32], exact. *)
Definition of_uint8 (b : Byte.byte) : spec_float :=
  of_Z (Z.of_N (Byte.to_N b)).

Definition zero : spec_float := S754_zero false.               (* 0.  *)
Definition one : spec_float := of_Z 1.                         (* 1.  *)
Definition half : spec_float := binary_normalize prec emax 1 (-1) false.
                                                               (* .5  *)
Definition c255 : spec_float := of_Z 255.                      (* 255. *)

(** [x >= y] and [x < y]; both are false when an operand is NaN. *)
Definition ge (x y : spec_float) : bool := SFleb y x.
Definition lt (x y : spec_float) : bool := SFltb x y.

(** The arithmetic of [float32] tensors: each operation rounds its exact
    result to the nearest binary32 value, ties to even. *)
Definition add : spec_float -> spec_float -> spec_float := SFadd prec emax.
Definition sub : spec_float -> spec_float -> spec_float := SFsub prec emax.
Definition mul : spec_float -> spec_float -> spec_float := SFmul prec emax.
Definition neg : spec_float -> spec_float := SFopp.

(** A Python float (binary64) converted to [float32]: rounded to the
    nearest binary32 value. *)
Definition of_float64 (x : spec_float) : spec_float :=
  match x with
  | S754_finite s m e => binary_round prec emax s m e
  | _ => x
  end.

(** The literals [-0.5] and [2] as [float32]. *)
Definition minus_half : spec_float := neg half.
Definition two : spec_float := of_Z 2.

End Float32.

(** ** NumPy arrays: a shape and the elements in row-major order *)

Module Numpy.

Local Open Scope py_scope.

Record ndarray (A : Type) : Type := mk_ndarray {
  shape : list nat;
  data : list A
}.

Definition size_of (shp : list nat) : nat := fold_right Nat.mul 1 shp.

(** [a.shape[0]] *)
Definition shape0 {A} (a : ndarray A) : Py.result nat :=
  match shape a with
  | [] => Py.raise Py.IndexError
  | n :: _ => Py.ret n
  end.

(** [a.reshape(new_shape)]: the elements stay, the total size must. *)
Definition reshape {A} (a : ndarray A) (new_shape : list nat)
  : Py.result (ndarray A) :=
  if size_of new_shape =? List.length (data a)
  then Py.ret (mk_ndarray new_shape (data a))
  else Py.raise Py.ValueError.

(** [a.astype(dtype)], with the conversion [conv] of the elements. *)
Definition astype {A B} (conv : A -> B) (a : ndarray A) : ndarray B :=
  mk_ndarray (shape a) (map conv (data a)).

(** [a /= c] on a float32 array. *)
Definition idiv (a : ndarray spec_float) (c : spec_float)
  : ndarray spec_float :=
  mk_ndarray (shape a) (map (fun x => Float32.div x c) (data a)).

(** [a[mask(a)] = v]: the elements where [mask] holds become [v]. *)
Definition assign_where (mask : spec_float -> bool) (v : spec_float)
  (a : ndarray spec_float) : ndarray spec_float :=
  mk_ndarray (shape a) (map (fun x => if mask x then v else x) (data a)).

End Numpy.

(** ** [tf.data]: a dataset is the description of a pipeline *)

Module TfData.

Local Open Scope py_scope.

Record dataset (A : Type) : Type := mk_dataset {
  elements : list A;
  shuffle_buffer : option N;     (* set by [shuffle] *)
  batch_size : option nat        (* set by [batch] *)
}.

(** [n] consecutive pieces of [k] elements each. *)
Fixpoint slices {A} (k n : nat) (l : list A) : list (list A) :=
  match n with
  | O => []
  | S n' => firstn k l :: slices k n' (skipn k l)
  end.

(** [Dataset.from_tensor_slices(a)]: one element per index of axis 0. *)
Definition from_tensor_slices {A} (a : Numpy.ndarray A)
  : Py.result (dataset (Numpy.ndarray A)) :=
  match Numpy.shape a with
  | [] => Py.raise Py.InvalidArgument
  | n :: rest =>
      Py.ret (mk_dataset
                (map (Numpy.mk_ndarray rest)
                     (slices (Numpy.size_of rest) n (Numpy.data a)))
                None None)
  end.

Definition shuffle {A} (buffer : N) (ds : dataset A) : dataset A :=
  mk_dataset (elements ds) (Some buffer) (batch_size ds).

Definition batch {A} (size : nat) (ds : dataset A) : dataset A :=
  mk_dataset (elements ds) (shuffle_buffer ds) (Some size).

(** Groups of [size] consecutive elements, the last one possibly
    shorter. *)
Fixpoint groups {A} (fuel size : nat) (l : list A) : list (list A) :=
  match fuel, l with
  | O, _ | _, [] => []
  | S fuel', _ => firstn size l :: groups fuel' size (skipn size l)
  end.

(** One pass over the dataset, [for x in ds]; [order] is the order in
    which this pass of the shuffle emits the elements. *)
Definition iterate {A} (order : list A -> list A) (ds : dataset A)
  : list (list A) :=
  let l := match shuffle_buffer ds with
           | Some _ => order (elements ds)
           | None => elements ds
           end in
  match batch_size ds with
  | Some size => groups (List.length l) size l
  | None => map (fun x => [x]) l
  end.

End TfData.

(** ** [prepare_data] *)

Module PrepareData.

Local Open Scope py_scope.

Definition images : Type := Numpy.ndarray spec_float.

(** The two masked assignments of the binarization. *)
Definition binarize (a : images) : images :=
  let a1 := Numpy.assign_where (fun x => Float32.ge x Float32.half)
              Float32.one a in
  Numpy.assign_where (fun x => Float32.lt x Float32.half) Float32.zero a1.

(** One of the two image arrays, up to the binarization. *)
Definition prepare_images (raw : Numpy.ndarray Byte.byte)
  : Py.result images :=
  n <- Numpy.shape0 raw ;;
  reshaped <- Numpy.reshape raw [n; 28; 28; 1] ;;
  let a := Numpy.astype Float32.of_uint8 reshaped in
  let a := Numpy.idiv a Float32.c255 in
  Py.ret (binarize a).

Definition TRAIN_BUF : N := 60000.
Definition BATCH_SIZE : nat := 128.
Definition TEST_BUF : N := 10000.

(** [mnist] is what [tf.keras.datasets.mnist.load_data()] returned:
    [(train_images, train_labels), (test_images, test_labels)], arrays of
    [uint8]. *)
Definition prepare_data
  (mnist : (Numpy.ndarray Byte.byte * Numpy.ndarray Byte.byte)
           * (Numpy.ndarray Byte.byte * Numpy.ndarray Byte.byte))
  : Py.result (TfData.dataset images * TfData.dataset images) :=
  let '((train_images, _), (test_images, _)) := mnist in
  train_images <- prepare_images train_images ;;
  test_images <- prepare_images test_images ;;
  train_slices <- TfData.from_tensor_slices train_images ;;
  let train_data := TfData.batch BATCH_SIZE
                      (TfData.shuffle TRAIN_BUF train_slices) in
  test_slices <- TfData.from_tensor_slices test_images ;;
  let test_data := TfData.batch BATCH_SIZE
                     (TfData.shuffle TEST_BUF test_slices) in
  Py.ret (train_data, test_data).

(** *** Vocabulary of the properties of [prepare_data] *)

(** The array is a stack of [n] images of 28 x 28 pixels. *)
Definition image_stack {A} (n : nat) (a : Numpy.ndarray A) : Prop :=
  Numpy.shape a = [n; 28; 28] /\ List.length (Numpy.data a) = n * 28 * 28.

(** Every pixel is exactly [0.0] or exactly [1.0]. *)
Definition binary_pixels (a : images) : Prop :=
  Forall (fun x => x = Float32.zero \/ x = Float32.one) (Numpy.data a).

(** What the two masked assignments do to one pixel. *)
Definition binarize_px (x : spec_float) : spec_float :=
  let y := if Float32.ge x Float32.half then Float32.one else x in
  if Float32.lt y Float32.half then Float32.zero else y.

(** The pixel at each position of a prepared array, from the raw one. *)
Definition prepare_px (b : Byte.byte) : spec_float :=
  binarize_px (Float32.div (Float32.of_uint8 b) Float32.c255).

(** One image whose pixels are all 128, and one whose pixels are all
    127. *)
Definition bright : Numpy.ndarray Byte.byte :=
  Numpy.mk_ndarray [1; 28; 28] (List.repeat Byte.x80 784).
Definition dark : Numpy.ndarray Byte.byte :=
  Numpy.mk_ndarray [1; 28; 28] (List.repeat Byte.x7f 784).
Definition no_labels : Numpy.ndarray Byte.byte :=
  Numpy.mk_ndarray [1] [Byte.x00].

(** A normalized array whose only pixel is [0.5]. *)
Definition half_array : images := Numpy.mk_ndarray [1] [Float32.half].

(** *** Vocabulary of further properties of [prepare_data] *)

(** The prepared pixel in terms of the raw intensity. *)
Definition threshold_px (b : Byte.byte) : spec_float :=
  if (128 <=? Byte.to_N b)%N then Float32.one else Float32.zero.

(** The elements of [ds] are the [n] images of the stack [raw], in the
    order of the stack, each with its 784 pixels in their order,
    binarized. *)
Definition images_of_stack (n : nat) (raw : Numpy.ndarray Byte.byte)
  (ds : TfData.dataset images) : Prop :=
  List.length (TfData.elements ds) = n /\
  forall k, k < n ->
    exists im,
      nth_error (TfData.elements ds) k = Some im /\
      Numpy.shape im = [28; 28; 1] /\
      List.length (Numpy.data im) = 784 /\
      forall j b, j < 784 ->
        nth_error (Numpy.data raw) (k * 784 + j) = Some b ->
        nth_error (Numpy.data im) j = Some (threshold_px b).

(** [batches] holds the [elements], each once, in groups of at least one
    and at most [size], as few as can be. *)
Definition well_batched {A} (size : nat) (elements : list A)
  (batches : list (list A)) : Prop :=
  Permutation (List.concat batches) elements /\
  Forall (fun b => 1 <= List.length b <= size) batches /\
  List.length batches = (List.length elements + size - 1) / size.

(** An array that is not a stack of images: five numbers. *)
Definition five_numbers : Numpy.ndarray Byte.byte :=
  Numpy.mk_ndarray [5] (List.repeat Byte.x01 5).

(** *** Vocabulary of the threshold *)

(** The normalized value of a raw pixel: its quotient by 255 in
    [float32]. *)
Definition normalized (b : Byte.byte) : spec_float :=
  Float32.div (Float32.of_uint8 b) Float32.c255.

(** The elements of [ds] are [n] images, and the pixel [j] of the image
    [k] is [1.0] when the normalized value of the raw pixel
    [784 k + j] of the stack is greater than or equal to [0.5], and
    [0.0] when it is less than [0.5]. *)
Definition thresholded (n : nat) (raw : Numpy.ndarray Byte.byte)
  (ds : TfData.dataset images) : Prop :=
  List.length (TfData.elements ds) = n /\
  forall k j b, k < n -> j < 784 ->
    nth_error (Numpy.data raw) (k * 784 + j) = Some b ->
    exists im,
      nth_error (TfData.elements ds) k = Some im /\
      (Float32.ge (normalized b) Float32.half = true ->
       nth_error (Numpy.data im) j = Some Float32.one) /\
      (Float32.lt (normalized b) Float32.half = true ->
       nth_error (Numpy.data im) j = Some Float32.zero).

End PrepareData.

(** ** TensorFlow: eager tensors of dtype [float32]

    A tensor is its shape and its entries in row-major order, like a
    NumPy array; the batches of [prepare_data] are such tensors.  What
    the kernels of TensorFlow return on given entries (how they round,
    overflow and treat subnormal numbers, in which order a reduction
    adds) is decided by the build of TensorFlow, not by the script: the
    kernels are taken as they are.  An elementwise kernel is a function
    of the entries it combines, the same at every position; a reduction
    is a function of the list of the entries it reduces, in row-major
    order. *)

Module Tf.

Local Open Scope py_scope.

Definition tensor : Type := Numpy.ndarray spec_float.

Record kernels : Type := mk_kernels {
  add_kernel : spec_float -> spec_float -> spec_float;        (* + *)
  sub_kernel : spec_float -> spec_float -> spec_float;        (* - *)
  mul_kernel : spec_float -> spec_float -> spec_float;        (* * *)
  neg_kernel : spec_float -> spec_float;       (* unary -, one entry *)
  exp_kernel : spec_float -> spec_float;       (* tf.exp, one entry *)
  log_kernel : spec_float -> spec_float;       (* tf.math.log *)
  pow_kernel : spec_float -> spec_float -> spec_float;        (* tf.pow *)
  sigmoid_kernel : spec_float -> spec_float;   (* tf.sigmoid *)
  (* tf.nn.sigmoid_cross_entropy_with_logits, from a logit and a label *)
  cross_entropy_kernel : spec_float -> spec_float -> spec_float;
  (* tf.reduce_sum and tf.reduce_mean, from the entries to reduce in
     row-major order *)
  sum_kernel : list spec_float -> spec_float;
  mean_kernel : list spec_float -> spec_float;
  (* the power of two Python floats, the C function [pow] *)
  float_pow : spec_float -> spec_float -> spec_float
}.

(** *** Indices *)

(** The position in row-major order of the entry at [idx], and back. *)
Fixpoint ravel (shp idx : list nat) : nat :=
  match shp, idx with
  | _ :: rest, i :: idx' => i * Numpy.size_of rest + ravel rest idx'
  | _, _ => 0
  end.

Fixpoint unravel (shp : list nat) (k : nat) : list nat :=
  match shp with
  | [] => []
  | _ :: rest =>
      k / Numpy.size_of rest :: unravel rest (k mod Numpy.size_of rest)
  end.

(** [t[idx]] *)
Definition entry (t : tensor) (idx : list nat) : spec_float :=
  nth (ravel (Numpy.shape t) idx) (Numpy.data t) S754_nan.

(** The tensor of shape [shp] whose entry at [idx] is [f idx]. *)
Definition tabulate (shp : list nat) (f : list nat -> spec_float) : tensor :=
  Numpy.mk_ndarray shp
    (map (fun k => f (unravel shp k)) (seq 0 (Numpy.size_of shp))).

(** A rank-0 tensor. *)
Definition scalar (c : spec_float) : tensor := Numpy.mk_ndarray [] [c].

(** *** Python values that meet in an expression: a float or a tensor *)

Inductive value : Type :=
| PyFloat (x : spec_float)      (* binary64 *)
| Tensor (t : tensor).

(** [tf.convert_to_tensor]: a Python float becomes a rank-0 tensor of
    dtype [float32]. *)
Definition convert_to_tensor (v : value) : tensor :=
  match v with
  | PyFloat x => scalar (Float32.of_float64 x)
  | Tensor t => t
  end.

(** *** Broadcasting *)

(** The shape of [a op b]: dimensions are matched from the last one
    back, and a dimension of 1 stretches. *)
Fixpoint broadcast_rev (a b : list nat) : Py.result (list nat) :=
  match a, b with
  | [], l | l, [] => Py.ret l
  | x :: a', y :: b' =>
      r <- broadcast_rev a' b' ;;
      if x =? y then Py.ret (x :: r)
      else if x =? 1 then Py.ret (y :: r)
      else if y =? 1 then Py.ret (x :: r)
      else Py.raise Py.InvalidArgument
  end.

Definition broadcast_shapes (a b : list nat) : Py.result (list nat) :=
  r <- broadcast_rev (rev a) (rev b) ;;
  Py.ret (rev r).

(** The index into an operand of shape [shp] for the entry of the
    result at [idx]: the last dimensions of [idx], with 0 along the
    dimensions of size 1. *)
Fixpoint index_rev (shp idx : list nat) : list nat :=
  match shp, idx with
  | d :: shp', i :: idx' => (if d =? 1 then 0 else i) :: index_rev shp' idx'
  | _, _ => []
  end.

Definition broadcast_index (shp idx : list nat) : list nat :=
  rev (index_rev (rev shp) (rev idx)).

(** An elementwise operator on two tensors. *)
Definition binary (f : spec_float -> spec_float -> spec_float)
  (a b : tensor) : Py.result tensor :=
  shp <- broadcast_shapes (Numpy.shape a) (Numpy.shape b) ;;
  Py.ret (tabulate shp (fun idx =>
            f (entry a (broadcast_index (Numpy.shape a) idx))
              (entry b (broadcast_index (Numpy.shape b) idx)))).

(** An elementwise function of one tensor. *)
Definition unary (f : spec_float -> spec_float) (a : tensor) : tensor :=
  Numpy.mk_ndarray (Numpy.shape a) (map f (Numpy.data a)).

(** *** The operators [-], [+], [*], unary [-] and [** 2]

    Between two Python floats they are Python's; as soon as one operand
    is a tensor the other one is converted and the operator is
    TensorFlow's. *)

Definition arith (py tf : spec_float -> spec_float -> spec_float)
  (a b : value) : Py.result value :=
  match a, b with
  | PyFloat x, PyFloat y => Py.ret (PyFloat (py x y))
  | _, _ =>
      t <- binary tf (convert_to_tensor a) (convert_to_tensor b) ;;
      Py.ret (Tensor t)
  end.

Section Kernels.

Variable K : kernels.

Definition py_sub : value -> value -> Py.result value :=
  arith Float64.sub (sub_kernel K).
Definition py_add : value -> value -> Py.result value :=
  arith (SFadd Float64.prec Float64.emax) (add_kernel K).
Definition py_mul : value -> value -> Py.result value :=
  arith Float64.mul (mul_kernel K).

Definition py_neg (a : value) : value :=
  match a with
  | PyFloat x => PyFloat (Float64.neg x)
  | Tensor t => Tensor (unary (neg_kernel K) t)
  end.

(** [a ** 2]: the int 2 is converted to the type of [a].  The power of
    a finite Python float that overflows is an error. *)
Definition py_square (a : value) : Py.result value :=
  match a with
  | PyFloat x =>
      let r := float_pow K x (Float64.of_Z 2) in
      if Float64.is_finite x && Float64.is_infinite r
      then Py.raise Py.OverflowError
      else Py.ret (PyFloat r)
  | Tensor t =>
      Py.ret (Tensor (unary (fun x => pow_kernel K x (Float32.of_Z 2)) t))
  end.

(** [tf.exp], [tf.math.log], [tf.sigmoid] *)
Definition exp (v : value) : tensor :=
  unary (exp_kernel K) (convert_to_tensor v).
Definition log (v : value) : tensor :=
  unary (log_kernel K) (convert_to_tensor v).
Definition sigmoid (v : value) : tensor :=
  unary (sigmoid_kernel K) (convert_to_tensor v).

(** *** Reductions *)

(** An axis counts from the front, or when negative from the back. *)
Definition normalize_axis (rank : nat) (axis : Z) : Py.result nat :=
  if ((0 <=? axis) && (axis <? Z.of_nat rank))%Z
  then Py.ret (Z.to_nat axis)
  else if ((- Z.of_nat rank <=? axis) && (axis <? 0))%Z
       then Py.ret (Z.to_nat (axis + Z.of_nat rank))
       else Py.raise Py.InvalidArgument.

Fixpoint normalize_axes (rank : nat) (axes : list Z)
  : Py.result (list nat) :=
  match axes with
  | [] => Py.ret []
  | a :: rest =>
      a' <- normalize_axis rank a ;;
      rest' <- normalize_axes rank rest ;;
      if existsb (Nat.eqb a') rest'
      then Py.raise Py.InvalidArgument
      else Py.ret (a' :: rest')
  end.

(** Which of the [rank] dimensions are reduced. *)
Definition reduced (rank : nat) (axes : list nat) : list bool :=
  map (fun d => existsb (Nat.eqb d) axes) (seq 0 rank).

(** The dimensions (or index components) that are reduced ([which] is
    [true]) or kept ([false]). *)
Fixpoint pick (which : bool) (mask : list bool) (l : list nat) : list nat :=
  match mask, l with
  | m :: mask', x :: l' =>
      if Bool.eqb m which then x :: pick which mask' l'
      else pick which mask' l'
  | _, _ => []
  end.

(** The index of the operand from the components along the kept
    dimensions and those along the reduced ones. *)
Fixpoint merge (mask : list bool) (kept red : list nat) : list nat :=
  match mask with
  | [] => []
  | true :: mask' =>
      match red with
      | j :: red' => j :: merge mask' kept red'
      | [] => []
      end
  | false :: mask' =>
      match kept with
      | i :: kept' => i :: merge mask' kept' red
      | [] => []
      end
  end.

(** A reduction along [axes] with the kernel [k]: each entry of the
    result is [k] of the entries of the operand that differ along the
    reduced dimensions only. *)
Definition reduce (k : list spec_float -> spec_float) (v : value)
  (axes : list Z) : Py.result tensor :=
  let t := convert_to_tensor v in
  let shp := Numpy.shape t in
  axes' <- normalize_axes (List.length shp) axes ;;
  let mask := reduced (List.length shp) axes' in
  let red := pick true mask shp in
  Py.ret (tabulate (pick false mask shp) (fun idx =>
            k (map (fun j => entry t (merge mask idx (unravel red j)))
                   (seq 0 (Numpy.size_of red))))).

(** [tf.reduce_sum(v, axis=axes)] *)
Definition reduce_sum (v : value) (axes : list Z) : Py.result tensor :=
  reduce (sum_kernel K) v axes.

(** [tf.reduce_mean(v)]: the mean of all the entries, a rank-0 tensor. *)
Definition reduce_mean (v : value) : tensor :=
  scalar (mean_kernel K (Numpy.data (convert_to_tensor v))).

(** *** [log_normal_pdf] *)

Definition log_normal_pdf (sample mean logvar : value) (raxis : Z)
  : Py.result tensor :=
  let log2pi :=
    log (PyFloat (Float64.mul (Float64.of_Z 2) Float64.pi)) in
  d <- py_sub sample mean ;;
  sq <- py_square d ;;
  p <- py_mul sq (Tensor (exp (py_neg logvar))) ;;
  s <- py_add p logvar ;;
  s <- py_add s (Tensor log2pi) ;;
  m <- py_mul (PyFloat Float64.minus_half) s ;;
  reduce_sum m [raxis].

(** *** [tf.random.normal], [tf.split], the cross-entropy *)

(** [tf.random.normal(shape=shp)]: [draw k] is the number drawn for the
    entry at position [k] in row-major order. *)
Definition random_normal (draw : nat -> spec_float) (shp : list nat)
  : tensor :=
  Numpy.mk_ndarray shp (map draw (seq 0 (Numpy.size_of shp))).

(** The entries of [t] from column [start] to column [start + len - 1]
    of axis 1. *)
Definition columns (t : tensor) (start len : nat) : tensor :=
  match Numpy.shape t with
  | b :: _ :: rest =>
      tabulate (b :: len :: rest) (fun idx =>
        match idx with
        | i :: j :: more => entry t (i :: start + j :: more)
        | _ => S754_nan
        end)
  | _ => t
  end.

(** [tf.split(t, num_or_size_splits=2, axis=1)] *)
Definition split2 (t : tensor) : Py.result (tensor * tensor) :=
  match Numpy.shape t with
  | _ :: d :: _ =>
      if d mod 2 =? 0
      then Py.ret (columns t 0 (d / 2), columns t (d / 2) (d / 2))
      else Py.raise Py.InvalidArgument
  | _ => Py.raise Py.InvalidArgument
  end.

Definition same_shape (a b : tensor) : bool :=
  if list_eq_dec Nat.eq_dec (Numpy.shape a) (Numpy.shape b)
  then true else false.

(** [tf.nn.sigmoid_cross_entropy_with_logits(logits, labels)]: the two
    must have the same shape. *)
Definition sigmoid_cross_entropy_with_logits (logits labels : tensor)
  : Py.result tensor :=
  if same_shape logits labels
  then binary (cross_entropy_kernel K) logits labels
  else Py.raise Py.ValueError.

(** *** The class [CVAE]

    The two networks are Keras models; what they compute depends on
    their weights, so each is a function here. *)
Record CVAE : Type := mk_CVAE {
  latent_dim : nat;
  inference_net : tensor -> Py.result tensor;
  generative_net : tensor -> Py.result tensor
}.

Definition encode (self : CVAE) (x : tensor) : Py.result (tensor * tensor) :=
  y <- inference_net self x ;;
  split2 y.

(** [reparameterize]; [draw] is the noise that [tf.random.normal]
    returns. *)
Definition reparameterize (draw : nat -> spec_float) (mean logvar : tensor)
  : Py.result value :=
  let eps := random_normal draw (Numpy.shape mean) in
  h <- py_mul (Tensor logvar) (PyFloat Float64.half) ;;
  p <- py_mul (Tensor eps) (Tensor (exp h)) ;;
  py_add p (Tensor mean).

Definition decode (self : CVAE) (z : value) (apply_sigmoid : bool)
  : Py.result tensor :=
  logits <- generative_net self (convert_to_tensor z) ;;
  if apply_sigmoid
  then Py.ret (sigmoid (Tensor logits))
  else Py.ret logits.

(** [sample]: without [eps], 100 latent vectors are drawn. *)
Definition sample (draw : nat -> spec_float) (self : CVAE)
  (eps : option value) : Py.result tensor :=
  let eps :=
    match eps with
    | Some e => e
    | None => Tensor (random_normal draw [100; latent_dim self])
    end in
  decode self eps true.

(** *** [compute_loss] *)

Definition compute_loss (draw : nat -> spec_float) (model : CVAE)
  (x : tensor) : Py.result value :=
  ml <- encode model x ;;
  let mean := fst ml in
  let logvar := snd ml in
  z <- reparameterize draw mean logvar ;;
  x_logit <- decode model z false ;;
  cross_entropy <- sigmoid_cross_entropy_with_logits x_logit x ;;
  s <- reduce_sum (Tensor cross_entropy) [1; 2; 3]%Z ;;
  let logpx_z := py_neg (Tensor s) in
  logpz <- log_normal_pdf z (PyFloat Float64.zero) (PyFloat Float64.zero) 1 ;;
  logqz_x <- log_normal_pdf z (Tensor mean) (Tensor logvar) 1 ;;
  a <- py_add logpx_z (Tensor logpz) ;;
  b <- py_sub a (Tensor logqz_x) ;;
  Py.ret (py_neg (Tensor (reduce_mean b))).

End Kernels.

(** *** Vocabulary of the properties of tensors *)

(** The tensor has as many entries as its shape says. *)
Definition well_formed (t : tensor) : Prop :=
  List.length (Numpy.data t) = Numpy.size_of (Numpy.shape t).

(** [idx] is the index of an entry of a tensor of shape [shp]. *)
Definition in_bounds (shp idx : list nat) : Prop := Forall2 lt idx shp.

(** A tensor of shape [a] can be broadcast to the shape [s]: matched
    from the last dimension back, every dimension of [a] is that of [s]
    or is 1. *)
Fixpoint fits_rev (a s : list nat) : Prop :=
  match a, s with
  | [], _ => True
  | x :: a', y :: s' => (x = y \/ x = 1) /\ fits_rev a' s'
  | _ :: _, [] => False
  end.

Definition fits (a s : list nat) : Prop := fits_rev (rev a) (rev s).

(** The shape without its dimension [axis], and an index with the
    component [j] put in at [axis]. *)
Definition remove_axis (axis : nat) (shp : list nat) : list nat :=
  firstn axis shp ++ skipn (S axis) shp.

Definition insert_axis (axis j : nat) (idx : list nat) : list nat :=
  firstn axis idx ++ j :: skipn axis idx.

(** The entry of the operand [v] that meets the entry at [idx] of the
    result of an elementwise operator. *)
Definition operand (v : value) (idx : list nat) : spec_float :=
  let t := convert_to_tensor v in
  entry t (broadcast_index (Numpy.shape t) idx).

(** The [float32] value of [2 * np.pi], and what [tf.math.log] returns
    on it. *)
Definition two_pi : spec_float :=
  Float32.of_float64 (Float64.mul (Float64.of_Z 2) Float64.pi).

Definition log2pi (K : kernels) : spec_float := log_kernel K two_pi.

(** [-0.5 * (sq * exp(-logvar) + logvar + log(2 pi))] on [float32]
    numbers, each operation by its kernel; [sq] is the entry of
    [(sample - mean)**2] and [minus_logvar] the entry of [-logvar]. *)
Definition log_density_of (K : kernels)
  (sq logvar minus_logvar : spec_float) : spec_float :=
  mul_kernel K Float32.minus_half
    (add_kernel K
       (add_kernel K (mul_kernel K sq (exp_kernel K minus_logvar)) logvar)
       (log2pi K)).

(** [-0.5 * ((x - mean)**2 * exp(-logvar) + logvar + log(2 pi))] on
    [float32] numbers. *)
Definition log_density_term (K : kernels)
  (x mean logvar minus_logvar : spec_float) : spec_float :=
  log_density_of K (pow_kernel K (sub_kernel K x mean) Float32.two)
    logvar minus_logvar.

(** The entry of [(sample - mean)**2] that meets the entry at [idx] of
    the result: the difference and the power are Python's when both are
    Python floats, and the kernels' on the entries otherwise. *)
Definition squared_difference (K : kernels) (sample mean : value)
  (idx : list nat) : spec_float :=
  match sample, mean with
  | PyFloat x, PyFloat y =>
      Float32.of_float64
        (float_pow K (Float64.sub x y) (Float64.of_Z 2))
  | _, _ =>
      pow_kernel K (sub_kernel K (operand sample idx) (operand mean idx))
        Float32.two
  end.

(** The square of the difference of two Python floats does not
    overflow. *)
Definition square_defined (K : kernels) (sample mean : value) : Prop :=
  match sample, mean with
  | PyFloat x, PyFloat y =>
      Float64.is_finite (Float64.sub x y)
      && Float64.is_infinite
           (float_pow K (Float64.sub x y) (Float64.of_Z 2))
      = false
  | _, _ => True
  end.

(** The kernels are exact at the entries that [log_normal_pdf] meets on
    a sample, a mean and a log-variance that are all zero. *)
Definition exact_at_zero (K : kernels) : Prop :=
  pow_kernel K (sub_kernel K Float32.zero Float32.zero) Float32.two
  = Float32.zero /\
  exp_kernel K (S754_zero true) = Float32.one /\
  mul_kernel K Float32.zero Float32.one = Float32.zero /\
  add_kernel K Float32.zero Float32.zero = Float32.zero /\
  add_kernel K Float32.zero (log2pi K) = log2pi K /\
  sum_kernel K [mul_kernel K Float32.minus_half (log2pi K)]
  = mul_kernel K Float32.minus_half (log2pi K).

(** A Python float, or a tensor that is well formed. *)
Definition well_formed_value (v : value) : Prop :=
  well_formed (convert_to_tensor v).

(** The number [tf.random.normal] has drawn for the entry at [idx] of a
    tensor of shape [shp]. *)
Definition noise (draw : nat -> spec_float) (shp idx : list nat)
  : spec_float :=
  draw (ravel shp idx).

(** Kernels for the examples: the four operations are the IEEE ones,
    sums and means add from the left; the other kernels are exact at
    the entries the examples meet ([exp(0) = 1], [0**2 = 0],
    [sigmoid(0) = .5]) and return the [float32] value nearest to
    [log(2 pi)] and to [log(2)]. *)
Definition example_kernels : kernels :=
  mk_kernels
    Float32.add Float32.sub Float32.mul Float32.neg
    (fun x => match x with S754_zero _ => Float32.one | _ => x end)
    (fun _ => S754_finite false 15417230 (-23))
    (fun x _ => Float32.mul x x)
    (fun _ => Float32.half)
    (fun _ _ => S754_finite false 11629080 (-24))
    (fold_right Float32.add Float32.zero)
    (fold_right Float32.add Float32.zero)
    (fun x _ => SFmul Float64.prec Float64.emax x x).

(** The tensor [[[0.]]], one sample on a single dimension. *)
Definition one_zero : tensor := Numpy.mk_ndarray [1; 1] [Float32.zero].

(** [tf.concat([a, b], axis=1)] on two tensors that differ along axis 1
    only. *)
Definition concat_columns (a b : tensor) : tensor :=
  match Numpy.shape a, Numpy.shape b with
  | n :: da :: rest, _ :: db :: _ =>
      tabulate (n :: da + db :: rest) (fun idx =>
        match idx with
        | i :: j :: more =>
            if j <? da then entry a (i :: j :: more)
            else entry b (i :: j - da :: more)
        | _ => S754_nan
        end)
  | _, _ => a
  end.

(** [logpx_z] of the example [i]: minus the sum, by the kernel of
    [tf.reduce_sum], of the cross-entropy terms of its pixels, the
    entries along the axes [pixels] of height, width and channel. *)
Definition reconstruction_log_likelihood (K : kernels)
  (pixels : list nat) (logits x : tensor) (i : nat) : spec_float :=
  neg_kernel K
    (sum_kernel K
       (map (fun k =>
               cross_entropy_kernel K
                 (entry logits (i :: unravel pixels k))
                 (entry x (i :: unravel pixels k)))
            (seq 0 (Numpy.size_of pixels)))).

(** The Gaussian log-density of the vector [z] under [mean] and
    [logvar], summed over the [L] latent dimensions by the kernel of
    [tf.reduce_sum]; [minus_logvar] is the vector [-logvar]. *)
Definition gaussian_log_density (K : kernels) (L : nat)
  (z mean logvar minus_logvar : nat -> spec_float) : spec_float :=
  sum_kernel K
    (map (fun j =>
            log_density_term K (z j) (mean j) (logvar j) (minus_logvar j))
         (seq 0 L)).

(** A model on one-pixel images with one latent dimension: the encoder
    answers mean 0 and log-variance 0 for every example, the decoder
    answers logit 0. *)
Definition toy_model : CVAE :=
  mk_CVAE 1
    (fun x =>
       match Numpy.shape x with
       | n :: _ => inr (tabulate [n; 2] (fun _ => Float32.zero))
       | [] => inl Py.InvalidArgument
       end)
    (fun z =>
       match Numpy.shape z with
       | n :: _ => inr (tabulate [n; 1; 1; 1] (fun _ => Float32.zero))
       | [] => inl Py.InvalidArgument
       end).

(** One image of one pixel, which is 1. *)
Definition toy_batch : tensor :=
  Numpy.mk_ndarray [1; 1; 1; 1] [Float32.one].

Definition unit_noise : nat -> spec_float := fun _ => Float32.one.

(** An encoder whose output has three numbers per example. *)
Definition odd_model : CVAE :=
  mk_CVAE 1
    (fun x =>
       match Numpy.shape x with
       | n :: _ => inr (tabulate [n; 3] (fun _ => Float32.zero))
       | [] => inl Py.InvalidArgument
       end)
    (fun z =>
       match Numpy.shape z with
       | n :: _ => inr (tabulate [n; 1; 1; 1] (fun _ => Float32.zero))
       | [] => inl Py.InvalidArgument
       end).

End Tf.

(** ** Keras layers and the shapes they produce

    A shape is the list of the dimensions, the batch first.  Each layer
    gives the shape of its output from the shape of its input, as its
    [compute_output_shape] does, and raises on an input it cannot
    take. *)

Module Keras.

Local Open Scope py_scope.

Inductive padding : Type := VALID | SAME.

Inductive layer : Type :=
| InputLayer (input_shape : list nat)
| Conv2D (filters kernel_size : nat) (strides : nat * nat) (pad : padding)
| Flatten
| Dense (units : nat)
| Reshape (target_shape : list nat)
| Conv2DTranspose (filters kernel_size : nat) (strides : nat * nat)
    (pad : padding).

Fixpoint shape_eqb (s1 s2 : list nat) : bool :=
  match s1, s2 with
  | [], [] => true
  | a :: s1', b :: s2' => (a =? b) && shape_eqb s1' s2'
  | _, _ => false
  end.

Definition product (s : list nat) : nat := fold_right Nat.mul 1 s.

(** Output length of a convolution along one axis. *)
Definition conv_length (n kernel stride : nat) (pad : padding)
  : Py.result nat :=
  match pad with
  | VALID =>
      if kernel <=? n then Py.ret ((n - kernel) / stride + 1)
      else Py.raise Py.ValueError
  | SAME => Py.ret ((n + stride - 1) / stride)
  end.

(** Output length of a transposed convolution along one axis. *)
Definition deconv_length (n kernel stride : nat) (pad : padding) : nat :=
  match pad with
  | VALID => n * stride + Nat.max (kernel - stride) 0
  | SAME => n * stride
  end.

Definition output_shape (l : layer) (s : list nat) : Py.result (list nat) :=
  match l, s with
  | InputLayer input_shape, batch :: rest =>
      if shape_eqb rest input_shape then Py.ret s
      else Py.raise Py.ValueError
  | Conv2D filters k (sh, sw) pad, [batch; h; w; _] =>
      h' <- conv_length h k sh pad ;;
      w' <- conv_length w k sw pad ;;
      Py.ret [batch; h'; w'; filters]
  | Flatten, batch :: rest => Py.ret [batch; product rest]
  | Dense units, batch :: _ :: _ => Py.ret (removelast s ++ [units])
  | Reshape target_shape, batch :: rest =>
      if product rest =? product target_shape
      then Py.ret (batch :: target_shape)
      else Py.raise Py.ValueError
  | Conv2DTranspose filters k (sh, sw) pad, [batch; h; w; _] =>
      Py.ret [batch; deconv_length h k sh pad; deconv_length w k sw pad;
              filters]
  | _, _ => Py.raise Py.ValueError
  end.

(** [tf.keras.Sequential]: the layers one after the other. *)
Fixpoint sequential (layers : list layer) (s : list nat)
  : Py.result (list nat) :=
  match layers with
  | [] => Py.ret s
  | l :: rest => s' <- output_shape l s ;; sequential rest s'
  end.

(** The two networks of [CVAE.__init__].  [Conv2D] pads with ['valid']
    unless told otherwise. *)
Definition inference_net (latent_dim : nat) : list layer :=
  [ InputLayer [28; 28; 1];
    Conv2D 32 3 (2, 2) VALID;
    Conv2D 64 3 (2, 2) VALID;
    Flatten;
    Dense (latent_dim + latent_dim) ].

Definition generative_net (latent_dim : nat) : list layer :=
  [ InputLayer [latent_dim];
    Dense (7 * 7 * 32);
    Reshape [7; 7; 32];
    Conv2DTranspose 64 3 (2, 2) SAME;
    Conv2DTranspose 32 3 (2, 2) SAME;
    Conv2DTranspose 1 3 (1, 1) SAME ].

(** Shape of [tf.split(value, num_or_size_splits=2, axis=1)]. *)
Definition split2_shape (s : list nat)
  : Py.result (list nat * list nat) :=
  match s with
  | batch :: d :: rest =>
      if d mod 2 =? 0
      then Py.ret (batch :: d / 2 :: rest, batch :: d / 2 :: rest)
      else Py.raise Py.InvalidArgument
  | _ => Py.raise Py.InvalidArgument
  end.

(** The shape of [a op b] for an elementwise operator: dimensions are
    matched from the last one back, and a dimension of 1 stretches. *)
Fixpoint broadcast_rev (a b : list nat) : Py.result (list nat) :=
  match a, b with
  | [], l | l, [] => Py.ret l
  | x :: a', y :: b' =>
      r <- broadcast_rev a' b' ;;
      if x =? y then Py.ret (x :: r)
      else if x =? 1 then Py.ret (y :: r)
      else if y =? 1 then Py.ret (x :: r)
      else Py.raise Py.InvalidArgument
  end.

Definition broadcast (a b : list nat) : Py.result (list nat) :=
  r <- broadcast_rev (rev a) (rev b) ;;
  Py.ret (rev r).

(** The shapes through [encode], [reparameterize] and [decode]. *)
Definition encode_shape (latent_dim : nat) (x : list nat)
  : Py.result (list nat * list nat) :=
  y <- sequential (inference_net latent_dim) x ;;
  split2_shape y.

Definition reparameterize_shape (mean logvar : list nat)
  : Py.result (list nat) :=
  let eps := mean in
  h <- broadcast logvar [] ;;
  p <- broadcast eps h ;;
  broadcast p mean.

Definition decode_shape (latent_dim : nat) (z : list nat)
  : Py.result (list nat) :=
  sequential (generative_net latent_dim) z.

(** [decode(reparameterize( *encode(x)))], on shapes. *)
Definition forward_shape (latent_dim : nat) (x : list nat)
  : Py.result (list nat) :=
  ml <- encode_shape latent_dim x ;;
  z <- reparameterize_shape (fst ml) (snd ml) ;;
  decode_shape latent_dim z.

End Keras.

(** ** The script: the training loop under [__main__] *)

Module Main.

Definition epochs : nat := 100.
Definition latent_dim : nat := 50.
Definition num_examples_to_generate : nat := 16.

(** ['{:04d}'.format(epoch)]: decimal, padded with zeros to four
    characters. *)
Definition format_04d (epoch : nat) : string :=
  let digits := NilZero.string_of_uint (Nat.to_uint epoch) in
  let pad := List.repeat "0"%char (4 - String.length digits) in
  (string_of_list_ascii pad ++ digits)%string.

(** The file [generate_and_save_images] writes at [epoch]. *)
Definition image_file (epoch : nat) : string :=
  ("image_at_epoch_" ++ format_04d epoch ++ ".png")%string.

Section Loop.

(** The numerical work is TensorFlow's; the loop is modelled over it.
    [train_epoch e m] is the model after the calls of [train_step] on
    every batch of the training set in epoch [e]; [mean_test_loss e m] is
    [loss.result()], the mean of [compute_loss] over the batches of the
    test set; [negate] is the unary minus. *)
Variables model scalar latent : Type.
Variable train_epoch : nat -> model -> model.
Variable mean_test_loss : nat -> model -> scalar.
Variable negate : scalar -> scalar.

(** What an epoch leaves behind, in order. *)
Inductive event : Type :=
| Trained (epoch : nat)
| Reported (epoch : nat) (elbo : scalar)
| SavedImages (epoch : nat) (file : string) (test_input : latent).

Record run : Type := mk_run {
  current : model;
  trace : list event
}.

(** The body of [for epoch in range(epochs)]. *)
Definition epoch_body (random_vector_for_generation : latent)
  (st : run) (epoch : nat) : run :=
  let m := train_epoch epoch (current st) in
  let tr := trace st ++ [Trained epoch] in
  if epoch mod 10 =? 0
  then
    let elbo := negate (mean_test_loss epoch m) in
    mk_run m (tr ++ [Reported epoch elbo;
                     SavedImages epoch (image_file epoch)
                       random_vector_for_generation])
  else mk_run m tr.

(** The loop over [range(n)] from a fresh model. *)
Definition train_loop (n : nat) (random_vector_for_generation : latent)
  (fresh : model) : run :=
  fold_left (epoch_body random_vector_for_generation) (seq 0 n)
    (mk_run fresh []).

(** The script: [random_vector_for_generation] is drawn once, before
    the loop. *)
Definition main (random_vector_for_generation : latent) (fresh : model)
  : run :=
  train_loop epochs random_vector_for_generation fresh.

(** The model at the start of [epoch]. *)
Fixpoint model_at (fresh : model) (epoch : nat) : model :=
  match epoch with
  | O => fresh
  | S e => train_epoch e (model_at fresh e)
  end.

(** The epochs the run has trained, in order. *)
Definition trained_epochs (tr : list event) : list nat :=
  flat_map (fun ev => match ev with Trained e => [e] | _ => [] end) tr.

(** The events of one epoch of a run that started from [fresh]. *)
Definition epoch_events (random_vector_for_generation : latent)
  (fresh : model) (epoch : nat) : list event :=
  Trained epoch ::
  if epoch mod 10 =? 0
  then [Reported epoch
          (negate (mean_test_loss epoch (model_at fresh (S epoch))));
        SavedImages epoch (image_file epoch) random_vector_for_generation]
  else [].

(** The files the run has written, in order. *)
Definition saved_files (tr : list event) : list string :=
  flat_map (fun ev => match ev with SavedImages _ f _ => [f] | _ => [] end)
           tr.

End Loop.

(** The epochs below [n] at which the loop evaluates and saves. *)
Definition evaluated_epochs (n : nat) : list nat :=
  filter (fun e => e mod 10 =? 0) (seq 0 n).

(** The last epoch whose number has four digits. *)
Definition last_four_digit_epoch : nat := 9 * 1111.

(** The file of [epoch] comes before the file of the next epoch in the
    order of Python strings. *)
Definition next_file_is_later (epoch : nat) : bool :=
  String.ltb (image_file epoch) (image_file (S epoch)).

End Main.

(** ** [generate_and_save_images] *)

Module Visualize.

Local Open Scope py_scope.

(** [predictions[i, :, :, 0]]: channel 0 of every pixel of the image
    [i]. *)
Definition channel0 (predictions : Tf.tensor) (i : nat)
  : Py.result Tf.tensor :=
  match Numpy.shape predictions with
  | n :: h :: w :: c :: rest =>
      if (i <? n) && (0 <? c)
      then Py.ret (Tf.tabulate (h :: w :: rest) (fun idx =>
                     match idx with
                     | r :: q :: more =>
                         Tf.entry predictions (i :: r :: q :: 0 :: more)
                     | _ => S754_nan
                     end))
      else Py.raise Py.InvalidArgument
  | _ => Py.raise Py.InvalidArgument
  end.

(** [plt.subplot(nrows, ncols, index)]: the cells of the grid are
    numbered from 1; another index is a value error. *)
Definition subplot (nrows ncols index : nat) : Py.result nat :=
  if (1 <=? index) && (index <=? nrows * ncols)
  then Py.ret index
  else Py.raise Py.ValueError.

(** What [plt.imshow] has drawn in one cell of the grid. *)
Record panel : Type := mk_panel {
  position : nat;
  shown : Tf.tensor
}.

(** The figure, and the file [plt.savefig] wrote it to. *)
Record figure : Type := mk_figure {
  panels : list panel;
  saved_as : string
}.

(** The loop [for i in range(predictions.shape[0])], over the values
    [indices] of [i] that are left. *)
Fixpoint draw_panels (predictions : Tf.tensor) (indices : list nat)
  : Py.result (list panel) :=
  match indices with
  | [] => Py.ret []
  | i :: rest =>
      pos <- subplot 4 4 (i + 1) ;;
      img <- channel0 predictions i ;;
      more <- draw_panels predictions rest ;;
      Py.ret (mk_panel pos img :: more)
  end.

Definition generate_and_save_images (K : Tf.kernels)
  (draw : nat -> spec_float) (model : Tf.CVAE) (epoch : nat)
  (test_input : Tf.value) : Py.result figure :=
  predictions <- Tf.sample K draw model (Some test_input) ;;
  n <- Numpy.shape0 predictions ;;
  drawn <- draw_panels predictions (seq 0 n) ;;
  Py.ret (mk_figure drawn (Main.image_file epoch)).

(** *** Vocabulary of the properties of [generate_and_save_images] *)

(** The panel shows, as an image of [h] by [w] pixels, the
    probabilities that [tf.sigmoid] gives for channel 0 of the image
    [i] of the logits. *)
Definition shows_probabilities (K : Tf.kernels) (logits : Tf.tensor)
  (h w : nat) (p : panel) (i : nat) : Prop :=
  Numpy.shape (shown p) = [h; w] /\ Tf.well_formed (shown p) /\
  forall r q, r < h -> q < w ->
    Tf.entry (shown p) [r; q]
    = Tf.sigmoid_kernel K (Tf.entry logits [i; r; q; 0]).

(** Latent vectors: as many rows of one number as asked. *)
Definition latent_rows (n : nat) : Tf.value :=
  Tf.Tensor (Tf.tabulate [n; 1] (fun _ => Float32.zero)).

End Visualize.

(* ================================================================== *)
(** * Part II: properties                                              *)
(* ================================================================== *)

Unset Implicit Arguments.

(** ** Binary64 results stay finite on list indices *)

Module Float64Facts.

Import Float64.

Local Open Scope Z_scope.

Lemma digits2_pos_size p : digits2_pos p = Pos.size p.
Proof. induction p; simpl; congruence. Qed.

Lemma Zdigits2_nonneg m : 0 <= Zdigits2 m.
Proof. destruct m; simpl; lia. Qed.

Lemma Zdigits2_log2 m : 0 < m -> Zdigits2 m = Z.log2 m + 1.
Proof.
  destruct m as [|p|p]; try lia. intros _. simpl.
  rewrite digits2_pos_size. destruct p; simpl; lia.
Qed.

Lemma Zdigits2_le_iff m k :
  0 <= m -> 0 <= k -> (Zdigits2 m <= k <-> m < 2 ^ k).
Proof.
  intros Hm Hk. destruct (Z.eq_dec m 0) as [->|Hne].
  - simpl. split; intros _; [apply Z.pow_pos_nonneg; lia | assumption].
  - rewrite Zdigits2_log2 by lia.
    rewrite (Z.log2_lt_pow2 m k) by lia. lia.
Qed.

Lemma Zdigits2_mono a b : 0 <= a <= b -> Zdigits2 a <= Zdigits2 b.
Proof.
  intros H. apply Zdigits2_le_iff; try lia. apply Zdigits2_nonneg.
  assert (Hb : b < 2 ^ Zdigits2 b).
  { apply Zdigits2_le_iff; try lia. apply Zdigits2_nonneg. }
  lia.
Qed.

Lemma shr_1_digits mrs :
  0 <= shr_m mrs ->
  0 <= shr_m (shr_1 mrs) /\
  Zdigits2 (shr_m (shr_1 mrs)) = Z.max 0 (Zdigits2 (shr_m mrs) - 1).
Proof.
  destruct mrs as [m r s]. cbn [shr_m]. intros Hm.
  destruct m as [|[p|p|]|p];
    cbn [shr_1 shr_m Zdigits2 digits2_pos]; split; lia.
Qed.

Lemma iter_shr_1_digits n : forall mrs,
  0 <= shr_m mrs ->
  0 <= shr_m (SpecFloat.iter_pos shr_1 n mrs) /\
  Zdigits2 (shr_m (SpecFloat.iter_pos shr_1 n mrs))
  = Z.max 0 (Zdigits2 (shr_m mrs) - Zpos n).
Proof.
  induction n as [n IH|n IH|]; intros mrs Hm; simpl.
  - destruct (shr_1_digits mrs Hm) as [H1 E1].
    destruct (IH _ H1) as [H2 E2]. destruct (IH _ H2) as [H3 E3].
    split; [assumption|]. rewrite E3, E2, E1. lia.
  - destruct (IH _ Hm) as [H2 E2]. destruct (IH _ H2) as [H3 E3].
    split; [assumption|]. rewrite E3, E2. lia.
  - apply shr_1_digits; assumption.
Qed.

Lemma shr_record_of_loc_m m l : shr_m (shr_record_of_loc m l) = m.
Proof. destruct l as [|[ | | ]]; reflexivity. Qed.

Lemma fexp_le x : fexp prec emax x <= Z.max x (emin prec emax).
Proof. unfold fexp, prec. lia. Qed.

Lemma shr_fexp_small m e l :
  0 <= m ->
  0 <= shr_m (fst (shr_fexp prec emax m e l)) /\
  Zdigits2 (shr_m (fst (shr_fexp prec emax m e l)))
    + snd (shr_fexp prec emax m e l)
  <= Z.max (Zdigits2 m + e) (emin prec emax).
Proof.
  intros Hm. unfold shr_fexp, shr.
  pose proof (fexp_le (Zdigits2 m + e)) as Hf.
  pose proof (shr_record_of_loc_m m l) as Hr.
  destruct (fexp prec emax (Zdigits2 m + e) - e) as [|n|n] eqn:En;
    simpl; rewrite ?Hr; try (split; lia).
  destruct (iter_shr_1_digits n (shr_record_of_loc m l)) as [H1 E1];
    [rewrite Hr; assumption|].
  split; [assumption|]. rewrite E1, Hr. lia.
Qed.

Lemma round_nearest_even_small m l :
  0 <= m ->
  0 <= round_nearest_even m l /\
  Zdigits2 (round_nearest_even m l) <= Zdigits2 m + 1.
Proof.
  intros Hm.
  assert (Hb : m < 2 ^ Zdigits2 m).
  { apply Zdigits2_le_iff; try lia. apply Zdigits2_nonneg. }
  assert (H1 : 0 <= m + 1 /\ Zdigits2 (m + 1) <= Zdigits2 m + 1).
  { split; [lia|]. pose proof (Zdigits2_nonneg m).
    apply Zdigits2_le_iff; try lia.
    rewrite Z.pow_add_r by lia. lia. }
  unfold round_nearest_even.
  destruct l as [|[ | | ]]; try (split; lia); try assumption.
  destruct (Z.even m); [split; lia | assumption].
Qed.

(** Rounding a non-negative mantissa of magnitude below [2^K] never
    overflows while [K] is well inside the exponent range. *)
Lemma binary_round_aux_small K m e l :
  0 <= m -> Zdigits2 m + e <= K ->
  emin prec emax <= K -> K + 1 <= emax - prec ->
  small (K + 1) (binary_round_aux prec emax false m e l).
Proof.
  intros Hm Hd Hlo Hhi. unfold binary_round_aux.
  destruct (shr_fexp_small m e l Hm) as [H1 D1].
  destruct (shr_fexp prec emax m e l) as [mrs1 e1]. simpl in H1, D1.
  destruct (round_nearest_even_small (shr_m mrs1) (loc_of_shr_record mrs1) H1)
    as [H2 D2].
  set (m2 := round_nearest_even (shr_m mrs1) (loc_of_shr_record mrs1)) in *.
  destruct (shr_fexp_small m2 e1 loc_Exact H2) as [H3 D3].
  destruct (shr_fexp prec emax m2 e1 loc_Exact) as [mrs3 e3].
  simpl in H3, D3.
  unfold emin, emax, prec in *.
  destruct (shr_m mrs3) as [|p|p] eqn:E3; cbn [small]; try lia.
  assert (1 <= Zdigits2 (Zpos p)) by (simpl; lia).
  destruct (Z.leb_spec e3 (1024 - 53)); cbn [small]; lia.
Qed.

Lemma digits2_pos_iter_xO p d :
  Zpos (digits2_pos (Pos.iter xO p d)) = Zpos (digits2_pos p) + Zpos d.
Proof.
  induction d as [|d IH] using Pos.peano_ind.
  - simpl. lia.
  - rewrite Pos.iter_succ. cbn [digits2_pos]. lia.
Qed.

Lemma shl_align_digits p e e' :
  Zdigits2 (Zpos (fst (shl_align p e e'))) + snd (shl_align p e e')
  = Zdigits2 (Zpos p) + e.
Proof.
  unfold shl_align. destruct (e' - e) as [|d|d] eqn:E; cbn [fst snd];
    try reflexivity.
  cbn [Zdigits2]. rewrite digits2_pos_iter_xO. lia.
Qed.

Lemma of_Z_small K z :
  0 <= z -> Zdigits2 z <= K ->
  emin prec emax <= K -> K + 1 <= emax - prec ->
  small (K + 1) (of_Z z).
Proof.
  intros Hz Hd Hlo Hhi. unfold of_Z, binary_normalize.
  destruct z as [|p|p]; [exact I | | lia].
  unfold binary_round.
  pose proof (shl_align_digits p 0
                (fexp prec emax (Zpos (digits2_pos p) + 0))) as Ha.
  destruct (shl_align p 0 (fexp prec emax (Zpos (digits2_pos p) + 0)))
    as [mz ez].
  cbn [fst snd] in Ha.
  apply binary_round_aux_small; lia.
Qed.

Lemma sqrt_core_small K m e :
  Zdigits2 (Zpos m) + e <= K -> 1 <= K ->
  let '(q, e', _) := SFsqrt_core_binary prec emax (Zpos m) e in
  0 <= q /\ Zdigits2 q + e' <= K.
Proof.
  intros Hd HK. unfold SFsqrt_core_binary.
  set (d := Zdigits2 (Zpos m)) in *.
  set (e' := Z.min (fexp prec emax (Z.div2 (d + e + 1))) (Z.div2 e)).
  assert (He' : 2 * e' <= e).
  { assert (e' <= Z.div2 e) by (unfold e'; lia).
    rewrite Z.div2_div in *. pose proof (Z.div_mod e 2).
    pose proof (Z.mod_pos_bound e 2). lia. }
  remember (e - 2 * e') as s eqn:Es.
  set (m' := match s with
             | Zpos _ => Z.shiftl (Zpos m) s
             | 0 => Zpos m
             | Zneg _ => 0
             end).
  assert (Hm' : m' = Zpos m * 2 ^ s).
  { unfold m'. destruct s as [|p|p]; try lia.
    apply Z.shiftl_mul_pow2. lia. }
  pose proof (Z.sqrtrem_sqrt m') as Hq.
  destruct (Z.sqrtrem m') as [q r]. cbn [fst] in Hq. subst q.
  split; [apply Z.sqrt_nonneg|].
  assert (Hdpos : 1 <= d) by (unfold d; simpl; lia).
  assert (Hmd : Zpos m < 2 ^ d).
  { apply Zdigits2_le_iff; unfold d; try lia. }
  set (h := (d + s + 1) / 2).
  assert (Hh : d + s <= 2 * h <= d + s + 1).
  { unfold h. pose proof (Z.div_mod (d + s + 1) 2).
    pose proof (Z.mod_pos_bound (d + s + 1) 2). lia. }
  assert (Hlt : Z.sqrt m' < 2 ^ h).
  { apply Z.sqrt_lt_square; [subst m'; lia | apply Z.pow_nonneg; lia |].
    rewrite <- Z.pow_add_r by lia.
    apply Z.lt_le_trans with (2 ^ (d + s)).
    - rewrite Hm', Z.pow_add_r by lia.
      apply Z.mul_lt_mono_pos_r; [apply Z.pow_pos_nonneg; lia | assumption].
    - apply Z.pow_le_mono_r; lia. }
  assert (Hdq : Zdigits2 (Z.sqrt m') <= h).
  { apply Zdigits2_le_iff; try lia. apply Z.sqrt_nonneg. }
  lia.
Qed.

Lemma sqrt_small K x :
  small K x -> 1 <= K ->
  emin prec emax <= K -> K + 1 <= emax - prec ->
  small (K + 1) (sqrt x).
Proof.
  intros Hx HK Hlo Hhi. unfold sqrt.
  destruct x as [s|s| |[|] m e]; cbn [small SFsqrt] in *; try tauto.
  pose proof (sqrt_core_small K m e Hx HK) as Hc.
  destruct (SFsqrt_core_binary prec emax (Zpos m) e) as [[q e'] l].
  destruct Hc. apply binary_round_aux_small; assumption.
Qed.

Lemma digits2_mul p q :
  Zdigits2 (Zpos (p * q)) <= Zdigits2 (Zpos p) + Zdigits2 (Zpos q).
Proof.
  pose proof (Zdigits2_nonneg (Zpos p)). pose proof (Zdigits2_nonneg (Zpos q)).
  apply Zdigits2_le_iff; try lia.
  assert (Zpos p < 2 ^ Zdigits2 (Zpos p)) by (apply Zdigits2_le_iff; lia).
  assert (Zpos q < 2 ^ Zdigits2 (Zpos q)) by (apply Zdigits2_le_iff; lia).
  rewrite Z.pow_add_r, Pos2Z.inj_mul by lia. nia.
Qed.

Lemma mul_small K1 K2 x y :
  small K1 x -> small K2 y ->
  emin prec emax <= K1 + K2 -> K1 + K2 + 1 <= emax - prec ->
  small (K1 + K2 + 1) (mul x y).
Proof.
  intros Hx Hy Hlo Hhi. unfold mul.
  destruct x as [sx|sx| |[|] mx ex]; cbn [small] in Hx; try tauto;
    destruct y as [sy|sy| |[|] my ey]; cbn [small] in Hy; try tauto;
    cbn [SFmul xorb small]; try exact I.
  apply binary_round_aux_small; try lia.
  pose proof (digits2_mul mx my). lia.
Qed.

Lemma round_half_even_nonneg m e : 0 <= round_half_even m e.
Proof.
  unfold round_half_even. destruct e as [|p|p].
  - lia.
  - pose proof (Z.pow_nonneg 2 (Zpos p)). lia.
  - assert (Hd : 0 < Z.pow_pos 2 p)
      by (change (Z.pow_pos 2 p) with (2 ^ Z.pos p);
          apply Z.pow_pos_nonneg; lia).
    pose proof (Z.div_pos (Zpos m) (Z.pow_pos 2 p)) as Hq.
    destruct (2 * (Zpos m mod Z.pow_pos 2 p) ?= Z.pow_pos 2 p);
      try destruct (Z.even (Zpos m / Z.pow_pos 2 p)); lia.
Qed.

Lemma round_small K x :
  small K x -> exists n, round x = inr n /\ 0 <= n.
Proof.
  destruct x as [s|s| |[|] m e]; cbn [small]; try tauto; intros _;
    eexists; (split; [reflexivity|]);
    [lia | apply round_half_even_nonneg].
Qed.

End Float64Facts.

(** ** The order of Python strings, and sorting *)

Module OrderFacts.

Lemma ascii_compare_lt_trans a b c :
  Ascii.compare a b = Lt -> Ascii.compare b c = Lt -> Ascii.compare a c = Lt.
Proof.
  unfold Ascii.compare. rewrite !N.compare_lt_iff. lia.
Qed.

Lemma compare_lt_trans : forall s1 s2 s3,
  String.compare s1 s2 = Lt -> String.compare s2 s3 = Lt ->
  String.compare s1 s3 = Lt.
Proof.
  induction s1 as [|a s1 IH]; intros [|b s2] [|c s3]; simpl;
    try discriminate; try reflexivity.
  destruct (Ascii.compare a b) eqn:Eab; try discriminate;
    destruct (Ascii.compare b c) eqn:Ebc; try discriminate; intros H1 H2.
  - apply Ascii.compare_eq_iff in Eab, Ebc. subst.
    replace (Ascii.compare c c) with Eq
      by (symmetry; apply N.compare_refl).
    eapply IH; eassumption.
  - apply Ascii.compare_eq_iff in Eab. subst. rewrite Ebc. reflexivity.
  - apply Ascii.compare_eq_iff in Ebc. subst. rewrite Eab. reflexivity.
  - rewrite (ascii_compare_lt_trans _ _ _ Eab Ebc). reflexivity.
Qed.

Lemma ltb_trans s1 s2 s3 :
  String.ltb s1 s2 = true -> String.ltb s2 s3 = true ->
  String.ltb s1 s3 = true.
Proof.
  unfold String.ltb. intros H1 H2.
  destruct (String.compare s1 s2) eqn:E1; try discriminate.
  destruct (String.compare s2 s3) eqn:E2; try discriminate.
  rewrite (compare_lt_trans _ _ _ E1 E2). reflexivity.
Qed.

Lemma ltb_leb s1 s2 : String.ltb s1 s2 = true -> String.leb s1 s2 = true.
Proof.
  unfold String.ltb, String.leb.
  destruct (String.compare s1 s2); congruence.
Qed.

Lemma leb_trans s1 s2 s3 :
  String.leb s1 s2 = true -> String.leb s2 s3 = true ->
  String.leb s1 s3 = true.
Proof.
  unfold String.leb. intros H1 H2.
  destruct (String.compare s1 s2) eqn:E1; try discriminate;
    destruct (String.compare s2 s3) eqn:E2; try discriminate.
  - apply String.compare_eq_iff in E1. subst. rewrite E2. reflexivity.
  - apply String.compare_eq_iff in E1. subst. rewrite E2. reflexivity.
  - apply String.compare_eq_iff in E2. subst. rewrite E1. reflexivity.
  - rewrite (compare_lt_trans _ _ _ E1 E2). reflexivity.
Qed.

(** Two lists in ascending order with the same elements are equal. *)
Lemma ascending_unique : forall l1 l2 : list string,
  StronglySorted (fun a b => String.leb a b = true) l1 ->
  StronglySorted (fun a b => String.leb a b = true) l2 ->
  Permutation l1 l2 -> l1 = l2.
Proof.
  induction l1 as [|a l1 IH]; intros l2 H1 H2 HP.
  - apply Permutation_nil in HP. congruence.
  - destruct l2 as [|b l2].
    { apply Permutation_sym, Permutation_nil in HP. discriminate. }
    inversion H1 as [|? ? S1 F1]; subst.
    inversion H2 as [|? ? S2 F2]; subst.
    assert (Hab : a = b).
    { assert (Ha : In a (b :: l2))
        by (eapply Permutation_in; [exact HP | left; reflexivity]).
      assert (Hb : In b (a :: l1))
        by (eapply Permutation_in;
            [apply Permutation_sym; exact HP | left; reflexivity]).
      rewrite Forall_forall in F1, F2.
      destruct Ha as [Ha|Ha]; [congruence|].
      destruct Hb as [Hb|Hb]; [congruence|].
      apply String.leb_antisym; auto. }
    subst b. f_equal. apply IH; try assumption.
    eapply Permutation_cons_inv. exact HP.
Qed.

Lemma sorted_ascending l :
  StronglySorted (fun a b => String.leb a b = true) (sorted l).
Proof.
  apply Sorted_StronglySorted.
  - intros x y z. apply leb_trans.
  - unfold sorted. generalize (StringSort.Sorted_sort l).
    generalize (StringSort.sort l). intros l' H.
    induction H as [|a l'' Hl IH Hhd]; [constructor|].
    constructor; [assumption|]. destruct Hhd; constructor; assumption.
Qed.

(** [sorted] gives the same list whatever the order of its argument. *)
Lemma sorted_permutation l1 l2 :
  Permutation l1 l2 -> sorted l1 = sorted l2.
Proof.
  intros HP. apply ascending_unique; try apply sorted_ascending.
  unfold sorted.
  eapply Permutation_trans;
    [apply Permutation_sym, StringSort.Permuted_sort|].
  eapply Permutation_trans; [exact HP | apply StringSort.Permuted_sort].
Qed.

(** A list already in strictly ascending order is what [sorted] returns
    on each of its permutations. *)
Lemma sorted_of_ascending l matches :
  StronglySorted (fun a b => String.ltb a b = true) l ->
  Permutation matches l -> sorted matches = l.
Proof.
  intros Hl HP. apply ascending_unique.
  - apply sorted_ascending.
  - clear HP. induction Hl as [|a l Hl IH Ha]; constructor; [assumption|].
    eapply Forall_impl; [|exact Ha]. intros b. apply ltb_leb.
  - eapply Permutation_trans; [|exact HP].
    apply Permutation_sym, StringSort.Permuted_sort.
Qed.

End OrderFacts.

(** ** Frame selection in [draw_gif] *)

Module DrawGifFacts.

Import DrawGif.

(** Side conditions on the exponent range of binary64. *)
Ltac in_range := unfold emin, Float64.emax, Float64.prec; lia.

Example spacing_values :
  map spacing (seq 0 8)
  = map inr [0; 2; 3; 3; 4; 4; 5; 5]%Z.
Proof. vm_compute. reflexivity. Qed.

Example draw_gif_one_frame :
  draw_gif ["a.png"%string]
  = inr [imread_at 0 "a.png"; imread_at 0 "a.png"].
Proof. vm_compute. reflexivity. Qed.

Example draw_gif_five_frames :
  option_map (map index)
    (match draw_gif ["e"; "d"; "c"; "b"; "a"]%string with
     | inr frames => Some frames
     | inl _ => None
     end)
  = Some [0; 1; 2; 4; 4].
Proof. vm_compute. reflexivity. Qed.

Lemma frame_of_total i :
  (Z.of_nat i <= sys_maxsize)%Z ->
  exists f, frame_of i = inr f /\ Float64.small 69 f.
Proof.
  intros Hi. unfold sys_maxsize in Hi. unfold frame_of, Float64.of_int.
  assert (Hx : Float64.small 64 (Float64.of_Z (Z.of_nat i))).
  { apply (Float64Facts.of_Z_small 63); try lia; try in_range.
    apply Float64Facts.Zdigits2_le_iff; lia. }
  assert (H2 : Float64.small 3 (Float64.of_Z 2))
    by (vm_compute; discriminate).
  destruct (Float64.of_Z (Z.of_nat i)) as [s|s| |[|] m e] eqn:E;
    cbn [Float64.small] in Hx; try tauto; cbn [Py.bind Py.ret];
    eexists; (split; [reflexivity|]);
    apply (Float64Facts.mul_small 3 65 _ _ H2); try in_range;
    apply (Float64Facts.sqrt_small 64); try exact I; try assumption;
    try in_range.
Qed.

Lemma spacing_total i :
  (Z.of_nat i <= sys_maxsize)%Z ->
  exists f k, frame_of i = inr f /\ Float64.round f = inr k /\
              spacing i = inr k /\ (0 <= k)%Z.
Proof.
  intros Hi. destruct (frame_of_total i Hi) as [f [Hf Hs]].
  destruct (Float64Facts.round_small _ _ Hs) as [k [Hk Hpos]].
  exists f, k. unfold spacing. rewrite Hf. cbn. auto.
Qed.

Lemma skipped_app sel more i : skipped sel i -> skipped (sel ++ more) i.
Proof.
  intros [im [k [k' [Hin H]]]]. exists im, k, k'.
  split; [apply in_or_app; left; assumption | exact H].
Qed.

Lemma StronglySorted_snoc {A} (R : A -> A -> Prop) l x :
  StronglySorted R l -> Forall (fun a => R a x) l ->
  StronglySorted R (l ++ [x]).
Proof.
  induction 1 as [|a l Hl IH Ha]; intros Hx; simpl.
  - repeat constructor.
  - inversion Hx; subst. constructor; [auto|].
    apply Forall_app. split; [assumption | constructor; auto].
Qed.

Lemma loop_body_step pre x st :
  loop_inv pre st ->
  (Z.of_nat (List.length pre) <= sys_maxsize)%Z ->
  exists st',
    loop_body (List.length pre) x st = inr st' /\
    loop_vars st' = Some (List.length pre, x) /\
    (appended st' = appended st \/
     appended st' = appended st ++ [imread_at (List.length pre) x]) /\
    loop_inv (pre ++ [x]) st'.
Proof.
  intros [rl [Hrl [Hsorted [Hall [Hlast Hcov]]]]] Hlen.
  destruct (spacing_total _ Hlen) as [f [k [Hf [Hk [Hsp Hpos]]]]].
  unfold loop_body. rewrite Hf. cbn [Py.bind py_round]. rewrite Hk, Hrl.
  cbn [Py.bind].
  assert (Hlen' : List.length (pre ++ [x]) = List.length pre + 1)
    by (rewrite length_app; reflexivity).
  unfold loop_inv. rewrite Hlen'.
  assert (Hold : forall bound,
             (rl <= bound)%Z ->
             Forall (fun im =>
                       index im < List.length pre + 1 /\
                       nth_error (pre ++ [x]) (index im) = Some (filename im) /\
                       exists k0, spacing (index im) = inr k0 /\
                                  (k0 <= bound)%Z)
                    (appended st)).
  { intros bound Hb. eapply Forall_impl; [|exact Hall].
    cbv beta. intros im [Hi [Hn [k0 [Hk0 Hle]]]].
    split; [lia|]. split.
    - rewrite nth_error_app1 by assumption. assumption.
    - exists k0. split; [assumption | lia]. }
  destruct (Z.gtb_spec k rl) as [Hgt|Hle].
  - eexists. split; [reflexivity|]. cbn [loop_vars appended last].
    split; [reflexivity|]. split; [right; reflexivity|].
    exists k. cbn [py_round]. split; [assumption|]. split; [|split; [|split]].
    + apply StronglySorted_snoc; [assumption|].
      eapply Forall_impl; [|exact Hall]. cbv beta.
      intros im [Hi [_ [k0 [Hk0 Hle]]]]. split; [assumption|].
      exists k0, k. cbn [index]. repeat split; try assumption. lia.
    + apply Forall_app. split; [apply Hold; lia|].
      constructor; [|constructor]. cbn [index filename].
      split; [lia|]. split.
      * rewrite nth_error_app2 by lia. rewrite Nat.sub_diag. reflexivity.
      * exists k. split; [assumption | lia].
    + right. exists (imread_at (List.length pre) x).
      split; [apply in_or_app; right; left; reflexivity | assumption].
    + intros i Hi. destruct (Nat.eq_dec i (List.length pre)) as [->|Hne].
      * left. exists (imread_at (List.length pre) x).
        split; [apply in_or_app; right; left; reflexivity | reflexivity].
      * destruct (Hcov i) as [[im [Hin Him]]|Hskip]; [lia | |].
        -- left. exists im. split; [apply in_or_app; left|]; assumption.
        -- right. apply skipped_app. assumption.
  - eexists. split; [reflexivity|]. cbn [loop_vars appended last].
    split; [reflexivity|]. split; [left; reflexivity|].
    exists rl. split; [assumption|]. split; [assumption|].
    split; [apply Hold; lia|]. split; [assumption|].
    intros i Hi. destruct (Nat.eq_dec i (List.length pre)) as [->|Hne].
    + right. destruct Hlast as [[_ Hrl1]|[im [Hin Him]]]; [lia|].
      exists im, k, rl. rewrite Forall_forall in Hall.
      destruct (Hall im Hin) as [Hidx _]. auto.
    + apply Hcov. lia.
Qed.

Lemma for_loop_app l1 l2 st :
  for_loop (l1 ++ l2) st
  = Py.bind (for_loop l1 st) (fun st' => for_loop l2 st').
Proof.
  revert st. induction l1 as [|[i x] l1 IH]; intros st; simpl.
  - reflexivity.
  - destruct (loop_body i x st) as [e|st']; simpl; auto.
Qed.

Lemma combine_snoc {A B} (l1 : list A) (l2 : list B) a b :
  List.length l1 = List.length l2 ->
  combine (l1 ++ [a]) (l2 ++ [b]) = combine l1 l2 ++ [(a, b)].
Proof.
  revert l2. induction l1 as [|x l1 IH]; intros [|y l2] H;
    simpl in *; try discriminate; [reflexivity|].
  f_equal. apply IH. congruence.
Qed.

Lemma enumerate_snoc l x :
  enumerate (l ++ [x]) = enumerate l ++ [(List.length l, x)].
Proof.
  unfold enumerate. rewrite last_length, seq_S.
  apply combine_snoc. apply length_seq.
Qed.

Lemma initial_inv : loop_inv [] initial.
Proof.
  exists (-1)%Z. cbn. repeat split; try constructor; auto.
  all: lia.
Qed.

(** The loop runs to its end on every list a Python list can hold. *)
Lemma for_loop_runs l :
  (Z.of_nat (List.length l) <= sys_maxsize)%Z ->
  exists st, for_loop (enumerate l) initial = inr st /\ loop_inv l st.
Proof.
  induction l as [|x l IH] using rev_ind; intros Hlen.
  - exists initial. split; [reflexivity | apply initial_inv].
  - rewrite length_app in Hlen. cbn [List.length] in Hlen.
    destruct IH as [st [Hrun Hinv]]; [lia|].
    destruct (loop_body_step l x st Hinv) as [st' [Hb [_ [_ Hinv']]]]; [lia|].
    exists st'. split; [|assumption].
    rewrite enumerate_snoc, for_loop_app, Hrun. cbn [Py.bind for_loop].
    rewrite Hb. reflexivity.
Qed.

Lemma sorted_length l : List.length (sorted l) = List.length l.
Proof.
  symmetry. apply Permutation_length. apply StringSort.Permuted_sort.
Qed.

(** The run of [draw_gif] on a non-empty list, split at the last file. *)
Lemma draw_gif_run matches :
  matches <> [] ->
  (Z.of_nat (List.length matches) <= sys_maxsize)%Z ->
  exists st1 st2,
    loop_inv (removelast (sorted matches)) st1 /\
    (appended st2 = appended st1 \/
     appended st2 = appended st1 ++ [final_frame matches]) /\
    loop_inv (sorted matches) st2 /\
    for_loop (enumerate (sorted matches)) initial = inr st2 /\
    draw_gif matches = inr (appended st2 ++ [final_frame matches]).
Proof.
  intros Hne Hlen. unfold draw_gif, final_frame.
  pose proof (sorted_length matches) as Hsl.
  destruct (exists_last (l := sorted matches)) as [p [x Hpx]].
  { intros E. rewrite E in Hsl. destruct matches; [tauto | discriminate]. }
  rewrite Hpx in *. rewrite removelast_last, last_last.
  rewrite last_length in Hsl. rewrite <- Hsl in *.
  replace (S (List.length p) - 1) with (List.length p) by lia.
  destruct (for_loop_runs p) as [st1 [Hrun Hinv]]; [lia|].
  destruct (loop_body_step p x st1 Hinv) as [st2 [Hb [Hv [Happ Hinv2]]]];
    [lia|].
  assert (Hfor : for_loop (enumerate (p ++ [x])) initial = inr st2).
  { rewrite enumerate_snoc, for_loop_app, Hrun. cbn [Py.bind for_loop].
    rewrite Hb. reflexivity. }
  exists st1, st2. repeat split; try assumption.
  cbv zeta. rewrite Hfor. cbn [Py.bind]. rewrite Hv. reflexivity.
Qed.

Lemma count_index_app n l1 l2 :
  count_index n (l1 ++ l2) = count_index n l1 + count_index n l2.
Proof. unfold count_index. rewrite filter_app, length_app. reflexivity. Qed.

Lemma count_index_below n l :
  Forall (fun im => index im < n) l -> count_index n l = 0.
Proof.
  unfold count_index. induction 1 as [|im l Him _ IH]; simpl;
    [reflexivity|].
  destruct (Nat.eqb_spec (index im) n); [lia | assumption].
Qed.

(** C8: when no file matches the pattern the loop body never runs, and
    the read of [filename] after the loop raises: [draw_gif] ends with
    an unbound-local error and returns no animation. *)
Theorem draw_gif_no_match :
  selected_frames [] = inr [] /\
  draw_gif [] = inl Py.UnboundLocalError.
Proof. split; reflexivity. Qed.

(** C5: for every non-empty list of frame files (of a length a Python
    list can have), the frames the loop of
    [draw_gif] selects are in strictly increasing order of file index and
    of rounded spacing value [round(2*sqrt(i))], each is the file at its
    index in the sorted list, every file not selected is one whose rounded
    spacing value does not exceed that of a frame selected before it, and
    the animation ends with the last file of the sorted list. *)
Theorem draw_gif_selection matches :
  matches <> [] ->
  (Z.of_nat (List.length matches) <= sys_maxsize)%Z ->
  exists sel,
    selected_frames matches = inr sel /\
    StronglySorted before sel /\
    Forall (fun im =>
              nth_error (sorted matches) (index im) = Some (filename im))
           sel /\
    (forall i, i < List.length matches ->
               (exists im, In im sel /\ index im = i) \/ skipped sel i) /\
    draw_gif matches = inr (sel ++ [final_frame matches]).
Proof.
  intros Hne Hlen.
  destruct (draw_gif_run matches Hne Hlen)
    as [st1 [st2 [_ [_ [[rl [_ [Hs [Hall [_ Hcov]]]]] [Hfor Hd]]]]]].
  exists (appended st2). unfold selected_frames. rewrite Hfor.
  split; [reflexivity|]. split; [assumption|]. split; [|split].
  - eapply Forall_impl; [|exact Hall]. cbv beta. tauto.
  - intros i Hi. apply Hcov. rewrite sorted_length. assumption.
  - assumption.
Qed.

Example selected_by_criterion_values :
  map selected_by_criterion (seq 0 8)
  = [true; true; true; false; true; false; true; false].
Proof. vm_compute. reflexivity. Qed.

(** After the loop has gone through [pre], [round(last)] bounds the
    rounded spacing value of every index gone through, and is that of
    one of them unless it is still -1. *)
Lemma spacing_below_last pre st :
  loop_inv pre st ->
  exists rl,
    py_round (last st) = inr rl /\
    (forall j, j < List.length pre ->
       exists kj, spacing j = inr kj /\ (kj <= rl)%Z) /\
    (rl = (-1)%Z \/
     exists j, j < List.length pre /\ spacing j = inr rl).
Proof.
  intros [rl [Hrl [_ [Hall [Hlast Hcov]]]]]. exists rl.
  split; [assumption|]. rewrite Forall_forall in Hall. split.
  - intros j Hj.
    destruct (Hcov j Hj)
      as [[im [Hin Him]]|[im [k [k' [Hin [_ [Hk [Hk' Hle]]]]]]]].
    + destruct (Hall im Hin) as [_ [_ [k0 [Hk0 Hle]]]]. subst j. eauto.
    + destruct (Hall im Hin) as [_ [_ [k0 [Hk0 Hle0]]]].
      rewrite Hk' in Hk0. inversion Hk0; subst.
      exists k. split; [assumption | lia].
  - destruct Hlast as [[_ ->]|[im [Hin Him]]]; [left; reflexivity|].
    right. exists (index im). destruct (Hall im Hin) as [Hi _]. auto.
Qed.

(** The body of the loop at the index that follows [pre] appends the
    frame exactly when the index is selected by the criterion. *)
Lemma loop_body_criterion pre x st :
  loop_inv pre st ->
  (Z.of_nat (List.length pre) <= sys_maxsize)%Z ->
  exists st',
    loop_body (List.length pre) x st = inr st' /\
    loop_vars st' = Some (List.length pre, x) /\
    appended st'
    = appended st ++ (if selected_by_criterion (List.length pre)
                      then [imread_at (List.length pre) x] else []).
Proof.
  intros Hinv Hlen.
  destruct (spacing_below_last pre st Hinv) as [rl [Hrl [Hle Hmax]]].
  destruct (spacing_total _ Hlen) as [f [k [Hf [Hk [Hsp Hpos]]]]].
  unfold loop_body. rewrite Hf. cbn [Py.bind py_round]. rewrite Hk, Hrl.
  cbn [Py.bind].
  destruct (Z.gtb_spec k rl) as [Hgt|Hngt].
  - assert (Hsel : selected_by_criterion (List.length pre) = true).
    { unfold selected_by_criterion. apply forallb_forall. intros j Hj.
      apply in_seq in Hj. destruct (Hle j) as [kj [Hkj Hb]]; [lia|].
      unfold exceeds. rewrite Hsp, Hkj. apply Z.ltb_lt. lia. }
    rewrite Hsel. eexists. split; [reflexivity|].
    split; reflexivity.
  - assert (Hsel : selected_by_criterion (List.length pre) = false).
    { destruct Hmax as [->|[j [Hj Hkj]]]; [lia|].
      unfold selected_by_criterion.
      destruct (forallb (exceeds (List.length pre))
                  (seq 0 (List.length pre))) eqn:E; [|reflexivity].
      rewrite forallb_forall in E.
      assert (Hin : In j (seq 0 (List.length pre)))
        by (apply in_seq; lia).
      specialize (E j Hin). unfold exceeds in E. rewrite Hsp, Hkj in E.
      apply Z.ltb_lt in E. lia. }
    rewrite Hsel, app_nil_r. eexists. split; [reflexivity|].
    split; reflexivity.
Qed.

(** C9: the append after the loop is unconditional.  On every non-empty
    list of frame files (of a length a Python list can have), the loop
    selects the last index exactly when that index is selected by the
    criterion [round(2 * sqrt(i))], its rounded spacing value exceeding
    that of every index before it; then the final frame is the last two
    entries of the animation and no other entry; otherwise the final
    frame is its last entry only. *)
Theorem final_frame_count matches :
  matches <> [] ->
  (Z.of_nat (List.length matches) <= sys_maxsize)%Z ->
  exists sel frames,
    selected_frames matches = inr sel /\
    draw_gif matches = inr frames /\
    ((exists im, In im sel /\ index im = List.length matches - 1) <->
     selected_by_criterion (List.length matches - 1) = true) /\
    (selected_by_criterion (List.length matches - 1) = true ->
     count_index (List.length matches - 1) frames = 2 /\
     exists earlier,
       frames = earlier ++ [final_frame matches; final_frame matches]) /\
    (selected_by_criterion (List.length matches - 1) = false ->
     count_index (List.length matches - 1) frames = 1 /\
     exists earlier, frames = earlier ++ [final_frame matches]).
Proof.
  intros Hne Hlen. unfold draw_gif, selected_frames, final_frame.
  pose proof (sorted_length matches) as Hsl.
  destruct (exists_last (l := sorted matches)) as [p [x Hpx]].
  { intros E. rewrite E in Hsl. destruct matches; [tauto | discriminate]. }
  rewrite Hpx in *. rewrite last_last.
  rewrite last_length in Hsl. rewrite <- Hsl in *.
  replace (S (List.length p) - 1) with (List.length p) by lia.
  destruct (for_loop_runs p) as [st1 [Hrun Hinv]]; [lia|].
  destruct (loop_body_criterion p x st1 Hinv) as [st2 [Hb [Hv Happ]]];
    [lia|].
  assert (Hfor : for_loop (enumerate (p ++ [x])) initial = inr st2).
  { rewrite enumerate_snoc, for_loop_app, Hrun. cbn [Py.bind for_loop].
    rewrite Hb. reflexivity. }
  assert (Hlt : Forall (fun im => index im < List.length p)
                  (appended st1)).
  { destruct Hinv as [rl [_ [_ [Hall _]]]].
    eapply Forall_impl; [|exact Hall]. cbv beta. tauto. }
  assert (Hfin : count_index (List.length p)
                   [imread_at (List.length p) x] = 1).
  { unfold count_index. cbn [filter index].
    rewrite Nat.eqb_refl. reflexivity. }
  rewrite Hfor. cbn [Py.bind Py.ret]. rewrite Hv, Happ.
  eexists. eexists. split; [reflexivity|]. split; [reflexivity|].
  destruct (selected_by_criterion (List.length p)).
  - split; [|split; [|discriminate]].
    + split; [reflexivity|]. intros _.
      exists (imread_at (List.length p) x).
      split; [apply in_or_app; right; left; reflexivity | reflexivity].
    + intros _. rewrite !count_index_app, Hfin.
      rewrite (count_index_below _ _ Hlt). split; [reflexivity|].
      exists (appended st1). rewrite <- app_assoc. reflexivity.
  - rewrite app_nil_r. split; [|split; [discriminate|]].
    + split; [|discriminate]. intros [im [Hin Him]].
      rewrite Forall_forall in Hlt. apply Hlt in Hin. lia.
    + intros _. rewrite count_index_app, Hfin.
      rewrite (count_index_below _ _ Hlt). split; [reflexivity|].
      exists (appended st1). reflexivity.
Qed.

(** The two theorems on the frames of the first two evaluations. *)
Lemma draw_gif_selection_witness :
  two_frames <> [] /\
  (Z.of_nat (List.length two_frames) <= sys_maxsize)%Z /\
  exists sel,
    selected_frames two_frames = inr sel /\
    StronglySorted before sel /\
    Forall (fun im =>
              nth_error (sorted two_frames) (index im) = Some (filename im))
           sel /\
    (forall i, i < List.length two_frames ->
               (exists im, In im sel /\ index im = i) \/ skipped sel i) /\
    draw_gif two_frames = inr (sel ++ [final_frame two_frames]).
Proof.
  assert (H1 : two_frames <> []) by discriminate.
  assert (H2 : (Z.of_nat (List.length two_frames) <= sys_maxsize)%Z)
    by (vm_compute; discriminate).
  split; [exact H1|]. split; [exact H2|].
  exact (draw_gif_selection two_frames H1 H2).
Defined.

Lemma final_frame_count_witness :
  two_frames <> [] /\
  (Z.of_nat (List.length two_frames) <= sys_maxsize)%Z /\
  selected_by_criterion (List.length two_frames - 1) = true /\
  exists sel frames,
    selected_frames two_frames = inr sel /\
    draw_gif two_frames = inr frames /\
    ((exists im, In im sel /\ index im = List.length two_frames - 1) <->
     selected_by_criterion (List.length two_frames - 1) = true) /\
    (selected_by_criterion (List.length two_frames - 1) = true ->
     count_index (List.length two_frames - 1) frames = 2 /\
     exists earlier,
       frames
       = earlier ++ [final_frame two_frames; final_frame two_frames]) /\
    (selected_by_criterion (List.length two_frames - 1) = false ->
     count_index (List.length two_frames - 1) frames = 1 /\
     exists earlier, frames = earlier ++ [final_frame two_frames]).
Proof.
  assert (H1 : two_frames <> []) by discriminate.
  assert (H2 : (Z.of_nat (List.length two_frames) <= sys_maxsize)%Z)
    by (vm_compute; discriminate).
  split; [exact H1|]. split; [exact H2|].
  split; [vm_compute; reflexivity|].
  exact (final_frame_count two_frames H1 H2).
Defined.

(** *** Further properties of [draw_gif] *)

Lemma spacing_exact_all :
  forallb spacing_is_exact (seq 0 compared_files) = true.
Proof. vm_compute. reflexivity. Qed.

Lemma spacing_exact i :
  i < compared_files -> spacing i = inr (exact_spacing i).
Proof.
  intros Hi. pose proof spacing_exact_all as H.
  rewrite forallb_forall in H.
  specialize (H i). unfold spacing_is_exact in H.
  destruct (spacing i) as [e|k].
  - discriminate H. apply in_seq. lia.
  - f_equal. apply Z.eqb_eq. apply H. apply in_seq. lia.
Qed.

Lemma exact_spacing_mono i j :
  i <= j -> (exact_spacing i <= exact_spacing j)%Z.
Proof.
  intros Hij. unfold exact_spacing.
  apply Z.div_le_mono; [lia|].
  apply Z.add_le_mono_r. apply Z.sqrt_le_mono. lia.
Qed.

Lemma rising_frames_snoc l x :
  rising_frames (l ++ [x])
  = rising_frames l
    ++ (if rising (List.length l) then [imread_at (List.length l) x]
        else []).
Proof.
  unfold rising_frames. rewrite last_length, seq_S, filter_app, map_app.
  cbn [Nat.add filter]. f_equal.
  - apply map_ext_in. intros i Hi. apply filter_In in Hi.
    destruct Hi as [Hi _]. apply in_seq in Hi.
    rewrite app_nth1 by lia. reflexivity.
  - destruct (rising (List.length l)); [|reflexivity].
    cbn [map]. rewrite app_nth2, Nat.sub_diag by lia. reflexivity.
Qed.

Lemma for_loop_rising l :
  List.length l <= compared_files ->
  exists st,
    for_loop (enumerate l) initial = inr st /\
    appended st = rising_frames l /\
    py_round (last st) = inr (last_spacing (List.length l)).
Proof.
  induction l as [|x l IH] using rev_ind; intros Hlen.
  - exists initial. repeat split.
  - rewrite last_length in Hlen.
    destruct IH as [st [Hrun [Happ Hrl]]]; [lia|].
    assert (Hsp : spacing (List.length l)
                  = inr (exact_spacing (List.length l)))
      by (apply spacing_exact; lia).
    unfold spacing in Hsp.
    destruct (frame_of (List.length l)) as [e|f] eqn:Hf;
      [discriminate|]. cbn [Py.bind py_round] in Hsp.
    rewrite enumerate_snoc, for_loop_app, Hrun. cbn [Py.bind for_loop].
    unfold loop_body. rewrite Hf. cbn [Py.bind py_round].
    rewrite Hsp, Hrl. cbn [Py.bind].
    rewrite rising_frames_snoc, last_length. cbn [last_spacing].
    assert (Hrise : (exact_spacing (List.length l)
                     >? last_spacing (List.length l))%Z
                    = rising (List.length l)).
    { unfold rising. destruct (List.length l) as [|n] eqn:En.
      - reflexivity.
      - cbn [Nat.eqb orb last_spacing].
        replace (S n - 1) with n by lia. apply Z.gtb_ltb. }
    rewrite Hrise.
    destruct (rising (List.length l)) eqn:Er.
    + eexists. split; [reflexivity|]. cbn [appended last py_round].
      rewrite Happ. split; [reflexivity | assumption].
    + eexists. split; [reflexivity|]. cbn [appended last].
      rewrite Happ, app_nil_r. split; [reflexivity|].
      rewrite Hrl. f_equal.
      destruct (List.length l) as [|n] eqn:En; [discriminate|].
      cbn [last_spacing] in *. rewrite <- Hrise in Er.
      pose proof (exact_spacing_mono n (S n)). 
      destruct (Z.gtb_spec (exact_spacing (S n)) (exact_spacing n));
        [discriminate | lia].
Qed.

Lemma for_loop_appends items : forall st st',
  for_loop items st = inr st' ->
  exists more,
    appended st' = appended st ++ more /\
    List.length more <= List.length items.
Proof.
  induction items as [|[i x] items IH]; intros st st' H; simpl in H.
  - inversion H; subst. exists []. rewrite app_nil_r. auto.
  - destruct (loop_body i x st) as [e|st1] eqn:Hb; [discriminate|].
    cbn [Py.bind] in H. destruct (IH _ _ H) as [more [Hm Hl]].
    unfold loop_body in Hb.
    destruct (frame_of i) as [e|f]; [discriminate|].
    cbn [Py.bind] in Hb.
    destruct (py_round (Float f)) as [e|rf]; [discriminate|].
    cbn [Py.bind] in Hb.
    destruct (py_round (last st)) as [e|rl]; [discriminate|].
    cbn [Py.bind] in Hb.
    destruct (rf >? rl)%Z; inversion Hb; subst; cbn [appended] in Hm.
    + exists (imread_at i x :: more). rewrite Hm, <- app_assoc.
      split; [reflexivity | simpl; lia].
    + exists more. split; [assumption | simpl; lia].
Qed.

Lemma draw_gif_permuted l1 l2 :
  Permutation l1 l2 -> draw_gif l1 = draw_gif l2.
Proof.
  intros HP. unfold draw_gif.
  rewrite (OrderFacts.sorted_permutation l1 l2 HP). reflexivity.
Qed.

Lemma draw_gif_ten_files :
  draw_gif (map Main.image_file [0; 10; 20; 30; 40; 50; 60; 70; 80; 90])
  = inr (map (fun p => imread_at (fst p) (Main.image_file (snd p)))
             [(0, 0); (1, 10); (2, 20); (4, 40); (6, 60); (8, 80);
              (9, 90)]).
Proof. vm_compute. reflexivity. Qed.

(** X1: the animation does not depend on the order in which [glob]
    lists the files: [draw_gif] sorts them first. *)
Theorem draw_gif_order_independent l1 l2 :
  Permutation l1 l2 ->
  draw_gif l1 = draw_gif l2 /\ selected_frames l1 = selected_frames l2.
Proof.
  intros HP. unfold draw_gif, selected_frames.
  rewrite (OrderFacts.sorted_permutation l1 l2 HP). split; reflexivity.
Qed.

Lemma draw_gif_order_independent_witness :
  Permutation two_frames (rev two_frames) /\
  draw_gif two_frames = draw_gif (rev two_frames) /\
  selected_frames two_frames = selected_frames (rev two_frames).
Proof.
  assert (H : Permutation two_frames (rev two_frames))
    by apply Permutation_rev.
  split; [exact H|].
  exact (draw_gif_order_independent two_frames (rev two_frames) H).
Defined.

(** X2: on a non-empty list (of a length a Python list can have) the
    animation begins with the first file of the sorted list, which the
    loop always selects, and has at least two and at most one more
    frames than there are files. *)
Theorem draw_gif_first_frame matches :
  matches <> [] ->
  (Z.of_nat (List.length matches) <= sys_maxsize)%Z ->
  exists rest,
    draw_gif matches
    = inr (imread_at 0 (hd EmptyString (sorted matches)) :: rest) /\
    1 <= List.length rest <= List.length matches.
Proof.
  intros Hne Hlen.
  destruct (draw_gif_run matches Hne Hlen)
    as [st1 [st2 [_ [_ [_ [Hfor Hd]]]]]].
  rewrite Hd. pose proof (sorted_length matches) as Hsl.
  destruct (sorted matches) as [|x l] eqn:Es.
  { destruct matches; [tauto | discriminate]. }
  cbn [hd]. unfold enumerate in Hfor. cbn [List.length seq combine] in Hfor.
  cbn [for_loop] in Hfor.
  change (loop_body 0 x initial)
    with (@inr Py.exn locals
            (mk_locals (Float (S754_zero false)) (Some (0, x))
               [imread_at 0 x])) in Hfor.
  cbn [Py.bind] in Hfor.
  destruct (for_loop_appends _ _ _ Hfor) as [more [Hm Hl]].
  cbn [appended] in Hm. rewrite length_combine, length_seq in Hl.
  exists (more ++ [final_frame matches]). rewrite Hm.
  split; [reflexivity|]. rewrite last_length.
  cbn [List.length] in Hsl. lia.
Qed.

Lemma draw_gif_first_frame_witness :
  two_frames <> [] /\
  (Z.of_nat (List.length two_frames) <= sys_maxsize)%Z /\
  exists rest,
    draw_gif two_frames
    = inr (imread_at 0 (hd EmptyString (sorted two_frames)) :: rest) /\
    1 <= List.length rest <= List.length two_frames.
Proof.
  assert (H1 : two_frames <> []) by discriminate.
  assert (H2 : (Z.of_nat (List.length two_frames) <= sys_maxsize)%Z)
    by (vm_compute; discriminate).
  split; [exact H1|]. split; [exact H2|].
  exact (draw_gif_first_frame two_frames H1 H2).
Defined.

(** X3: for the first 4096 indices the value [round(2 * (i**0.5))]
    computed in binary64 is the exact one, the integer nearest to
    [2 sqrt(i)]; it never decreases from one index to the next. *)
Theorem spacing_is_exact_nearest i :
  i < compared_files ->
  spacing i = inr (exact_spacing i) /\
  (exact_spacing i <= exact_spacing (S i))%Z /\
  (0 < i -> ((2 * exact_spacing i - 1) ^ 2 <= 16 * Z.of_nat i)%Z) /\
  (16 * Z.of_nat i < (2 * exact_spacing i + 1) ^ 2)%Z.
Proof.
  intros Hi. split; [apply spacing_exact; assumption|].
  split; [apply exact_spacing_mono; lia|].
  unfold exact_spacing.
  set (n := (16 * Z.of_nat i)%Z).
  assert (Hn : (0 <= n)%Z) by (unfold n; lia).
  assert (Hn1 : 0 < i -> (16 <= n)%Z) by (unfold n; lia).
  pose proof (Z.sqrt_spec n Hn) as Hs. cbv zeta in Hs.
  pose proof (Z.sqrt_nonneg n) as Hs0.
  set (r := Z.sqrt n) in *.
  pose proof (Z.div_mod (r + 1) 2) as Hdm.
  pose proof (Z.mod_pos_bound (r + 1) 2) as Hmb.
  set (q := ((r + 1) / 2)%Z) in *.
  assert (Hcases : (r = 2 * q - 1 \/ r = 2 * q)%Z) by lia.
  rewrite !Z.pow_2_r.
  destruct Hcases as [Hr|Hr]; rewrite Hr in Hs; unfold Z.succ in Hs;
    (split; [intros Hpos; specialize (Hn1 Hpos)|]); nia.
Qed.

Lemma spacing_is_exact_nearest_witness :
  5 < compared_files /\
  spacing 5 = inr (exact_spacing 5) /\
  (exact_spacing 5 <= exact_spacing 6)%Z /\
  (0 < 5 -> ((2 * exact_spacing 5 - 1) ^ 2 <= 16 * Z.of_nat 5)%Z) /\
  (16 * Z.of_nat 5 < (2 * exact_spacing 5 + 1) ^ 2)%Z.
Proof.
  assert (H : 5 < compared_files) by (unfold compared_files; lia).
  split; [exact H|]. exact (spacing_is_exact_nearest 5 H).
Defined.

(** X4: on up to 4096 files the loop selects exactly the frames at
    index 0 and at the indices where the integer nearest to [2 sqrt(i)]
    is above the one at [i - 1]; the animation is these frames followed
    by the last file. *)
Theorem selected_closed_form matches :
  matches <> [] ->
  List.length matches <= compared_files ->
  selected_frames matches = inr (rising_frames (sorted matches)) /\
  draw_gif matches
  = inr (rising_frames (sorted matches) ++ [final_frame matches]).
Proof.
  intros Hne Hlen.
  destruct (for_loop_rising (sorted matches)) as [st [Hrun [Happ _]]].
  { rewrite sorted_length. assumption. }
  assert (Hbound : (Z.of_nat (List.length matches) <= sys_maxsize)%Z).
  { unfold sys_maxsize, compared_files in *.
    apply Z.le_trans with 4096%Z; [lia | vm_compute; discriminate]. }
  destruct (draw_gif_run matches Hne Hbound)
    as [st1 [st2 [_ [_ [_ [Hfor Hd]]]]]].
  rewrite Hrun in Hfor. inversion Hfor; subst st2.
  unfold selected_frames. rewrite Hrun. cbn [Py.bind Py.ret].
  rewrite Hd, Happ. split; reflexivity.
Qed.

Lemma selected_closed_form_witness :
  two_frames <> [] /\
  List.length two_frames <= compared_files /\
  selected_frames two_frames = inr (rising_frames (sorted two_frames)) /\
  draw_gif two_frames
  = inr (rising_frames (sorted two_frames) ++ [final_frame two_frames]).
Proof.
  assert (H1 : two_frames <> []) by discriminate.
  assert (H2 : List.length two_frames <= compared_files)
    by (unfold compared_files; simpl; lia).
  split; [exact H1|]. split; [exact H2|].
  exact (selected_closed_form two_frames H1 H2).
Defined.

End DrawGifFacts.

(** ** Binarization in [prepare_data] *)

Module PrepareDataFacts.

Import PrepareData.

Lemma binarize_data a :
  Numpy.data (binarize a) = map binarize_px (Numpy.data a).
Proof.
  unfold binarize, Numpy.assign_where. cbn [Numpy.data].
  rewrite map_map. reflexivity.
Qed.

Lemma SFcompare_swap x y :
  SFcompare y x = option_map CompOpp (SFcompare x y).
Proof.
  destruct x as [sx|sx| |sx mx ex], y as [sy|sy| |sy my ey];
    try destruct sx; try destruct sy; cbn; try reflexivity;
    rewrite (Z.compare_antisym ex ey); destruct (ex ?= ey)%Z; cbn;
    try reflexivity;
    pose proof (Pos.compare_cont_antisym mx my Eq) as H;
    cbn [CompOpp] in H; rewrite <- H; try reflexivity;
    rewrite CompOpp_involutive; reflexivity.
Qed.

Lemma lt_not_ge x y : Float32.lt x y = true -> Float32.ge x y = false.
Proof.
  unfold Float32.lt, Float32.ge, SFltb, SFleb.
  rewrite (SFcompare_swap x y).
  destruct (SFcompare x y) as [[ | | ]|]; cbn; congruence.
Qed.

Lemma not_ge_lt x y :
  x <> S754_nan -> y <> S754_nan ->
  Float32.ge x y = false -> Float32.lt x y = true.
Proof.
  unfold Float32.lt, Float32.ge, SFltb, SFleb.
  rewrite (SFcompare_swap x y). intros Hx Hy.
  destruct (SFcompare x y) as [[ | | ]|] eqn:E; cbn; try congruence.
  destruct x as [sx|sx| |sx mx ex], y as [sy|sy| |sy my ey];
    try congruence; try destruct sx; try destruct sy; discriminate.
Qed.

Lemma binarize_px_ge x :
  Float32.ge x Float32.half = true -> binarize_px x = Float32.one.
Proof. unfold binarize_px. intros ->. reflexivity. Qed.

Lemma binarize_px_lt x :
  Float32.lt x Float32.half = true -> binarize_px x = Float32.zero.
Proof.
  unfold binarize_px. intros H. rewrite (lt_not_ge _ _ H), H. reflexivity.
Qed.

Lemma binarize_px_binary x :
  x <> S754_nan ->
  binarize_px x = Float32.zero \/ binarize_px x = Float32.one.
Proof.
  intros Hx. destruct (Float32.ge x Float32.half) eqn:E.
  - right. apply binarize_px_ge. assumption.
  - left. apply binarize_px_lt. apply not_ge_lt; try assumption.
    discriminate.
Qed.

(** The quotient of a [uint8] by 255 is a number. *)
Lemma normalized_not_nan b :
  Float32.div (Float32.of_uint8 b) Float32.c255 <> S754_nan.
Proof. destruct b; vm_compute; discriminate. Qed.

Lemma Forall_firstn_skipn {A} (P : A -> Prop) k l :
  Forall P l -> Forall P (firstn k l) /\ Forall P (skipn k l).
Proof.
  intros H. rewrite <- (firstn_skipn k l) in H.
  apply Forall_app in H. assumption.
Qed.

Lemma slices_Forall {A} (P : A -> Prop) k n : forall l,
  Forall P l -> Forall (Forall P) (TfData.slices k n l).
Proof.
  induction n as [|n IH]; intros l H; simpl; constructor.
  - apply Forall_firstn_skipn; assumption.
  - apply IH. apply Forall_firstn_skipn; assumption.
Qed.

Lemma groups_Forall {A} (P : A -> Prop) size fuel : forall l,
  Forall P l -> Forall (Forall P) (TfData.groups fuel size l).
Proof.
  induction fuel as [|fuel IH]; intros l H; simpl.
  - destruct l; constructor.
  - destruct l as [|x l]; [constructor|]. constructor.
    + apply Forall_firstn_skipn; assumption.
    + apply IH. apply Forall_firstn_skipn; assumption.
Qed.

(** Every pass over a shuffled, batched dataset yields elements of the
    dataset only. *)
Lemma iterate_Forall {A} (P : A -> Prop) order (ds : TfData.dataset A) :
  (forall l, Permutation (order l) l) ->
  Forall P (TfData.elements ds) ->
  Forall (Forall P) (TfData.iterate order ds).
Proof.
  intros Hperm H. unfold TfData.iterate.
  set (l := match TfData.shuffle_buffer ds with
            | Some _ => order (TfData.elements ds)
            | None => TfData.elements ds
            end).
  assert (Hl : Forall P l).
  { unfold l. destruct (TfData.shuffle_buffer ds); [|assumption].
    eapply Permutation_Forall; [|exact H].
    apply Permutation_sym, Hperm. }
  destruct (TfData.batch_size ds).
  - apply groups_Forall; assumption.
  - apply Forall_map. eapply Forall_impl; [|exact Hl].
    intros x Hx. constructor; [assumption | constructor].
Qed.

Lemma prepare_images_run n raw :
  image_stack n raw ->
  prepare_images raw
  = inr (Numpy.mk_ndarray [n; 28; 28; 1] (map prepare_px (Numpy.data raw))).
Proof.
  intros [Hshape Hlen]. unfold prepare_images, Numpy.shape0, Numpy.reshape.
  rewrite Hshape. cbn [Py.bind Py.ret].
  replace (Numpy.size_of [n; 28; 28; 1]) with (n * 28 * 28)
    by (unfold Numpy.size_of; cbn [fold_right]; lia).
  rewrite Hlen, Nat.eqb_refl. cbn [Py.bind Py.ret]. f_equal.
  unfold binarize, Numpy.assign_where, Numpy.idiv, Numpy.astype.
  cbn [Numpy.data Numpy.shape]. rewrite !map_map. reflexivity.
Qed.

Example prepare_px_127 : prepare_px Byte.x7f = Float32.zero.
Proof. vm_compute. reflexivity. Qed.

Example prepare_px_128 : prepare_px Byte.x80 = Float32.one.
Proof. vm_compute. reflexivity. Qed.

Lemma prepare_px_binary b :
  prepare_px b = Float32.zero \/ prepare_px b = Float32.one.
Proof. apply binarize_px_binary, normalized_not_nan. Qed.

Lemma prepared_dataset n raw :
  image_stack n raw ->
  exists a ds,
    prepare_images raw = inr a /\
    TfData.from_tensor_slices a = inr ds /\
    TfData.shuffle_buffer ds = None /\ TfData.batch_size ds = None /\
    Forall (fun im => Numpy.shape im = [28; 28; 1] /\ binary_pixels im)
           (TfData.elements ds).
Proof.
  intros H. rewrite (prepare_images_run n raw H).
  eexists. eexists. split; [reflexivity|].
  unfold TfData.from_tensor_slices. cbn [Numpy.shape Numpy.data].
  split; [reflexivity|]. cbn [TfData.shuffle_buffer TfData.batch_size
                              TfData.elements].
  split; [reflexivity|]. split; [reflexivity|].
  apply Forall_map.
  assert (Hall : Forall (fun x => x = Float32.zero \/ x = Float32.one)
                   (map prepare_px (Numpy.data raw))).
  { apply Forall_map. apply Forall_forall. intros b _.
    apply prepare_px_binary. }
  eapply Forall_impl;
    [|exact (slices_Forall _ (Numpy.size_of [28; 28; 1]) n _ Hall)].
  intros l Hl. split; [reflexivity | exact Hl].
Qed.

(** C4: on image stacks of [uint8] pixels, [prepare_data] returns two
    datasets whose elements have shape 28 x 28 x 1 and whose pixels are
    all exactly [0.0] or exactly [1.0]; so are the pixels of every batch
    of every pass over them, in whatever order the shuffle emits. *)
Theorem prepare_data_binary
  n_train n_test train_images train_labels test_images test_labels :
  image_stack n_train train_images ->
  image_stack n_test test_images ->
  exists train_data test_data,
    prepare_data ((train_images, train_labels), (test_images, test_labels))
    = inr (train_data, test_data) /\
    Forall (fun im => Numpy.shape im = [28; 28; 1] /\ binary_pixels im)
           (TfData.elements train_data ++ TfData.elements test_data) /\
    forall order,
      (forall l, Permutation (order l) l) ->
      Forall (Forall binary_pixels)
             (TfData.iterate order train_data
              ++ TfData.iterate order test_data).
Proof.
  intros Htrain Htest.
  destruct (prepared_dataset _ _ Htrain) as [a1 [d1 [E1 [S1 [_ [_ F1]]]]]].
  destruct (prepared_dataset _ _ Htest) as [a2 [d2 [E2 [S2 [_ [_ F2]]]]]].
  unfold prepare_data. rewrite E1. cbn [Py.bind]. rewrite E2. cbn [Py.bind].
  rewrite S1. cbn [Py.bind]. rewrite S2. cbn [Py.bind Py.ret].
  eexists. eexists. split; [reflexivity|].
  cbn [TfData.batch TfData.shuffle TfData.elements].
  split; [apply Forall_app; split; assumption|].
  intros order Hperm. apply Forall_app.
  split; apply iterate_Forall; try assumption;
    cbn [TfData.elements];
    [eapply Forall_impl; [|exact F1] | eapply Forall_impl; [|exact F2]];
    cbv beta; tauto.
Qed.

Lemma prepare_data_binary_witness :
  image_stack 1 bright /\ image_stack 1 dark /\
  exists train_data test_data,
    prepare_data ((bright, no_labels), (dark, no_labels))
    = inr (train_data, test_data) /\
    Forall (fun im => Numpy.shape im = [28; 28; 1] /\ binary_pixels im)
           (TfData.elements train_data ++ TfData.elements test_data) /\
    forall order,
      (forall l, Permutation (order l) l) ->
      Forall (Forall binary_pixels)
             (TfData.iterate order train_data
              ++ TfData.iterate order test_data).
Proof.
  assert (H1 : image_stack 1 bright) by (split; reflexivity).
  assert (H2 : image_stack 1 dark) by (split; reflexivity).
  split; [exact H1|]. split; [exact H2|].
  exact (prepare_data_binary 1 1 bright no_labels dark no_labels H1 H2).
Defined.

(** *** Further properties of [prepare_data] *)

Lemma prepare_px_threshold b : prepare_px b = threshold_px b.
Proof. destruct b; vm_compute; reflexivity. Qed.

(** X9: a pixel of raw intensity 128 or more is prepared as [1.0], a
    pixel of raw intensity 127 or less as [0.0]; the prepared array has
    the shape [(n, 28, 28, 1)] and keeps the order of the pixels. *)
Theorem prepared_pixel_by_intensity n raw i b :
  image_stack n raw ->
  nth_error (Numpy.data raw) i = Some b ->
  exists prepared,
    prepare_images raw = inr prepared /\
    Numpy.shape prepared = [n; 28; 28; 1] /\
    nth_error (Numpy.data prepared) i
    = Some (if (128 <=? Byte.to_N b)%N then Float32.one
            else Float32.zero).
Proof.
  intros Hraw Hb. rewrite (prepare_images_run n raw Hraw).
  eexists. split; [reflexivity|]. split; [reflexivity|].
  cbn [Numpy.data]. rewrite (map_nth_error prepare_px i _ Hb).
  rewrite prepare_px_threshold. reflexivity.
Qed.

Lemma prepared_pixel_by_intensity_witness :
  image_stack 1 bright /\
  nth_error (Numpy.data bright) 5 = Some Byte.x80 /\
  exists prepared,
    prepare_images bright = inr prepared /\
    Numpy.shape prepared = [1; 28; 28; 1] /\
    nth_error (Numpy.data prepared) 5
    = Some (if (128 <=? Byte.to_N Byte.x80)%N then Float32.one
            else Float32.zero).
Proof.
  assert (H1 : image_stack 1 bright) by (split; reflexivity).
  assert (H2 : nth_error (Numpy.data bright) 5 = Some Byte.x80)
    by reflexivity.
  split; [exact H1|]. split; [exact H2|].
  exact (prepared_pixel_by_intensity 1 bright 5 Byte.x80 H1 H2).
Defined.

Lemma binarize_px_idempotent x :
  binarize_px (binarize_px x) = binarize_px x.
Proof.
  destruct (Float32.ge x Float32.half) eqn:Ege.
  - rewrite (binarize_px_ge x Ege). reflexivity.
  - destruct (Float32.lt x Float32.half) eqn:Elt.
    + rewrite (binarize_px_lt x Elt). reflexivity.
    + assert (Hx : binarize_px x = x)
        by (unfold binarize_px; rewrite Ege, Elt; reflexivity).
      rewrite !Hx. reflexivity.
Qed.

(** X10: binarizing twice is binarizing once, and binarization keeps the
    shape of the array. *)
Theorem binarize_idempotent (a : images) :
  binarize (binarize a) = binarize a /\
  Numpy.shape (binarize a) = Numpy.shape a /\
  List.length (Numpy.data (binarize a)) = List.length (Numpy.data a).
Proof.
  split; [|split].
  - pose proof (binarize_data (binarize a)) as H1.
    pose proof (binarize_data a) as H2.
    destruct (binarize (binarize a)) as [s1 d1] eqn:E1.
    destruct (binarize a) as [s2 d2] eqn:E2.
    cbn [Numpy.data] in H1, H2.
    assert (Hs : s1 = s2).
    { change s1 with (Numpy.shape (Numpy.mk_ndarray s1 d1)).
      rewrite <- E1. reflexivity. }
    subst s1. f_equal. rewrite H1, H2, map_map.
    apply map_ext. intros x. apply binarize_px_idempotent.
  - reflexivity.
  - rewrite binarize_data, length_map. reflexivity.
Qed.

(** X11: binarization leaves a NaN as it is, since neither comparison
    holds of it; every other value, the infinities included, becomes
    [0.0] or [1.0]. *)
Theorem binarize_nan (a : images) i x :
  nth_error (Numpy.data a) i = Some x ->
  (x = S754_nan ->
   nth_error (Numpy.data (binarize a)) i = Some S754_nan) /\
  (x <> S754_nan ->
   nth_error (Numpy.data (binarize a)) i = Some Float32.zero \/
   nth_error (Numpy.data (binarize a)) i = Some Float32.one) /\
  binarize_px (S754_infinity false) = Float32.one /\
  binarize_px (S754_infinity true) = Float32.zero.
Proof.
  intros Hx. rewrite binarize_data, (map_nth_error binarize_px i _ Hx).
  split; [intros ->; reflexivity|].
  split; [|split; reflexivity].
  intros Hn. destruct (binarize_px_binary x Hn) as [-> | ->]; auto.
Qed.

Lemma binarize_nan_witness :
  nth_error (Numpy.data half_array) 0 = Some Float32.half /\
  (Float32.half = S754_nan ->
   nth_error (Numpy.data (binarize half_array)) 0 = Some S754_nan) /\
  (Float32.half <> S754_nan ->
   nth_error (Numpy.data (binarize half_array)) 0 = Some Float32.zero \/
   nth_error (Numpy.data (binarize half_array)) 0 = Some Float32.one) /\
  binarize_px (S754_infinity false) = Float32.one /\
  binarize_px (S754_infinity true) = Float32.zero.
Proof.
  assert (H : nth_error (Numpy.data half_array) 0 = Some Float32.half)
    by reflexivity.
  split; [exact H|].
  exact (binarize_nan half_array 0 Float32.half H).
Defined.

(** X12: [prepare_data] raises on an array that is not a stack of
    28 x 28 images: a value error from [reshape] when the number of
    pixels is not 784 times the first dimension, an index error from
    [shape[0]] when the array has no dimension. *)
Theorem prepare_images_rejects raw n rest :
  Numpy.shape raw = n :: rest ->
  List.length (Numpy.data raw) <> n * 784 ->
  prepare_images raw = inl Py.ValueError /\
  (forall labels test,
      prepare_data ((raw, labels), test) = inl Py.ValueError) /\
  forall data,
    prepare_images (Numpy.mk_ndarray [] data) = inl Py.IndexError.
Proof.
  intros Hshape Hlen.
  assert (H : prepare_images raw = inl Py.ValueError).
  { unfold prepare_images, Numpy.shape0, Numpy.reshape. rewrite Hshape.
    cbn [Py.bind Py.ret].
    replace (Numpy.size_of [n; 28; 28; 1]) with (n * 784)
      by (unfold Numpy.size_of; cbn [fold_right]; lia).
    destruct (Nat.eqb_spec (n * 784) (List.length (Numpy.data raw)));
      [congruence | reflexivity]. }
  split; [exact H|]. split; [|reflexivity].
  intros labels [test test_labels]. unfold prepare_data. rewrite H.
  reflexivity.
Qed.

Lemma prepare_images_rejects_witness :
  Numpy.shape five_numbers = [5] /\
  List.length (Numpy.data five_numbers) <> 5 * 784 /\
  prepare_images five_numbers = inl Py.ValueError /\
  (forall labels test,
      prepare_data ((five_numbers, labels), test) = inl Py.ValueError) /\
  forall data,
    prepare_images (Numpy.mk_ndarray [] data) = inl Py.IndexError.
Proof.
  assert (H1 : Numpy.shape five_numbers = [5]) by reflexivity.
  assert (H2 : List.length (Numpy.data five_numbers) <> 5 * 784)
    by (cbn; lia).
  split; [exact H1|]. split; [exact H2|].
  exact (prepare_images_rejects five_numbers 5 [] H1 H2).
Defined.

Lemma slices_nth {A} k n : forall (l : list A) i,
  i < n ->
  nth_error (TfData.slices k n l) i = Some (firstn k (skipn (i * k) l)).
Proof.
  induction n as [|n IH]; intros l i Hi; [lia|].
  destruct i as [|i]; cbn [TfData.slices nth_error].
  - reflexivity.
  - rewrite IH by lia. rewrite skipn_skipn.
    replace (i * k + k) with (S i * k) by lia. reflexivity.
Qed.

Lemma slices_length {A} k n (l : list A) :
  List.length (TfData.slices k n l) = n.
Proof.
  revert l. induction n as [|n IH]; intros l; simpl; [reflexivity|].
  rewrite IH. reflexivity.
Qed.

Lemma prepared_images_of_stack n raw :
  image_stack n raw ->
  exists a ds,
    prepare_images raw = inr a /\
    TfData.from_tensor_slices a = inr ds /\
    TfData.shuffle_buffer ds = None /\ TfData.batch_size ds = None /\
    images_of_stack n raw ds.
Proof.
  intros H. rewrite (prepare_images_run n raw H). destruct H as [_ Hlen].
  eexists. eexists. split; [reflexivity|].
  unfold TfData.from_tensor_slices. cbn [Numpy.shape Numpy.data].
  split; [reflexivity|].
  cbn [TfData.shuffle_buffer TfData.batch_size TfData.elements].
  split; [reflexivity|]. split; [reflexivity|].
  replace (Numpy.size_of [28; 28; 1]) with 784 by reflexivity.
  unfold images_of_stack. cbn [TfData.elements].
  split; [rewrite length_map, slices_length; reflexivity|].
  intros k Hk. eexists. split.
  { apply map_nth_error. apply slices_nth. assumption. }
  cbn [Numpy.shape Numpy.data]. split; [reflexivity|].
  split.
  { rewrite length_firstn, length_skipn, length_map, Hlen. lia. }
  intros j b Hj Hb.
  rewrite nth_error_firstn.
  destruct (Nat.ltb_spec j 784); [|lia].
  rewrite nth_error_skipn. rewrite (map_nth_error prepare_px _ _ Hb).
  rewrite prepare_px_threshold. reflexivity.
Qed.

Lemma images_thresholded n raw ds :
  images_of_stack n raw ds -> thresholded n raw ds.
Proof.
  intros [Hlen Him]. split; [assumption|].
  intros k j b Hk Hj Hb.
  destruct (Him k Hk) as [im [Hnth [_ [_ Hpx]]]].
  exists im. split; [assumption|].
  rewrite (Hpx j b Hj Hb), <- prepare_px_threshold.
  unfold prepare_px. fold (normalized b).
  split; intros H; [rewrite (binarize_px_ge _ H)
                   | rewrite (binarize_px_lt _ H)]; reflexivity.
Qed.

(** C10: the threshold is inclusive above.  On image stacks of [uint8]
    pixels, every pixel of the prepared train and test images is [1.0]
    when the normalized value of the raw pixel is greater than or equal
    to [0.5] and [0.0] when it is less than [0.5]; the two assignments
    send an entry that is exactly [0.5] to [1.0]. *)
Theorem threshold_inclusive
  n_train n_test train_images train_labels test_images test_labels :
  image_stack n_train train_images ->
  image_stack n_test test_images ->
  exists train_data test_data,
    prepare_data ((train_images, train_labels), (test_images, test_labels))
    = inr (train_data, test_data) /\
    thresholded n_train train_images train_data /\
    thresholded n_test test_images test_data /\
    forall (a : images) i,
      nth_error (Numpy.data a) i = Some Float32.half ->
      nth_error (Numpy.data (binarize a)) i = Some Float32.one.
Proof.
  intros Htrain Htest.
  destruct (prepared_images_of_stack _ _ Htrain)
    as [a1 [d1 [E1 [S1 [_ [_ F1]]]]]].
  destruct (prepared_images_of_stack _ _ Htest)
    as [a2 [d2 [E2 [S2 [_ [_ F2]]]]]].
  unfold prepare_data. rewrite E1. cbn [Py.bind]. rewrite E2. cbn [Py.bind].
  rewrite S1. cbn [Py.bind]. rewrite S2. cbn [Py.bind Py.ret].
  eexists. eexists. split; [reflexivity|].
  split; [apply images_thresholded; assumption|].
  split; [apply images_thresholded; assumption|].
  intros a i Hx.
  rewrite binarize_data, (map_nth_error binarize_px i _ Hx). reflexivity.
Qed.

Lemma threshold_inclusive_witness :
  image_stack 1 bright /\ image_stack 1 dark /\
  exists train_data test_data,
    prepare_data ((bright, no_labels), (dark, no_labels))
    = inr (train_data, test_data) /\
    thresholded 1 bright train_data /\
    thresholded 1 dark test_data /\
    forall (a : images) i,
      nth_error (Numpy.data a) i = Some Float32.half ->
      nth_error (Numpy.data (binarize a)) i = Some Float32.one.
Proof.
  assert (H1 : image_stack 1 bright) by (split; reflexivity).
  assert (H2 : image_stack 1 dark) by (split; reflexivity).
  split; [exact H1|]. split; [exact H2|].
  exact (threshold_inclusive 1 1 bright no_labels dark no_labels H1 H2).
Defined.

(** X13: the two datasets hold the images of the two stacks, one element
    per image and in the order of the stack; pixel [j] of image [k] is
    the raw pixel [784 k + j], thresholded at intensity 128. *)
Theorem prepare_data_images
  n_train n_test train_images train_labels test_images test_labels :
  image_stack n_train train_images ->
  image_stack n_test test_images ->
  exists train_data test_data,
    prepare_data ((train_images, train_labels), (test_images, test_labels))
    = inr (train_data, test_data) /\
    images_of_stack n_train train_images train_data /\
    images_of_stack n_test test_images test_data.
Proof.
  intros Htrain Htest.
  destruct (prepared_images_of_stack _ _ Htrain)
    as [a1 [d1 [E1 [S1 [_ [_ F1]]]]]].
  destruct (prepared_images_of_stack _ _ Htest)
    as [a2 [d2 [E2 [S2 [_ [_ F2]]]]]].
  unfold prepare_data. rewrite E1. cbn [Py.bind]. rewrite E2. cbn [Py.bind].
  rewrite S1. cbn [Py.bind]. rewrite S2. cbn [Py.bind Py.ret].
  eexists. eexists. split; [reflexivity|]. split; assumption.
Qed.

Lemma prepare_data_images_witness :
  image_stack 1 bright /\ image_stack 1 dark /\
  exists train_data test_data,
    prepare_data ((bright, no_labels), (dark, no_labels))
    = inr (train_data, test_data) /\
    images_of_stack 1 bright train_data /\
    images_of_stack 1 dark test_data.
Proof.
  assert (H1 : image_stack 1 bright) by (split; reflexivity).
  assert (H2 : image_stack 1 dark) by (split; reflexivity).
  split; [exact H1|]. split; [exact H2|].
  exact (prepare_data_images 1 1 bright no_labels dark no_labels H1 H2).
Defined.

Lemma groups_spec {A} size : 0 < size -> forall fuel (l : list A),
  List.length l <= fuel ->
  List.concat (TfData.groups fuel size l) = l /\
  Forall (fun b => 1 <= List.length b <= size)
         (TfData.groups fuel size l) /\
  List.length (TfData.groups fuel size l)
  = (List.length l + size - 1) / size.
Proof.
  intros Hsize. induction fuel as [|fuel IH]; intros l Hl.
  - destruct l; [|simpl in Hl; lia]. cbn.
    repeat split; [constructor|].
    symmetry. apply Nat.div_small. lia.
  - destruct l as [|x l'] eqn:El.
    { cbn. repeat split; [constructor|].
      symmetry. apply Nat.div_small. lia. }
    rewrite <- El in *. assert (Hpos : 1 <= List.length l) by (subst; simpl; lia).
    assert (Hg : TfData.groups (S fuel) size l
                 = firstn size l :: TfData.groups fuel size (skipn size l))
      by (subst l; reflexivity).
    rewrite Hg. clear Hg.
    destruct (IH (skipn size l)) as [Hc [Hf Hn]];
      [rewrite length_skipn; lia|].
    split; [|split].
    + cbn [List.concat]. rewrite Hc. apply firstn_skipn.
    + constructor; [|assumption]. rewrite length_firstn. lia.
    + cbn [List.length]. rewrite Hn, length_skipn.
      destruct (Nat.le_gt_cases (List.length l) size) as [Hle|Hgt].
      * replace (List.length l - size + size - 1) with (size - 1) by lia.
        rewrite (Nat.div_small (size - 1) size) by lia.
        apply (Nat.div_unique _ _ 1 (List.length l - 1)); lia.
      * replace (List.length l + size - 1)
          with (List.length l - size + size - 1 + 1 * size) by lia.
        rewrite Nat.div_add by lia. lia.
Qed.

(** X14: every pass over a dataset of [prepare_data] yields each of its
    images once, in batches of at least one and at most 128 images, as
    few batches as can be (the last one may hold fewer than 128). *)
Theorem prepare_data_batches
  n_train n_test train_images train_labels test_images test_labels order :
  image_stack n_train train_images ->
  image_stack n_test test_images ->
  (forall l : list images, Permutation (order l) l) ->
  exists train_data test_data,
    prepare_data ((train_images, train_labels), (test_images, test_labels))
    = inr (train_data, test_data) /\
    List.length (TfData.elements train_data) = n_train /\
    List.length (TfData.elements test_data) = n_test /\
    well_batched 128 (TfData.elements train_data)
      (TfData.iterate order train_data) /\
    well_batched 128 (TfData.elements test_data)
      (TfData.iterate order test_data).
Proof.
  intros Htrain Htest Hperm.
  destruct (prepared_images_of_stack _ _ Htrain)
    as [a1 [d1 [E1 [S1 [_ [_ [L1 _]]]]]]].
  destruct (prepared_images_of_stack _ _ Htest)
    as [a2 [d2 [E2 [S2 [_ [_ [L2 _]]]]]]].
  unfold prepare_data. rewrite E1. cbn [Py.bind]. rewrite E2. cbn [Py.bind].
  rewrite S1. cbn [Py.bind]. rewrite S2. cbn [Py.bind Py.ret].
  eexists. eexists. split; [reflexivity|].
  cbn [TfData.batch TfData.shuffle TfData.elements].
  split; [assumption|]. split; [assumption|].
  assert (Hwb : forall l : list images,
             well_batched 128 l
               (TfData.groups (List.length (order l)) 128 (order l))).
  { intros l.
    destruct (groups_spec (A := images) 128 ltac:(lia)
                (List.length (order l)) (order l) (le_n _))
      as [Hc [Hf Hn]].
    split; [rewrite Hc; apply Hperm|]. split; [assumption|].
    rewrite Hn, (Permutation_length (Hperm l)). reflexivity. }
  split; apply Hwb.
Qed.

Lemma prepare_data_batches_witness :
  image_stack 1 bright /\ image_stack 1 dark /\
  (forall l : list images, Permutation (rev l) l) /\
  exists train_data test_data,
    prepare_data ((bright, no_labels), (dark, no_labels))
    = inr (train_data, test_data) /\
    List.length (TfData.elements train_data) = 1 /\
    List.length (TfData.elements test_data) = 1 /\
    well_batched 128 (TfData.elements train_data)
      (TfData.iterate (@rev images) train_data) /\
    well_batched 128 (TfData.elements test_data)
      (TfData.iterate (@rev images) test_data).
Proof.
  assert (H1 : image_stack 1 bright) by (split; reflexivity).
  assert (H2 : image_stack 1 dark) by (split; reflexivity).
  assert (H3 : forall l : list images, Permutation (rev l) l)
    by (intros l; apply Permutation_sym, Permutation_rev).
  split; [exact H1|]. split; [exact H2|]. split; [exact H3|].
  exact (prepare_data_batches 1 1 bright no_labels dark no_labels
           (@rev images) H1 H2 H3).
Defined.

End PrepareDataFacts.

(** ** The loss *)

Module TfFacts.

Import Tf.

(** *** Indices *)

Lemma size_of_cons d shp :
  Numpy.size_of (d :: shp) = d * Numpy.size_of shp.
Proof. reflexivity. Qed.

Lemma ravel_lt shp idx :
  in_bounds shp idx -> ravel shp idx < Numpy.size_of shp.
Proof.
  unfold in_bounds. induction 1 as [|i d idx shp Hi _ IH].
  - cbn. lia.
  - cbn [ravel]. rewrite size_of_cons. nia.
Qed.

Lemma unravel_ravel shp idx :
  in_bounds shp idx -> unravel shp (ravel shp idx) = idx.
Proof.
  unfold in_bounds. induction 1 as [|i d idx shp Hi Hrest IH].
  - reflexivity.
  - cbn [ravel unravel].
    pose proof (ravel_lt shp idx Hrest) as Hlt.
    assert (Hpos : Numpy.size_of shp <> 0) by lia.
    rewrite Nat.div_add_l by assumption.
    rewrite (Nat.div_small _ _ Hlt), Nat.add_0_r.
    rewrite Nat.add_comm, Nat.Div0.mod_add, (Nat.mod_small _ _ Hlt).
    rewrite IH. reflexivity.
Qed.

Lemma unravel_in_bounds shp : forall k,
  k < Numpy.size_of shp -> in_bounds shp (unravel shp k).
Proof.
  unfold in_bounds. induction shp as [|d shp IH]; intros k Hk.
  - constructor.
  - rewrite size_of_cons in Hk. cbn [unravel].
    assert (Hpos : Numpy.size_of shp <> 0) by nia.
    constructor.
    + apply Nat.Div0.div_lt_upper_bound. lia.
    + apply IH. apply Nat.mod_upper_bound. assumption.
Qed.

Lemma ravel_unravel shp : forall k,
  k < Numpy.size_of shp -> ravel shp (unravel shp k) = k.
Proof.
  induction shp as [|d shp IH]; intros k Hk.
  - cbn in *. lia.
  - rewrite size_of_cons in Hk. cbn [unravel ravel].
    assert (Hpos : Numpy.size_of shp <> 0) by nia.
    rewrite IH by (apply Nat.mod_upper_bound; assumption).
    pose proof (Nat.div_mod_eq k (Numpy.size_of shp)). lia.
Qed.

Lemma nth_map_seq {A} (g : nat -> A) n k d :
  k < n -> nth k (map g (seq 0 n)) d = g k.
Proof.
  intros Hk. rewrite (nth_indep _ d (g 0)) by (rewrite length_map, length_seq; lia).
  rewrite (map_nth g (seq 0 n) 0 k), seq_nth by assumption. reflexivity.
Qed.

Lemma entry_tabulate shp f idx :
  in_bounds shp idx -> entry (tabulate shp f) idx = f idx.
Proof.
  intros H. unfold entry, tabulate. cbn [Numpy.shape Numpy.data].
  rewrite nth_map_seq by (apply ravel_lt; assumption).
  rewrite unravel_ravel by assumption. reflexivity.
Qed.

Lemma well_formed_tabulate shp f : well_formed (tabulate shp f).
Proof.
  unfold well_formed, tabulate. cbn [Numpy.shape Numpy.data].
  rewrite length_map, length_seq. reflexivity.
Qed.

Lemma tabulate_ext shp f g :
  (forall idx, in_bounds shp idx -> f idx = g idx) ->
  tabulate shp f = tabulate shp g.
Proof.
  intros H. unfold tabulate. f_equal. apply map_ext_in.
  intros k Hk. apply in_seq in Hk. apply H, unravel_in_bounds. lia.
Qed.

(** A well-formed tensor is the table of its entries. *)
Lemma tabulate_entry t :
  well_formed t -> tabulate (Numpy.shape t) (entry t) = t.
Proof.
  destruct t as [shp l]. unfold well_formed, tabulate, entry.
  cbn [Numpy.shape Numpy.data]. intros Hl. f_equal.
  apply nth_ext with (d := S754_nan) (d' := S754_nan).
  - rewrite length_map, length_seq. symmetry. assumption.
  - intros k Hk. rewrite length_map, length_seq in Hk.
    rewrite nth_map_seq by assumption.
    rewrite ravel_unravel by assumption. reflexivity.
Qed.

Lemma unary_tabulate f shp g :
  unary f (tabulate shp g) = tabulate shp (fun idx => f (g idx)).
Proof. unfold unary, tabulate. cbn. rewrite map_map. reflexivity. Qed.

Lemma entry_unary f t idx :
  well_formed t -> in_bounds (Numpy.shape t) idx ->
  entry (unary f t) idx = f (entry t idx).
Proof.
  intros Hwf Hidx. rewrite <- (tabulate_entry t Hwf) at 1.
  rewrite unary_tabulate, entry_tabulate by assumption. reflexivity.
Qed.

Lemma well_formed_unary f t : well_formed t -> well_formed (unary f t).
Proof.
  unfold well_formed, unary. cbn. rewrite length_map. auto.
Qed.

(** *** Broadcasting *)

Lemma Forall2_rev {A B} (R : A -> B -> Prop) l1 l2 :
  Forall2 R l1 l2 -> Forall2 R (rev l1) (rev l2).
Proof.
  induction 1 as [|a b l1 l2 Hab _ IH]; cbn; [constructor|].
  apply Forall2_app; [assumption | repeat constructor; assumption].
Qed.

Lemma broadcast_rev_fits a : forall b s,
  broadcast_rev a b = inr s -> fits_rev a s /\ fits_rev b s.
Proof.
  induction a as [|x a IH]; intros [|y b] s H; cbn in H.
  - inversion H; subst. split; exact I.
  - inversion H; subst. split; [exact I|].
    clear. induction (y :: b) as [|z l IHl]; cbn; auto.
  - inversion H; subst. split; [|exact I].
    clear. induction (x :: a) as [|z l IHl]; cbn; auto.
  - destruct (broadcast_rev a b) as [e|r] eqn:E; [discriminate|].
    cbn [Py.bind] in H. destruct (IH b r E) as [Ha Hb].
    destruct (Nat.eqb_spec x y) as [->|Hxy].
    + inversion H; subst. cbn. auto.
    + destruct (Nat.eqb_spec x 1) as [->|Hx1].
      * inversion H; subst. cbn. auto.
      * destruct (Nat.eqb_spec y 1) as [->|Hy1]; [|discriminate].
        inversion H; subst. cbn. auto.
Qed.

Lemma broadcast_shapes_fits a b s :
  broadcast_shapes a b = inr s -> fits a s /\ fits b s.
Proof.
  unfold broadcast_shapes, fits. intros H.
  destruct (broadcast_rev (rev a) (rev b)) as [e|r] eqn:E; [discriminate|].
  cbn in H. inversion H; subst. rewrite rev_involutive.
  apply broadcast_rev_fits. assumption.
Qed.

Lemma fits_rev_refl s : fits_rev s s.
Proof. induction s; cbn; auto. Qed.

Lemma fits_refl s : fits s s.
Proof. apply fits_rev_refl. Qed.

Lemma fits_nil s : fits [] s.
Proof. exact I. Qed.

(** An operand that fits a shape leaves it as it is. *)
Lemma broadcast_rev_left s : forall b,
  fits_rev b s -> broadcast_rev s b = inr s.
Proof.
  induction s as [|x s IH]; intros [|y b] H; cbn in *; try reflexivity;
    [tauto|].
  destruct H as [Hy H]. rewrite (IH b H). cbn [Py.bind].
  destruct (Nat.eqb_spec x y); [reflexivity|].
  destruct (Nat.eqb_spec x 1); [lia|].
  destruct (Nat.eqb_spec y 1); [reflexivity | lia].
Qed.

Lemma broadcast_rev_right s : forall b,
  fits_rev b s -> broadcast_rev b s = inr s.
Proof.
  induction s as [|x s IH]; intros [|y b] H; cbn in *; try reflexivity;
    [tauto|].
  destruct H as [Hy H]. rewrite (IH b H). cbn [Py.bind].
  destruct (Nat.eqb_spec y x); [subst; reflexivity|].
  destruct (Nat.eqb_spec y 1); [reflexivity | lia].
Qed.

Lemma broadcast_shapes_left s b :
  fits b s -> broadcast_shapes s b = inr s.
Proof.
  unfold fits, broadcast_shapes. intros H.
  rewrite (broadcast_rev_left _ _ H). cbn. rewrite rev_involutive.
  reflexivity.
Qed.

Lemma broadcast_shapes_right s b :
  fits b s -> broadcast_shapes b s = inr s.
Proof.
  unfold fits, broadcast_shapes. intros H.
  rewrite (broadcast_rev_right _ _ H). cbn. rewrite rev_involutive.
  reflexivity.
Qed.

Lemma index_rev_in_bounds a : forall s idx,
  fits_rev a s -> Forall2 lt idx s -> Forall2 lt (index_rev a idx) a.
Proof.
  induction a as [|x a IH]; intros s idx Hfit Hidx; cbn.
  - destruct idx; constructor.
  - destruct Hidx as [|i y idx s Hi Hrest]; [destruct Hfit|].
    cbn in Hfit. destruct Hfit as [Hx Hfit]. constructor.
    + destruct (Nat.eqb_spec x 1); lia.
    + eapply IH; eassumption.
Qed.

Lemma broadcast_index_in_bounds a s idx :
  fits a s -> in_bounds s idx -> in_bounds a (broadcast_index a idx).
Proof.
  unfold fits, in_bounds, broadcast_index. intros Hfit Hidx.
  rewrite <- (rev_involutive a) at 2. apply Forall2_rev.
  eapply index_rev_in_bounds; [eassumption|].
  apply Forall2_rev. assumption.
Qed.

Lemma index_rev_compose a : forall s idx,
  fits_rev a s -> index_rev a (index_rev s idx) = index_rev a idx.
Proof.
  induction a as [|x a IH]; intros [|y s] [|i idx] Hfit; cbn in *;
    try reflexivity; try tauto.
  destruct Hfit as [Hx Hfit]. rewrite (IH s idx Hfit). f_equal.
  destruct (Nat.eqb_spec x 1); [reflexivity|].
  destruct (Nat.eqb_spec y 1); [lia | reflexivity].
Qed.

Lemma broadcast_index_compose a s idx :
  fits a s ->
  broadcast_index a (broadcast_index s idx) = broadcast_index a idx.
Proof.
  unfold fits, broadcast_index. intros H. rewrite rev_involutive.
  rewrite (index_rev_compose _ _ _ H). reflexivity.
Qed.

Lemma index_rev_same s : forall idx,
  Forall2 lt idx s -> index_rev s idx = idx.
Proof.
  induction s as [|d s IH]; intros idx H; inversion H; subst; cbn;
    [reflexivity|].
  rewrite IH by assumption. destruct (Nat.eqb_spec d 1); [f_equal; lia|].
  reflexivity.
Qed.

Lemma broadcast_index_same s idx :
  in_bounds s idx -> broadcast_index s idx = idx.
Proof.
  unfold in_bounds, broadcast_index. intros H.
  rewrite index_rev_same by (apply Forall2_rev; assumption).
  apply rev_involutive.
Qed.

Lemma broadcast_index_nil idx : broadcast_index [] idx = [].
Proof. reflexivity. Qed.

Lemma entry_scalar c : entry (scalar c) [] = c.
Proof. reflexivity. Qed.

(** *** Elementwise operators *)

Lemma binary_run f a b sa sb s :
  Numpy.shape a = sa -> Numpy.shape b = sb ->
  broadcast_shapes sa sb = inr s ->
  binary f a b
  = inr (tabulate s (fun idx =>
           f (entry a (broadcast_index sa idx))
             (entry b (broadcast_index sb idx)))).
Proof. intros <- <- H. unfold binary. rewrite H. reflexivity. Qed.


(** *** Reductions *)

Lemma normalize_axis_lt r raxis a :
  normalize_axis r raxis = inr a -> a < r.
Proof.
  unfold normalize_axis.
  destruct ((0 <=? raxis) && (raxis <? Z.of_nat r))%Z eqn:E1.
  - intros H. inversion H; subst.
    apply andb_prop in E1. destruct E1 as [H0 H1].
    apply Z.leb_le in H0. apply Z.ltb_lt in H1. lia.
  - destruct ((- Z.of_nat r <=? raxis) && (raxis <? 0))%Z eqn:E2;
      [|discriminate].
    intros H. inversion H; subst.
    apply andb_prop in E2. destruct E2 as [H0 H1].
    apply Z.leb_le in H0. apply Z.ltb_lt in H1. lia.
Qed.

Lemma normalize_axes_single r raxis a :
  normalize_axis r raxis = inr a -> normalize_axes r [raxis] = inr [a].
Proof. intros H. cbn. rewrite H. reflexivity. Qed.

(** Beyond the reduced axis every dimension is kept. *)
Lemma pick_above a shp : forall st,
  a < st ->
  pick false (map (fun d => d =? a)
                  (seq st (List.length shp))) shp = shp /\
  pick true (map (fun d => d =? a)
                 (seq st (List.length shp))) shp = [].
Proof.
  induction shp as [|x shp IH]; intros st Hst; [auto|].
  cbn [List.length seq map pick].
  destruct (Nat.eqb_spec st a); [lia|]. cbn [Bool.eqb].
  destruct (IH (S st)) as [H1 H2]; [lia|]. rewrite H1, H2. auto.
Qed.

Lemma merge_above a kept : forall st red,
  a < st ->
  merge (map (fun d => d =? a)
             (seq st (List.length kept))) kept red = kept.
Proof.
  induction kept as [|x kept IH]; intros st red Hst; [reflexivity|].
  cbn [List.length seq map merge].
  destruct (Nat.eqb_spec st a); [lia|].
  rewrite IH by lia. reflexivity.
Qed.

Lemma pick_single a shp : forall st,
  st <= a -> a - st < List.length shp ->
  pick false (map (fun d => d =? a)
                  (seq st (List.length shp))) shp
  = remove_axis (a - st) shp /\
  pick true (map (fun d => d =? a)
                 (seq st (List.length shp))) shp
  = [nth (a - st) shp 0].
Proof.
  induction shp as [|x shp IH]; intros st Hst Hlt; cbn in Hlt; [lia|].
  cbn [List.length seq map pick].
  destruct (Nat.eqb_spec st a) as [->|Hne]; cbn [Bool.eqb].
  - rewrite Nat.sub_diag.
    destruct (pick_above a shp (S a)) as [H1 H2]; [lia|].
    rewrite H1, H2. auto.
  - destruct (IH (S st)) as [H1 H2]; [lia | lia |].
    rewrite H1, H2.
    replace (a - st) with (S (a - S st)) by lia. auto.
Qed.

Lemma merge_single a j (shp : list nat) : forall st idx,
  st <= a -> a - st < List.length shp ->
  List.length idx = List.length shp - 1 ->
  merge (map (fun d => d =? a)
             (seq st (List.length shp))) idx [j]
  = insert_axis (a - st) j idx.
Proof.
  induction shp as [|x shp IH]; intros st idx Hst Hlt Hlen;
    cbn in Hlt; [lia|].
  cbn [List.length seq map merge].
  destruct (Nat.eqb_spec st a) as [->|Hne].
  - rewrite Nat.sub_diag. cbn in Hlen. rewrite Nat.sub_0_r in Hlen.
    rewrite <- Hlen, merge_above by lia. reflexivity.
  - destruct idx as [|i idx]; [cbn in Hlen; lia|].
    cbn in Hlen. rewrite IH by lia.
    replace (a - st) with (S (a - S st)) by lia. reflexivity.
Qed.

Lemma reduced_single r a :
  reduced r [a] = map (fun d => d =? a) (seq 0 r).
Proof.
  unfold reduced. apply map_ext. intros d. cbn. apply orb_false_r.
Qed.

Lemma remove_axis_length a shp :
  a < List.length shp ->
  List.length (remove_axis a shp) = List.length shp - 1.
Proof.
  intros H. unfold remove_axis.
  rewrite length_app, length_firstn, length_skipn. lia.
Qed.

Lemma skipn_cons_nth {A} (l : list A) : forall a d,
  a < List.length l -> skipn a l = nth a l d :: skipn (S a) l.
Proof.
  induction l as [|x l IH]; intros [|a] d H; cbn in *; try lia;
    [reflexivity|].
  apply IH. lia.
Qed.

Lemma insert_axis_in_bounds a j shp idx :
  a < List.length shp -> j < nth a shp 0 ->
  in_bounds (remove_axis a shp) idx ->
  in_bounds shp (insert_axis a j idx).
Proof.
  unfold in_bounds, remove_axis, insert_axis. intros Ha Hj H.
  apply Forall2_app_inv_r in H. destruct H as [i1 [i2 [H1 [H2 ->]]]].
  assert (Hl : List.length i1 = a).
  { apply Forall2_length in H1. rewrite H1, length_firstn. lia. }
  rewrite firstn_app, skipn_app, Hl, Nat.sub_diag.
  rewrite firstn_all2 by lia. rewrite skipn_all2 by lia. cbn.
  rewrite app_nil_r.
  rewrite <- (firstn_skipn a shp) at 1.
  apply Forall2_app; [assumption|].
  rewrite (skipn_cons_nth shp a 0) by assumption.
  constructor; assumption.
Qed.


Section Kernels.

Variable K : kernels.

Lemma reduce_axis k t s raxis a :
  Numpy.shape t = s ->
  normalize_axis (List.length s) raxis = inr a ->
  reduce k (Tensor t) [raxis]
  = inr (tabulate (remove_axis a s) (fun idx =>
           k (map (fun j => entry t (insert_axis a j idx))
                  (seq 0 (nth a s 0))))).
Proof.
  intros <- Ha. pose proof (normalize_axis_lt _ _ _ Ha) as Hlt.
  unfold reduce. cbn [convert_to_tensor].
  rewrite (normalize_axes_single _ _ _ Ha). cbn [Py.bind Py.ret].
  rewrite reduced_single.
  destruct (pick_single a (Numpy.shape t) 0) as [H1 H2]; try lia.
  rewrite Nat.sub_0_r in H1, H2. rewrite H1, H2.
  unfold Py.ret. f_equal. apply tabulate_ext. intros idx Hidx. f_equal.
  replace (Numpy.size_of [nth a (Numpy.shape t) 0])
    with (nth a (Numpy.shape t) 0) by (cbn; lia).
  apply map_ext. intros j. cbn [unravel Numpy.size_of fold_right].
  rewrite Nat.div_1_r.
  rewrite (merge_single a j (Numpy.shape t) 0 idx); try lia.
  - rewrite Nat.sub_0_r. reflexivity.
  - apply Forall2_length in Hidx. rewrite Hidx.
    apply remove_axis_length. assumption.
Qed.

(** *** [log_normal_pdf] *)

Lemma unary_entries f t :
  well_formed t ->
  unary f t = tabulate (Numpy.shape t) (fun idx => f (entry t idx)).
Proof.
  intros Hwf. rewrite <- (tabulate_entry t Hwf) at 1.
  apply unary_tabulate.
Qed.

Lemma shape_neg v :
  Numpy.shape (convert_to_tensor (py_neg K v))
  = Numpy.shape (convert_to_tensor v).
Proof. destruct v; reflexivity. Qed.

Lemma well_formed_neg v :
  well_formed_value v -> well_formed_value (py_neg K v).
Proof.
  destruct v as [x|t]; intros H; [reflexivity|].
  apply well_formed_unary. exact H.
Qed.

Lemma exp_neg logvar :
  well_formed_value logvar ->
  exp K (py_neg K logvar)
  = tabulate (Numpy.shape (convert_to_tensor logvar)) (fun idx =>
      exp_kernel K (entry (convert_to_tensor (py_neg K logvar)) idx)).
Proof.
  intros Hwf. unfold exp.
  rewrite (unary_entries _ _ (well_formed_neg logvar Hwf)), shape_neg.
  reflexivity.
Qed.

Lemma arith_tensor py tf a t :
  arith py tf a (Tensor t)
  = Py.bind (binary tf (convert_to_tensor a) t)
      (fun r => Py.ret (Tensor r)).
Proof. destruct a; reflexivity. Qed.

(** The run of [(sample - mean)**2]. *)
Lemma squared_run sample mean s1 :
  broadcast_shapes (Numpy.shape (convert_to_tensor sample))
    (Numpy.shape (convert_to_tensor mean)) = inr s1 ->
  square_defined K sample mean ->
  exists sq,
    (forall (B : Type) (k : value -> Py.result B),
        Py.bind (py_sub K sample mean)
          (fun d => Py.bind (py_square K d) k) = k sq) /\
    Numpy.shape (convert_to_tensor sq) = s1 /\
    forall s i, fits s1 s -> in_bounds s i ->
      entry (convert_to_tensor sq) (broadcast_index s1 i)
      = squared_difference K sample mean i.
Proof.
  intros H1 Hdef.
  destruct (broadcast_shapes_fits _ _ _ H1) as [Fs Fm].
  assert (Htensor :
            forall cs cm,
              broadcast_shapes (Numpy.shape cs) (Numpy.shape cm) = inr s1 ->
              fits (Numpy.shape cs) s1 -> fits (Numpy.shape cm) s1 ->
              exists sq,
                (forall (B : Type) (k : value -> Py.result B),
                    Py.bind (Py.bind (binary (sub_kernel K) cs cm)
                               (fun t => Py.ret (Tensor t)))
                      (fun d => Py.bind (py_square K d) k) = k sq) /\
                Numpy.shape (convert_to_tensor sq) = s1 /\
                forall s i, fits s1 s -> in_bounds s i ->
                  entry (convert_to_tensor sq) (broadcast_index s1 i)
                  = pow_kernel K
                      (sub_kernel K
                         (entry cs (broadcast_index (Numpy.shape cs) i))
                         (entry cm (broadcast_index (Numpy.shape cm) i)))
                      Float32.two).
  { intros cs cm Hb Fcs Fcm. eexists. split; [|split].
    - intros B k.
      rewrite (binary_run _ _ _ _ _ s1) by (reflexivity || exact Hb).
      cbn [Py.bind Py.ret py_square]. rewrite unary_tabulate.
      reflexivity.
    - reflexivity.
    - intros s i Fs1 Hi. cbn [convert_to_tensor].
      rewrite entry_tabulate
        by (eapply broadcast_index_in_bounds; eassumption).
      rewrite !broadcast_index_compose by assumption. reflexivity. }
  destruct sample as [x|ts], mean as [y|tm];
    try (apply Htensor; assumption).
  cbn in H1. inversion H1; subst s1.
  cbn [square_defined] in Hdef.
  eexists. split; [|split].
  - intros B k. cbn [py_sub arith Py.bind Py.ret py_square].
    rewrite Hdef. reflexivity.
  - reflexivity.
  - intros s i _ _. reflexivity.
Qed.

(** The run of [log_normal_pdf]. *)
Lemma log_normal_pdf_run sample mean logvar raxis s1 s a :
  well_formed_value logvar ->
  square_defined K sample mean ->
  broadcast_shapes (Numpy.shape (convert_to_tensor sample))
    (Numpy.shape (convert_to_tensor mean)) = inr s1 ->
  broadcast_shapes s1 (Numpy.shape (convert_to_tensor logvar)) = inr s ->
  normalize_axis (List.length s) raxis = inr a ->
  log_normal_pdf K sample mean logvar raxis
  = inr (tabulate (remove_axis a s) (fun idx =>
           sum_kernel K
             (map (fun j =>
                     let i := insert_axis a j idx in
                     log_density_of K (squared_difference K sample mean i)
                       (operand logvar i)
                       (operand (py_neg K logvar) i))
                  (seq 0 (nth a s 0))))).
Proof.
  intros Hwf Hdef H1 H2 Ha.
  pose proof (normalize_axis_lt _ _ _ Ha) as Hlt.
  destruct (broadcast_shapes_fits _ _ _ H2) as [F1 Fl].
  destruct (squared_run sample mean s1 H1 Hdef) as [sq [Hrun [Ssq Hsq]]].
  unfold log_normal_pdf. rewrite Hrun.
  unfold py_mul, py_add. rewrite arith_tensor.
  pose proof (broadcast_shapes_left s _ Fl) as H3.
  pose proof (broadcast_shapes_left s [] (fits_nil s)) as H4.
  pose proof (broadcast_shapes_right s [] (fits_nil s)) as H5.
  rewrite (exp_neg logvar Hwf).
  rewrite (binary_run _ _ _ s1 _ s) by (reflexivity || assumption).
  cbn [Py.bind Py.ret]. unfold arith at 1.
  cbn [convert_to_tensor].
  rewrite (binary_run _ _ _ s _ s) by (reflexivity || exact H3).
  cbn [Py.bind Py.ret]. rewrite arith_tensor. cbn [convert_to_tensor].
  rewrite (binary_run _ _ _ s [] s) by (reflexivity || exact H4).
  cbn [Py.bind Py.ret]. rewrite arith_tensor. cbn [convert_to_tensor].
  rewrite (binary_run _ _ _ [] s s) by (reflexivity || exact H5).
  cbn [Py.bind Py.ret convert_to_tensor].
  unfold reduce_sum.
  rewrite (reduce_axis _ _ s raxis a) by (reflexivity || exact Ha).
  f_equal. apply tabulate_ext. intros idx Hidx. f_equal.
  apply map_ext_in. intros j Hj. apply in_seq in Hj. cbv zeta.
  assert (Hi : in_bounds s (insert_axis a j idx))
    by (apply insert_axis_in_bounds; [assumption | lia | assumption]).
  set (i := insert_axis a j idx) in *.
  repeat (rewrite ?broadcast_index_nil, ?entry_scalar,
            ?(broadcast_index_same s i Hi);
          rewrite entry_tabulate by assumption).
  rewrite (Hsq s i F1 Hi).
  rewrite entry_tabulate by (eapply broadcast_index_in_bounds; eassumption).
  unfold log_density_of, operand, log2pi, two_pi.
  rewrite shape_neg. reflexivity.
Qed.


(** C3, amended: on a sample, a mean and a log-variance (Python floats
    or tensors) whose shapes broadcast to a shape that has the axis
    [raxis], [log_normal_pdf] returns the tensor without that axis whose
    entries are the sums, by the kernel of [tf.reduce_sum] along
    [raxis], of
    [-0.5 * ((sample - mean)**2 * exp(-logvar) + logvar + log(2 pi))]
    computed by the [float32] kernels.  On the scalars 0., 0., 0. it
    raises: a rank-0 tensor has no axis 1.  On one sample [[0.]] on a
    single dimension with mean 0. and log-variance 0. it returns the one
    sum of [-0.5 * ((0 - 0)**2 * exp(-0) + 0 + log(2 pi))], which is
    [-0.5 * log(2 pi)] with kernels exact at these entries. *)
Theorem log_normal_pdf_closed_form sample mean logvar raxis s1 s a :
  well_formed_value logvar ->
  square_defined K sample mean ->
  broadcast_shapes (Numpy.shape (convert_to_tensor sample))
    (Numpy.shape (convert_to_tensor mean)) = inr s1 ->
  broadcast_shapes s1 (Numpy.shape (convert_to_tensor logvar)) = inr s ->
  normalize_axis (List.length s) raxis = inr a ->
  (exists out,
      log_normal_pdf K sample mean logvar raxis = inr out /\
      Numpy.shape out = remove_axis a s /\ well_formed out /\
      forall idx, in_bounds (remove_axis a s) idx ->
        entry out idx
        = sum_kernel K
            (map (fun j =>
                    let i := insert_axis a j idx in
                    log_density_of K (squared_difference K sample mean i)
                      (operand logvar i)
                      (operand (py_neg K logvar) i))
                 (seq 0 (nth a s 0)))) /\
  (exists e,
      log_normal_pdf K (PyFloat Float64.zero) (PyFloat Float64.zero)
        (PyFloat Float64.zero) 1
      = inl e) /\
  log_normal_pdf K (Tensor one_zero) (PyFloat Float64.zero)
    (PyFloat Float64.zero) 1
  = inr (Numpy.mk_ndarray [1]
           [sum_kernel K
              [log_density_term K Float32.zero Float32.zero
                 Float32.zero (S754_zero true)]]) /\
  (exact_at_zero K ->
   log_normal_pdf K (Tensor one_zero) (PyFloat Float64.zero)
     (PyFloat Float64.zero) 1
   = inr (Numpy.mk_ndarray [1]
            [mul_kernel K Float32.minus_half (log2pi K)])).
Proof.
  intros Hwf Hdef H1 H2 Ha.
  assert (Hone : log_normal_pdf K (Tensor one_zero) (PyFloat Float64.zero)
                   (PyFloat Float64.zero) 1
                 = inr (Numpy.mk_ndarray [1]
                          [sum_kernel K
                             [log_density_term K Float32.zero Float32.zero
                                Float32.zero (S754_zero true)]])).
  { rewrite (log_normal_pdf_run (Tensor one_zero) (PyFloat Float64.zero)
               (PyFloat Float64.zero) 1 [1; 1] [1; 1] 1);
      reflexivity. }
  split; [|split; [|split; [exact Hone|]]].
  - rewrite (log_normal_pdf_run sample mean logvar raxis s1 s a
               Hwf Hdef H1 H2 Ha).
    eexists. split; [reflexivity|]. split; [reflexivity|].
    split; [apply well_formed_tabulate|].
    intros idx Hidx. rewrite entry_tabulate by assumption. reflexivity.
  - unfold log_normal_pdf. cbn [py_sub arith Py.bind Py.ret py_square].
    destruct (Float64.is_finite _ && Float64.is_infinite _).
    + eexists. reflexivity.
    + eexists. reflexivity.
  - intros [Hpow [Hexp [Hmul [Hadd [Hlog Hsum]]]]].
    rewrite Hone. do 3 f_equal. unfold log_density_term, log_density_of.
    rewrite Hpow, Hexp, Hmul, Hadd, Hlog. exact Hsum.
Qed.

(** *** [reparameterize] *)

Lemma broadcast_shapes_same s : broadcast_shapes s s = inr s.
Proof. apply broadcast_shapes_left, fits_refl. Qed.

Lemma entry_random_normal draw shp idx :
  in_bounds shp idx ->
  entry (random_normal draw shp) idx = noise draw shp idx.
Proof.
  intros H. unfold entry, random_normal, noise.
  cbn [Numpy.shape Numpy.data].
  apply nth_map_seq. apply ravel_lt. assumption.
Qed.

Lemma reparameterize_run draw mean logvar :
  Numpy.shape logvar = Numpy.shape mean ->
  exists z,
    reparameterize K draw mean logvar = inr (Tensor z) /\
    Numpy.shape z = Numpy.shape mean /\ well_formed z /\
    forall idx, in_bounds (Numpy.shape mean) idx ->
      entry z idx
      = add_kernel K
          (mul_kernel K (noise draw (Numpy.shape mean) idx)
             (exp_kernel K (mul_kernel K (entry logvar idx) Float32.half)))
          (entry mean idx).
Proof.
  intros Hshape. set (s := Numpy.shape mean) in *.
  pose proof (broadcast_shapes_left s [] (fits_nil s)) as H1.
  pose proof (broadcast_shapes_same s) as H2.
  unfold reparameterize, py_mul, py_add, arith. cbn [convert_to_tensor].
  rewrite (binary_run _ _ _ s [] s) by (assumption || reflexivity).
  cbn [Py.bind Py.ret]. unfold exp. cbn [convert_to_tensor].
  rewrite unary_tabulate.
  rewrite (binary_run _ _ _ s s s) by (assumption || reflexivity).
  cbn [Py.bind Py.ret convert_to_tensor].
  rewrite (binary_run _ _ _ s s s) by (assumption || reflexivity).
  eexists. split; [reflexivity|]. split; [reflexivity|].
  split; [apply well_formed_tabulate|].
  intros idx Hidx. fold s.
  repeat (rewrite ?broadcast_index_nil, ?entry_scalar,
            ?(broadcast_index_same s idx Hidx);
          rewrite entry_tabulate by assumption).
  rewrite ?(broadcast_index_same s idx Hidx).
  rewrite entry_random_normal by assumption. reflexivity.
Qed.

(** C2: for a mean and a log-variance of the same shape and fixed
    noise, [reparameterize] returns a tensor of the shape of [mean]
    whose entries are [noise * exp(logvar * 0.5) + mean], each
    operation by its [float32] kernel, and so also
    [noise * exp(0.5 * logvar) + mean] as the kernel of the product
    does not depend on the order of its operands; the result is a
    function of the mean, the log-variance and the noise. *)
Theorem reparameterize_deterministic draw mean logvar :
  Numpy.shape logvar = Numpy.shape mean ->
  exists z,
    reparameterize K draw mean logvar = inr (Tensor z) /\
    Numpy.shape z = Numpy.shape mean /\ well_formed z /\
    (forall idx, in_bounds (Numpy.shape mean) idx ->
       entry z idx
       = add_kernel K
           (mul_kernel K (noise draw (Numpy.shape mean) idx)
              (exp_kernel K
                 (mul_kernel K (entry logvar idx) Float32.half)))
           (entry mean idx)) /\
    ((forall a b, mul_kernel K a b = mul_kernel K b a) ->
     forall idx, in_bounds (Numpy.shape mean) idx ->
       entry z idx
       = add_kernel K
           (mul_kernel K (noise draw (Numpy.shape mean) idx)
              (exp_kernel K
                 (mul_kernel K Float32.half (entry logvar idx))))
           (entry mean idx)).
Proof.
  intros Hshape.
  destruct (reparameterize_run draw mean logvar Hshape)
    as [z [Ez [Sz [Wz Hz]]]].
  exists z. repeat (split; [assumption|]).
  intros Hcomm idx Hidx. rewrite (Hcomm Float32.half). apply Hz, Hidx.
Qed.

(** *** [encode] *)

Lemma split2_run y n L rest :
  Numpy.shape y = n :: 2 * L :: rest ->
  split2 y = inr (columns y 0 L, columns y L L).
Proof.
  intros H. unfold split2. rewrite H.
  replace (2 * L) with (L * 2) by lia.
  rewrite Nat.Div0.mod_mul, Nat.div_mul by lia. reflexivity.
Qed.

Lemma split2_odd y n L rest :
  Numpy.shape y = n :: 2 * L + 1 :: rest ->
  split2 y = inl Py.InvalidArgument.
Proof.
  intros H. unfold split2. rewrite H.
  replace ((2 * L + 1) mod 2) with 1; [reflexivity|].
  rewrite Nat.add_comm, Nat.mul_comm, Nat.Div0.mod_add. reflexivity.
Qed.

Lemma columns_run y n d rest start len :
  Numpy.shape y = n :: d :: rest ->
  columns y start len
  = tabulate (n :: len :: rest) (fun idx =>
      match idx with
      | i :: j :: more => entry y (i :: start + j :: more)
      | _ => S754_nan
      end).
Proof. intros H. unfold columns. rewrite H. reflexivity. Qed.

Lemma encode_run model x y n L rest :
  inference_net model x = inr y ->
  Numpy.shape y = n :: 2 * L :: rest ->
  exists mean logvar,
    encode model x = inr (mean, logvar) /\
    Numpy.shape mean = n :: L :: rest /\
    Numpy.shape logvar = n :: L :: rest /\
    well_formed mean /\ well_formed logvar /\
    (forall i j more, in_bounds (n :: L :: rest) (i :: j :: more) ->
       entry mean (i :: j :: more) = entry y (i :: j :: more) /\
       entry logvar (i :: j :: more) = entry y (i :: L + j :: more)).
Proof.
  intros Hy Hs. unfold encode. rewrite Hy. cbn [Py.bind].
  rewrite (split2_run y n L rest Hs).
  rewrite !(columns_run y n (2 * L) rest) by assumption.
  eexists. eexists. split; [reflexivity|].
  split; [reflexivity|]. split; [reflexivity|].
  split; [apply well_formed_tabulate|].
  split; [apply well_formed_tabulate|].
  intros i j more Hb. rewrite !entry_tabulate by assumption.
  split; reflexivity.
Qed.


(** *** [compute_loss] *)

Lemma cross_entropy_run logits x s :
  Numpy.shape logits = s -> Numpy.shape x = s ->
  sigmoid_cross_entropy_with_logits K logits x
  = inr (tabulate s (fun idx =>
           cross_entropy_kernel K (entry logits (broadcast_index s idx))
             (entry x (broadcast_index s idx)))).
Proof.
  intros H1 H2. unfold sigmoid_cross_entropy_with_logits, same_shape.
  rewrite H1, H2.
  destruct (list_eq_dec Nat.eq_dec s s) as [_|Hne]; [|congruence].
  apply binary_run; try assumption. apply broadcast_shapes_same.
Qed.

Lemma reduce_pixels k t B H W C :
  Numpy.shape t = [B; H; W; C] ->
  reduce k (Tensor t) [1; 2; 3]%Z
  = inr (tabulate [B] (fun idx =>
           k (map (fun j =>
                     entry t (merge [false; true; true; true] idx
                                (unravel [H; W; C] j)))
                  (seq 0 (Numpy.size_of [H; W; C]))))).
Proof.
  intros Hs. unfold reduce. cbn [convert_to_tensor]. rewrite Hs.
  replace (normalize_axes (List.length [B; H; W; C]) [1; 2; 3]%Z)
    with (@inr Py.exn (list nat) [1; 2; 3]) by reflexivity.
  reflexivity.
Qed.

Lemma unary_scalar f c : unary f (scalar c) = scalar (f c).
Proof. reflexivity. Qed.

Lemma unravel_vector B k : unravel [B] k = [k].
Proof.
  cbn [unravel Numpy.size_of fold_right]. rewrite Nat.div_1_r.
  reflexivity.
Qed.

(** C1: [compute_loss] returns minus the mean over the batch, by the
    kernel of [tf.reduce_mean], of [logpx_z + logpz - logqz_x], where at
    each example [logpx_z] is minus the sum of the sigmoid cross-entropy
    between the decoder's logits and the pixels over the pixel axes,
    [logpz] the Gaussian log-density of the latent sample under mean 0
    and log-variance 0 and [logqz_x] its log-density under the encoder's
    mean and log-variance, both summed over the latent axis; every
    operation is done by its [float32] kernel. *)
Theorem compute_loss_elbo draw model x y B H W C L :
  Numpy.shape x = [B; H; W; C] ->
  inference_net model x = inr y -> Numpy.shape y = [B; 2 * L] ->
  (forall z, Numpy.shape z = [B; L] -> well_formed z ->
             exists logits,
               generative_net model z = inr logits /\
               Numpy.shape logits = [B; H; W; C]) ->
  exists mean logvar z logits,
    encode model x = inr (mean, logvar) /\
    reparameterize K draw mean logvar = inr (Tensor z) /\
    decode K model (Tensor z) false = inr logits /\
    compute_loss K draw model x
    = inr (Tensor (scalar (neg_kernel K (mean_kernel K
        (map (fun i =>
                sub_kernel K
                  (add_kernel K
                     (reconstruction_log_likelihood K [H; W; C] logits x i)
                     (gaussian_log_density K L
                        (fun j => entry z [i; j])
                        (fun _ => Float32.zero) (fun _ => Float32.zero)
                        (fun _ => S754_zero true)))
                  (gaussian_log_density K L
                     (fun j => entry z [i; j])
                     (fun j => entry mean [i; j])
                     (fun j => entry logvar [i; j])
                     (fun j => neg_kernel K (entry logvar [i; j]))))
             (seq 0 B)))))).
Proof.
  intros Hx Hy Hys Hdec.
  destruct (encode_run model x y B L [] Hy Hys)
    as [mean [logvar [Eenc [Sm [Sl [Wm [Wl _]]]]]]].
  destruct (reparameterize_run draw mean logvar)
    as [z [Ez [Sz [Wz _]]]]; [congruence|].
  rewrite Sm in Sz.
  destruct (Hdec z Sz Wz) as [logits [Eg Slog]].
  assert (Edec : decode K model (Tensor z) false = inr logits).
  { unfold decode. cbn [convert_to_tensor]. rewrite Eg. reflexivity. }
  exists mean, logvar, z, logits.
  split; [assumption|]. split; [assumption|]. split; [assumption|].
  unfold compute_loss. rewrite Eenc. cbn [Py.bind fst snd].
  rewrite Ez. cbn [Py.bind]. rewrite Edec. cbn [Py.bind].
  rewrite (cross_entropy_run logits x [B; H; W; C] Slog Hx).
  cbn [Py.bind]. unfold reduce_sum at 1.
  rewrite (reduce_pixels _ _ B H W C) by reflexivity.
  cbn [Py.bind py_neg]. rewrite unary_tabulate.
  rewrite (log_normal_pdf_run (Tensor z) (PyFloat Float64.zero)
             (PyFloat Float64.zero) 1 [B; L] [B; L] 1);
    [ | reflexivity
      | exact I
      | cbn [convert_to_tensor]; rewrite Sz;
        apply broadcast_shapes_left, fits_nil
      | apply broadcast_shapes_left, fits_nil
      | reflexivity ].
  cbn [Py.bind].
  rewrite (log_normal_pdf_run (Tensor z) (Tensor mean) (Tensor logvar) 1
             [B; L] [B; L] 1);
    [ | exact Wl
      | exact I
      | cbn [convert_to_tensor]; rewrite Sz, Sm;
        apply broadcast_shapes_same
      | cbn [convert_to_tensor]; rewrite Sl; apply broadcast_shapes_same
      | reflexivity ].
  cbn [Py.bind remove_axis firstn skipn app nth].
  unfold py_add, py_sub, arith. cbn [convert_to_tensor].
  rewrite (binary_run _ _ _ [B] [B] [B])
    by (reflexivity || apply broadcast_shapes_same).
  cbn [Py.bind Py.ret].
  rewrite (binary_run _ _ _ [B] [B] [B])
    by (reflexivity || apply broadcast_shapes_same).
  cbn [Py.bind Py.ret py_neg]. unfold reduce_mean.
  cbn [convert_to_tensor]. unfold Py.ret.
  rewrite unary_scalar. do 5 f_equal.
  unfold tabulate at 1. cbn [Numpy.data].
  replace (Numpy.size_of [B]) with B by (cbn; lia).
  apply map_ext_in. intros i Hi. apply in_seq in Hi.
  rewrite unravel_vector.
  assert (Hb : in_bounds [B] [i]) by (repeat constructor; lia).
  repeat (rewrite ?(broadcast_index_same [B] [i] Hb);
          rewrite entry_tabulate by assumption).
  rewrite ?(broadcast_index_same [B] [i] Hb).
  f_equal; [f_equal|].
  - unfold reconstruction_log_likelihood. do 2 f_equal.
    apply map_ext_in. intros k Hk. apply in_seq in Hk.
    cbn [merge].
    assert (Hu : in_bounds [H; W; C] (unravel [H; W; C] k))
      by (apply unravel_in_bounds; lia).
    destruct (unravel [H; W; C] k) as [|a [|b [|c [|? ?]]]] eqn:Eu;
      try (apply Forall2_length in Hu; discriminate).
    cbn [merge].
    assert (Hfull : in_bounds [B; H; W; C] [i; a; b; c])
      by (constructor; [lia | exact Hu]).
    rewrite entry_tabulate by assumption.
    rewrite (broadcast_index_same _ _ Hfull). reflexivity.
  - unfold gaussian_log_density. f_equal.
    apply map_ext_in. intros j Hj. apply in_seq in Hj. cbv zeta.
    assert (Hij : in_bounds [B; L] [i; j])
      by (repeat constructor; lia).
    unfold log_density_term, squared_difference, operand, insert_axis.
    cbn [convert_to_tensor firstn skipn app].
    rewrite Sz, (broadcast_index_same _ _ Hij). reflexivity.
  - unfold gaussian_log_density. f_equal.
    apply map_ext_in. intros j Hj. apply in_seq in Hj. cbv zeta.
    assert (Hij : in_bounds [B; L] [i; j])
      by (repeat constructor; lia).
    unfold log_density_term, squared_difference, operand, insert_axis.
    cbn [py_neg convert_to_tensor firstn skipn app].
    change (Numpy.shape (unary (neg_kernel K) logvar))
      with (Numpy.shape logvar).
    rewrite Sz, Sm, Sl, (broadcast_index_same _ _ Hij).
    rewrite (entry_unary _ logvar [i; j] Wl) by (rewrite Sl; exact Hij).
    reflexivity.
Qed.


(** X16: when the encoder's output has an odd number of columns, the
    split in two fails and [encode], and with it [compute_loss],
    raises. *)
Theorem encode_odd_width draw model x y n L rest :
  inference_net model x = inr y ->
  Numpy.shape y = n :: 2 * L + 1 :: rest ->
  encode model x = inl Py.InvalidArgument /\
  compute_loss K draw model x = inl Py.InvalidArgument.
Proof.
  intros Hy Hs.
  assert (E : encode model x = inl Py.InvalidArgument).
  { unfold encode. rewrite Hy. cbn [Py.bind].
    apply (split2_odd y n L rest Hs). }
  split; [exact E|]. unfold compute_loss. rewrite E. reflexivity.
Qed.


End Kernels.

(** The call on three scalars raises; it returns no value. *)
Lemma log_normal_pdf_of_scalars :
  log_normal_pdf example_kernels (PyFloat Float64.zero)
    (PyFloat Float64.zero) (PyFloat Float64.zero) 1
  = inl Py.InvalidArgument /\
  ~ (exists out,
        log_normal_pdf example_kernels (PyFloat Float64.zero)
          (PyFloat Float64.zero) (PyFloat Float64.zero) 1
        = inr out).
Proof. split; [reflexivity|]. intros [out H]. discriminate. Qed.

Lemma toy_decoder z :
  Numpy.shape z = [1; 1] -> well_formed z ->
  exists logits,
    generative_net toy_model z = inr logits /\
    Numpy.shape logits = [1; 1; 1; 1].
Proof.
  intros Hs _. cbn [generative_net toy_model]. rewrite Hs.
  eexists. split; reflexivity.
Qed.

Lemma compute_loss_elbo_witness :
  exists mean logvar z logits,
    encode toy_model toy_batch = inr (mean, logvar) /\
    reparameterize example_kernels unit_noise mean logvar
    = inr (Tensor z) /\
    decode example_kernels toy_model (Tensor z) false = inr logits /\
    compute_loss example_kernels unit_noise toy_model toy_batch
    = inr (Tensor (scalar (neg_kernel example_kernels
        (mean_kernel example_kernels
        (map (fun i =>
                sub_kernel example_kernels
                  (add_kernel example_kernels
                     (reconstruction_log_likelihood example_kernels
                        [1; 1; 1] logits toy_batch i)
                     (gaussian_log_density example_kernels 1
                        (fun j => entry z [i; j])
                        (fun _ => Float32.zero) (fun _ => Float32.zero)
                        (fun _ => S754_zero true)))
                  (gaussian_log_density example_kernels 1
                     (fun j => entry z [i; j])
                     (fun j => entry mean [i; j])
                     (fun j => entry logvar [i; j])
                     (fun j => neg_kernel example_kernels
                                 (entry logvar [i; j]))))
             (seq 0 1)))))).
Proof.
  apply (compute_loss_elbo example_kernels unit_noise toy_model toy_batch
           (tabulate [1; 2] (fun _ => Float32.zero)) 1 1 1 1 1).
  - reflexivity.
  - reflexivity.
  - reflexivity.
  - exact toy_decoder.
Defined.

Lemma reparameterize_deterministic_witness :
  Numpy.shape one_zero = Numpy.shape one_zero /\
  exists z,
    reparameterize example_kernels unit_noise one_zero one_zero
    = inr (Tensor z) /\
    Numpy.shape z = Numpy.shape one_zero /\ well_formed z /\
    (forall idx, in_bounds (Numpy.shape one_zero) idx ->
       entry z idx
       = add_kernel example_kernels
           (mul_kernel example_kernels
              (noise unit_noise (Numpy.shape one_zero) idx)
              (exp_kernel example_kernels
                 (mul_kernel example_kernels (entry one_zero idx)
                    Float32.half)))
           (entry one_zero idx)) /\
    ((forall a b,
         mul_kernel example_kernels a b = mul_kernel example_kernels b a) ->
     forall idx, in_bounds (Numpy.shape one_zero) idx ->
       entry z idx
       = add_kernel example_kernels
           (mul_kernel example_kernels
              (noise unit_noise (Numpy.shape one_zero) idx)
              (exp_kernel example_kernels
                 (mul_kernel example_kernels Float32.half
                    (entry one_zero idx))))
           (entry one_zero idx)).
Proof.
  split; [reflexivity|].
  exact (reparameterize_deterministic example_kernels unit_noise
           one_zero one_zero eq_refl).
Defined.

Lemma example_kernels_exact : exact_at_zero example_kernels.
Proof. repeat split. Qed.

Lemma log_normal_pdf_closed_form_witness :
  well_formed_value (PyFloat Float64.zero) /\
  square_defined example_kernels (Tensor one_zero) (PyFloat Float64.zero) /\
  broadcast_shapes (Numpy.shape (convert_to_tensor (Tensor one_zero)))
    (Numpy.shape (convert_to_tensor (PyFloat Float64.zero)))
  = inr [1; 1] /\
  broadcast_shapes [1; 1]
    (Numpy.shape (convert_to_tensor (PyFloat Float64.zero)))
  = inr [1; 1] /\
  normalize_axis (List.length [1; 1]) 1 = inr 1 /\
  exact_at_zero example_kernels /\
  log_normal_pdf example_kernels (Tensor one_zero) (PyFloat Float64.zero)
    (PyFloat Float64.zero) 1
  = inr (Numpy.mk_ndarray [1]
           [mul_kernel example_kernels Float32.minus_half
              (log2pi example_kernels)]).
Proof.
  assert (H0 : well_formed_value (PyFloat Float64.zero)) by reflexivity.
  assert (Hd : square_defined example_kernels (Tensor one_zero)
                 (PyFloat Float64.zero)) by exact I.
  assert (H1 : broadcast_shapes
                 (Numpy.shape (convert_to_tensor (Tensor one_zero)))
                 (Numpy.shape (convert_to_tensor (PyFloat Float64.zero)))
               = inr [1; 1]) by reflexivity.
  assert (H2 : broadcast_shapes [1; 1]
                 (Numpy.shape (convert_to_tensor (PyFloat Float64.zero)))
               = inr [1; 1]) by reflexivity.
  assert (H3 : normalize_axis (List.length [1; 1]) 1 = inr 1)
    by reflexivity.
  split; [exact H0|]. split; [exact Hd|]. split; [exact H1|].
  split; [exact H2|]. split; [exact H3|].
  split; [exact example_kernels_exact|].
  destruct (log_normal_pdf_closed_form example_kernels (Tensor one_zero)
              (PyFloat Float64.zero) (PyFloat Float64.zero) 1
              [1; 1] [1; 1] 1 H0 Hd H1 H2 H3) as [_ [_ [_ Hexact]]].
  exact (Hexact example_kernels_exact).
Defined.

(** *** Further properties of the model *)

(** X15: [encode] loses nothing of the encoder's output: the mean and
    the log-variance each have half its width, and joining them along
    axis 1 gives it back. *)
Theorem encode_round_trip model x y n L rest :
  inference_net model x = inr y ->
  well_formed y -> Numpy.shape y = n :: 2 * L :: rest ->
  exists mean logvar,
    encode model x = inr (mean, logvar) /\
    Numpy.shape mean = n :: L :: rest /\
    Numpy.shape logvar = n :: L :: rest /\
    well_formed mean /\ well_formed logvar /\
    concat_columns mean logvar = y.
Proof.
  intros Hy Hwf Hs.
  destruct (encode_run model x y n L rest Hy Hs)
    as [mean [logvar [E [Sm [Sl [Wm [Wl Hent]]]]]]].
  exists mean, logvar. repeat (split; [assumption|]).
  unfold concat_columns. rewrite Sm, Sl.
  rewrite <- (tabulate_entry y Hwf) at 1. rewrite Hs.
  replace (L + L) with (2 * L) by lia.
  apply tabulate_ext. intros idx Hidx.
  assert (Hidx' := Hidx).
  inversion Hidx as [|i d idx1 shp1 Hi H1]; subst.
  inversion H1 as [|j d idx2 shp2 Hj H2]; subst.
  destruct (Nat.ltb_spec j L) as [Hlt|Hge].
  - destruct (Hent i j idx2) as [Em _];
      [constructor; [assumption | constructor; assumption]|].
    rewrite Em. reflexivity.
  - destruct (Hent i (j - L) idx2) as [_ El];
      [constructor; [assumption | constructor; [lia | assumption]]|].
    rewrite El. replace (L + (j - L)) with j by lia. reflexivity.
Qed.

Lemma encode_round_trip_witness :
  exists mean logvar,
    encode toy_model toy_batch = inr (mean, logvar) /\
    Numpy.shape mean = [1; 1] /\
    Numpy.shape logvar = [1; 1] /\
    well_formed mean /\ well_formed logvar /\
    concat_columns mean logvar = tabulate [1; 2] (fun _ => Float32.zero).
Proof.
  apply (encode_round_trip toy_model toy_batch
           (tabulate [1; 2] (fun _ => Float32.zero)) 1 1 []).
  - reflexivity.
  - reflexivity.
  - reflexivity.
Defined.

Lemma encode_odd_width_witness :
  encode odd_model toy_batch = inl Py.InvalidArgument /\
  compute_loss example_kernels unit_noise odd_model toy_batch
  = inl Py.InvalidArgument.
Proof.
  apply (encode_odd_width example_kernels unit_noise odd_model toy_batch
           (tabulate [1; 3] (fun _ => Float32.zero)) 1 1 []).
  - reflexivity.
  - reflexivity.
Defined.


End TfFacts.

(** ** Shapes through the two networks *)

Module KerasFacts.

Import Keras.

Lemma encoder_output latent_dim batch :
  sequential (inference_net latent_dim) [batch; 28; 28; 1]
  = inr [batch; 2 * latent_dim].
Proof.
  cbn. replace (latent_dim + 0) with latent_dim by lia. reflexivity.
Qed.

Lemma encode_shape_run latent_dim batch :
  encode_shape latent_dim [batch; 28; 28; 1]
  = inr ([batch; latent_dim], [batch; latent_dim]).
Proof.
  unfold encode_shape. rewrite encoder_output. cbn [Py.bind split2_shape].
  rewrite Nat.mul_comm, Nat.Div0.mod_mul, Nat.div_mul by lia. reflexivity.
Qed.

Lemma reparameterize_shape_run latent_dim batch :
  reparameterize_shape [batch; latent_dim] [batch; latent_dim]
  = inr [batch; latent_dim].
Proof.
  unfold reparameterize_shape, broadcast.
  repeat (cbn; rewrite ?Nat.eqb_refl). reflexivity.
Qed.

Lemma decode_shape_run latent_dim batch :
  decode_shape latent_dim [batch; latent_dim] = inr [batch; 28; 28; 1].
Proof.
  unfold decode_shape, generative_net. cbn [sequential output_shape].
  cbn [shape_eqb]. rewrite Nat.eqb_refl. cbn.
  replace (batch :: _) with [batch; 28; 28; 1]; [reflexivity|].
  repeat f_equal; lia.
Qed.

(** C6: for every batch size, the last dense layer of the encoder gives
    [2 * latent_dim] numbers per example, [encode] splits them into a
    mean and a log-variance of [latent_dim] numbers each, the latent
    sample has their shape, and the decoder turns a batch of
    [latent_dim]-vectors into a batch of 28 x 28 x 1 images: the batch
    size is the same from end to end. *)
Theorem shapes_end_to_end latent_dim batch :
  0 < latent_dim ->
  sequential (inference_net latent_dim) [batch; 28; 28; 1]
  = inr [batch; 2 * latent_dim] /\
  encode_shape latent_dim [batch; 28; 28; 1]
  = inr ([batch; latent_dim], [batch; latent_dim]) /\
  reparameterize_shape [batch; latent_dim] [batch; latent_dim]
  = inr [batch; latent_dim] /\
  decode_shape latent_dim [batch; latent_dim] = inr [batch; 28; 28; 1] /\
  forward_shape latent_dim [batch; 28; 28; 1] = inr [batch; 28; 28; 1].
Proof.
  intros _. split; [apply encoder_output|].
  split; [apply encode_shape_run|].
  split; [apply reparameterize_shape_run|].
  split; [apply decode_shape_run|].
  unfold forward_shape. rewrite encode_shape_run. cbn [Py.bind fst snd].
  rewrite reparameterize_shape_run. cbn [Py.bind]. apply decode_shape_run.
Qed.

Lemma shapes_end_to_end_witness :
  0 < 50 /\
  sequential (inference_net 50) [128; 28; 28; 1] = inr [128; 2 * 50] /\
  encode_shape 50 [128; 28; 28; 1] = inr ([128; 50], [128; 50]) /\
  reparameterize_shape [128; 50] [128; 50] = inr [128; 50] /\
  decode_shape 50 [128; 50] = inr [128; 28; 28; 1] /\
  forward_shape 50 [128; 28; 28; 1] = inr [128; 28; 28; 1].
Proof.
  assert (H : 0 < 50) by lia.
  split; [exact H|]. exact (shapes_end_to_end 50 128 H).
Defined.

End KerasFacts.

(** ** The training loop *)

Module MainFacts.

Import Main.

Section Loop.

Variables model scalar latent : Type.
Variable train_epoch : nat -> model -> model.
Variable mean_test_loss : nat -> model -> scalar.
Variable negate : scalar -> scalar.
Variable random_vector_for_generation : latent.
Variable fresh : model.

Let epoch_events : nat -> list (event scalar latent) :=
  Main.epoch_events train_epoch mean_test_loss negate
    random_vector_for_generation fresh.

Example format_04d_7 : format_04d 7 = "0007"%string.
Proof. reflexivity. Qed.

Example format_04d_90 : format_04d 90 = "0090"%string.
Proof. reflexivity. Qed.

Lemma train_loop_unfold n :
  train_loop train_epoch mean_test_loss negate n
    random_vector_for_generation fresh
  = mk_run (model_at train_epoch fresh n)
           (flat_map epoch_events (seq 0 n)).
Proof.
  unfold train_loop. induction n as [|n IH].
  - reflexivity.
  - rewrite seq_S, fold_left_app, IH. cbn [fold_left Nat.add].
    rewrite flat_map_app. cbn [flat_map]. rewrite app_nil_r.
    unfold epoch_body, epoch_events, Main.epoch_events. cbn [current trace model_at].
    destruct (n mod 10 =? 0); rewrite <- ?app_assoc; reflexivity.
Qed.

Lemma trained_epochs_flat n :
  trained_epochs (flat_map epoch_events (seq 0 n)) = seq 0 n.
Proof.
  unfold trained_epochs.
  induction n as [|n IH]; [reflexivity|].
  rewrite seq_S, !flat_map_app, IH. cbn [flat_map Nat.add].
  unfold epoch_events, Main.epoch_events. destruct (n mod 10 =? 0); reflexivity.
Qed.

Lemma in_epoch_events ev n :
  In ev (flat_map epoch_events (seq 0 n)) <->
  exists e, e < n /\ In ev (epoch_events e).
Proof.
  rewrite in_flat_map. split; intros [e [H1 H2]]; exists e;
    (split; [|assumption]); apply in_seq in H1 || apply in_seq; lia.
Qed.

(** C7: the loop trains epochs 0 to 99 in order and ends; it reports
    the negated mean test loss at an epoch exactly when the epoch is a
    multiple of 10 (0 included), and exactly then writes the images
    decoded from the one vector drawn before the loop, to the file named
    by the epoch. *)
Theorem main_schedule :
  let r := main train_epoch mean_test_loss negate
             random_vector_for_generation fresh in
  trained_epochs (trace r) = seq 0 100 /\
  current r = model_at train_epoch fresh 100 /\
  (forall e elbo,
      In (Reported _ e elbo) (trace r) <->
      e < 100 /\ e mod 10 = 0 /\
      elbo = negate (mean_test_loss e
                       (model_at train_epoch fresh (S e)))) /\
  (forall e file input,
      In (SavedImages _ e file input) (trace r) <->
      e < 100 /\ e mod 10 = 0 /\
      file = image_file e /\ input = random_vector_for_generation) /\
  image_file 0 = "image_at_epoch_0000.png"%string /\
  image_file 90 = "image_at_epoch_0090.png"%string.
Proof.
  cbv zeta. unfold main, epochs. rewrite train_loop_unfold.
  cbn [trace current]. split; [apply trained_epochs_flat|].
  split; [reflexivity|]. split; [|split; [|split; reflexivity]].
  - intros e elbo. rewrite in_epoch_events. split.
    + intros [e' [Hlt Hin]]. unfold epoch_events, Main.epoch_events in Hin.
      destruct Hin as [Hin|Hin]; [discriminate|].
      destruct (Nat.eqb_spec (e' mod 10) 0) as [Hm|Hm];
        [|destruct Hin].
      destruct Hin as [Hin|[Hin|[]]]; inversion Hin; subst. auto.
    + intros [Hlt [Hm ->]]. exists e. split; [assumption|].
      unfold epoch_events, Main.epoch_events. rewrite Hm. cbn. auto.
  - intros e file input. rewrite in_epoch_events. split.
    + intros [e' [Hlt Hin]]. unfold epoch_events, Main.epoch_events in Hin.
      destruct Hin as [Hin|Hin]; [discriminate|].
      destruct (Nat.eqb_spec (e' mod 10) 0) as [Hm|Hm];
        [|destruct Hin].
      destruct Hin as [Hin|[Hin|[]]]; inversion Hin; subst. auto.
    + intros [Hlt [Hm [-> ->]]]. exists e. split; [assumption|].
      unfold epoch_events, Main.epoch_events. rewrite Hm. cbn. auto.
Qed.

Lemma saved_files_flat n :
  saved_files (flat_map epoch_events (seq 0 n))
  = map image_file (evaluated_epochs n).
Proof.
  unfold saved_files, evaluated_epochs.
  induction n as [|n IH]; [reflexivity|].
  rewrite seq_S, !flat_map_app, filter_app, map_app, IH.
  cbn [flat_map filter Nat.add]. f_equal.
  unfold epoch_events, Main.epoch_events.
  destruct (n mod 10 =? 0); reflexivity.
Qed.

(** X5: a run of [n] epochs writes one image file for each multiple of
    10 below [n], in increasing order of epoch, and no other; the script
    writes ten, for the epochs 0, 10, ..., 90. *)
Theorem saved_files_of_run n :
  saved_files (trace (train_loop train_epoch mean_test_loss negate n
                        random_vector_for_generation fresh))
  = map image_file (evaluated_epochs n) /\
  saved_files (trace (main train_epoch mean_test_loss negate
                        random_vector_for_generation fresh))
  = map image_file [0; 10; 20; 30; 40; 50; 60; 70; 80; 90].
Proof.
  unfold main, epochs. rewrite !train_loop_unfold. cbn [trace].
  rewrite !saved_files_flat. split; reflexivity.
Qed.

Lemma saved_files_of_main :
  saved_files (trace (main train_epoch mean_test_loss negate
                        random_vector_for_generation fresh))
  = map image_file [0; 10; 20; 30; 40; 50; 60; 70; 80; 90].
Proof.
  unfold main, epochs. rewrite train_loop_unfold. cbn [trace].
  rewrite saved_files_flat. reflexivity.
Qed.

(** X6: whatever order [glob] lists them in, [draw_gif] on the ten files
    of a run of the script assembles the images of the epochs 0, 10, 20,
    40, 60, 80 and 90, in this order. *)
Theorem animation_of_run matches :
  Permutation matches
    (saved_files (trace (main train_epoch mean_test_loss negate
                           random_vector_for_generation fresh))) ->
  DrawGif.draw_gif matches
  = inr (map (fun p => DrawGif.imread_at (fst p) (image_file (snd p)))
             [(0, 0); (1, 10); (2, 20); (4, 40); (6, 60); (8, 80);
              (9, 90)]).
Proof.
  intros HP. rewrite saved_files_of_main in HP.
  rewrite (DrawGifFacts.draw_gif_permuted _ _ HP).
  exact DrawGifFacts.draw_gif_ten_files.
Qed.

End Loop.

Lemma animation_of_run_witness :
  Permutation
    (rev (map image_file [0; 10; 20; 30; 40; 50; 60; 70; 80; 90]))
    (saved_files (trace (main (fun _ (m : unit) => m)
                           (fun _ _ => 0%Z) Z.opp tt tt))) /\
  DrawGif.draw_gif
    (rev (map image_file [0; 10; 20; 30; 40; 50; 60; 70; 80; 90]))
  = inr (map (fun p => DrawGif.imread_at (fst p) (image_file (snd p)))
             [(0, 0); (1, 10); (2, 20); (4, 40); (6, 60); (8, 80);
              (9, 90)]).
Proof.
  assert (H : Permutation
                (rev (map image_file [0; 10; 20; 30; 40; 50; 60; 70; 80; 90]))
                (saved_files (trace (main (fun _ (m : unit) => m)
                                       (fun _ _ => 0%Z) Z.opp tt tt)))).
  { apply Permutation_sym. apply Permutation_rev. }
  split; [exact H|].
  exact (animation_of_run unit Z unit (fun _ m => m) (fun _ _ => 0%Z)
           Z.opp tt tt _ H).
Defined.

Lemma next_file_is_later_all :
  forallb next_file_is_later (seq 0 last_four_digit_epoch) = true.
Proof. vm_compute. reflexivity. Qed.

Lemma image_file_ascending e1 e2 :
  e1 < e2 -> e2 <= last_four_digit_epoch ->
  String.ltb (image_file e1) (image_file e2) = true.
Proof.
  intros Hlt. induction e2 as [|e2 IH]; [lia|]. intros Hle.
  assert (Hstep : String.ltb (image_file e2) (image_file (S e2)) = true).
  { pose proof next_file_is_later_all as H. rewrite forallb_forall in H.
    apply (H e2). apply in_seq. lia. }
  destruct (Nat.eq_dec e1 e2) as [->|Hne]; [assumption|].
  eapply OrderFacts.ltb_trans; [apply IH; lia | assumption].
Qed.

Lemma ltb_irrefl s : String.ltb s s = false.
Proof.
  unfold String.ltb.
  pose proof (String.compare_antisym s s) as H.
  destruct (String.compare s s); try reflexivity; discriminate.
Qed.

(** X7: up to epoch 9999 the file names are in the order of the epochs
    under Python's comparison of strings, so no two epochs write the same
    file; from epoch 10000 on the name has five digits and sorts before
    the name of epoch 9999. *)
Theorem image_files_in_epoch_order e1 e2 :
  e1 <= last_four_digit_epoch -> e2 <= last_four_digit_epoch ->
  (e1 < e2 <-> String.ltb (image_file e1) (image_file e2) = true) /\
  (image_file e1 = image_file e2 -> e1 = e2) /\
  String.ltb (image_file (S last_four_digit_epoch))
             (image_file last_four_digit_epoch) = true.
Proof.
  intros H1 H2.
  assert (Hiff : e1 < e2 <->
                 String.ltb (image_file e1) (image_file e2) = true).
  { split; [intros; apply image_file_ascending; assumption|].
    intros Hlt. destruct (Nat.lt_trichotomy e1 e2) as [H|[H|H]];
      [assumption | subst; rewrite ltb_irrefl in Hlt; discriminate |].
    pose proof (image_file_ascending e2 e1 H H1) as Hgt.
    pose proof (OrderFacts.ltb_trans _ _ _ Hlt Hgt) as Hxx.
    rewrite ltb_irrefl in Hxx. discriminate. }
  split; [exact Hiff|]. split; [|vm_compute; reflexivity].
  intros Heq. destruct (Nat.lt_trichotomy e1 e2) as [H|[H|H]];
    [| assumption |].
  - pose proof (image_file_ascending e1 e2 H H2) as Hlt.
    rewrite Heq, ltb_irrefl in Hlt. discriminate.
  - pose proof (image_file_ascending e2 e1 H H1) as Hlt.
    rewrite Heq, ltb_irrefl in Hlt. discriminate.
Qed.

Lemma image_files_in_epoch_order_witness :
  10 <= last_four_digit_epoch /\ 90 <= last_four_digit_epoch /\
  (10 < 90 <-> String.ltb (image_file 10) (image_file 90) = true) /\
  (image_file 10 = image_file 90 -> 10 = 90) /\
  String.ltb (image_file (S last_four_digit_epoch))
             (image_file last_four_digit_epoch) = true.
Proof.
  assert (H1 : 10 <= last_four_digit_epoch) by (unfold last_four_digit_epoch; lia).
  assert (H2 : 90 <= last_four_digit_epoch) by (unfold last_four_digit_epoch; lia).
  split; [exact H1|]. split; [exact H2|].
  exact (image_files_in_epoch_order 10 90 H1 H2).
Defined.

(** X8: when the files found are those of epochs listed in increasing
    order (none above 9999), [sorted] puts them in the order of the
    epochs, and the final frame of the animation is the image of the
    last epoch. *)
Theorem sorted_files_by_epoch matches es :
  es <> [] ->
  StronglySorted lt es ->
  Forall (fun e => e <= last_four_digit_epoch) es ->
  Permutation matches (map image_file es) ->
  sorted matches = map image_file es /\
  DrawGif.final_frame matches
  = DrawGif.imread_at (List.length es - 1) (image_file (List.last es 0)).
Proof.
  intros Hne Hs Hall HP.
  assert (Hsorted : sorted matches = map image_file es).
  { apply OrderFacts.sorted_of_ascending; [|assumption].
    clear HP Hne. induction Hs as [|e es Hs IH He]; [constructor|].
    inversion Hall; subst. simpl. constructor; [apply IH; assumption|].
    apply Forall_map. rewrite Forall_forall in *. intros e' Hin.
    apply image_file_ascending; auto. }
  split; [assumption|]. unfold DrawGif.final_frame.
  rewrite Hsorted, (Permutation_length HP), length_map. f_equal.
  destruct (exists_last Hne) as [es' [e Hes]]. subst es.
  rewrite map_app. cbn [map]. rewrite !last_last. reflexivity.
Qed.

Lemma sorted_files_by_epoch_witness :
  [0; 10] <> [] /\ StronglySorted lt [0; 10] /\
  Forall (fun e => e <= last_four_digit_epoch) [0; 10] /\
  Permutation DrawGif.two_frames (map image_file [0; 10]) /\
  sorted DrawGif.two_frames = map image_file [0; 10] /\
  DrawGif.final_frame DrawGif.two_frames
  = DrawGif.imread_at (List.length [0; 10] - 1)
      (image_file (List.last [0; 10] 0)).
Proof.
  assert (H1 : [0; 10] <> []) by discriminate.
  assert (H2 : StronglySorted lt [0; 10])
    by (repeat constructor; lia).
  assert (H3 : Forall (fun e => e <= last_four_digit_epoch) [0; 10])
    by (constructor; [unfold last_four_digit_epoch; lia|];
        constructor; [unfold last_four_digit_epoch; lia|]; constructor).
  assert (H4 : Permutation DrawGif.two_frames (map image_file [0; 10]))
    by apply perm_swap.
  split; [exact H1|]. split; [exact H2|]. split; [exact H3|].
  split; [exact H4|].
  exact (sorted_files_by_epoch DrawGif.two_frames [0; 10] H1 H2 H3 H4).
Defined.

End MainFacts.

(** ** The figure of [generate_and_save_images] *)

Module VisualizeFacts.

Import Visualize.

Section Kernels.

Variable K : Tf.kernels.

Lemma channel0_run predictions n h w c i :
  Numpy.shape predictions = [n; h; w; c] ->
  i < n -> 0 < c ->
  channel0 predictions i
  = inr (Tf.tabulate [h; w] (fun idx =>
           match idx with
           | r :: q :: more =>
               Tf.entry predictions (i :: r :: q :: 0 :: more)
           | _ => S754_nan
           end)).
Proof.
  intros Hs Hi Hc. unfold channel0. rewrite Hs.
  destruct (Nat.ltb_spec i n); [|lia].
  destruct (Nat.ltb_spec 0 c); [|lia]. reflexivity.
Qed.

Lemma draw_panels_ok predictions n h w c : forall len i,
  Numpy.shape predictions = [n; h; w; c] -> 0 < c ->
  i + len <= 16 -> i + len <= n ->
  exists drawn,
    draw_panels predictions (seq i len) = inr drawn /\
    map position drawn = seq (S i) len /\
    Forall2 (fun p j =>
               shown p
               = Tf.tabulate [h; w] (fun idx =>
                   match idx with
                   | r :: q :: more =>
                       Tf.entry predictions (j :: r :: q :: 0 :: more)
                   | _ => S754_nan
                   end))
            drawn (seq i len).
Proof.
  induction len as [|len IH]; intros i Hs Hc H16 Hn.
  - exists []. repeat split; constructor.
  - destruct (IH (S i) Hs Hc) as [more [Hmore [Hpos Hshown]]]; try lia.
    cbn [seq draw_panels]. unfold subplot.
    destruct (Nat.leb_spec 1 (i + 1)); [|lia].
    destruct (Nat.leb_spec (i + 1) (4 * 4)); [|cbn in *; lia].
    cbn [andb Py.bind Py.ret].
    rewrite (channel0_run predictions n h w c i Hs) by lia.
    cbn [Py.bind]. rewrite Hmore. cbn [Py.bind Py.ret].
    eexists. split; [reflexivity|]. cbn [map position]. split.
    + rewrite Hpos. f_equal. lia.
    + constructor; [reflexivity | assumption].
Qed.

Lemma draw_panels_overflow predictions n h w c : forall k i,
  Numpy.shape predictions = [n; h; w; c] -> 0 < c ->
  i + k = 16 -> 16 < n ->
  draw_panels predictions (seq i (n - i)) = inl Py.ValueError.
Proof.
  induction k as [|k IH]; intros i Hs Hc Hk Hn.
  - assert (i = 16) by lia. subst i.
    destruct (n - 16) as [|m] eqn:E; [lia|]. reflexivity.
  - destruct (n - i) as [|m] eqn:E; [lia|].
    cbn [seq draw_panels]. unfold subplot.
    destruct (Nat.leb_spec 1 (i + 1)); [|lia].
    destruct (Nat.leb_spec (i + 1) (4 * 4)); [|cbn in *; lia].
    cbn [andb Py.bind Py.ret].
    rewrite (channel0_run predictions n h w c i Hs) by lia.
    cbn [Py.bind]. replace m with (n - S i) by lia.
    rewrite (IH (S i) Hs Hc) by lia. reflexivity.
Qed.

Lemma sample_run draw model test_input logits :
  Tf.generative_net model (Tf.convert_to_tensor test_input) = inr logits ->
  Tf.sample K draw model (Some test_input)
  = inr (Tf.unary (Tf.sigmoid_kernel K) logits).
Proof.
  intros H. unfold Tf.sample, Tf.decode. rewrite H. reflexivity.
Qed.

(** X21: with at most 16 latent vectors, [generate_and_save_images]
    draws one panel per vector, in the cells 1, 2, ... of the 4 x 4
    grid in the order of the vectors, each showing channel 0 of the
    probabilities decoded from its vector, and saves the figure under
    the name of the epoch. *)
Theorem figure_of_predictions draw model epoch test_input logits n h w c :
  Tf.generative_net model (Tf.convert_to_tensor test_input) = inr logits ->
  Numpy.shape logits = [n; h; w; c] -> Tf.well_formed logits ->
  n <= 16 -> 0 < c ->
  exists fig,
    generate_and_save_images K draw model epoch test_input = inr fig /\
    saved_as fig = Main.image_file epoch /\
    map position (panels fig) = seq 1 n /\
    Forall2 (shows_probabilities K logits h w) (panels fig) (seq 0 n).
Proof.
  intros Hg Hs Hwf Hn Hc. unfold generate_and_save_images.
  rewrite (sample_run draw model test_input logits Hg). cbn [Py.bind].
  set (predictions := Tf.unary (Tf.sigmoid_kernel K) logits).
  assert (Hp : Numpy.shape predictions = [n; h; w; c]) by exact Hs.
  unfold Numpy.shape0. rewrite Hp. cbn [Py.bind Py.ret].
  destruct (draw_panels_ok predictions n h w c n 0 Hp Hc)
    as [drawn [Hd [Hpos Hshown]]]; try lia.
  rewrite Hd. cbn [Py.bind Py.ret].
  eexists. split; [reflexivity|]. cbn [saved_as panels].
  split; [reflexivity|]. split; [assumption|].
  assert (Hin : Forall (fun j => j < n) (seq 0 n)).
  { apply Forall_forall. intros j Hj. apply in_seq in Hj. lia. }
  clear Hd Hpos. revert Hin.
  induction Hshown as [|p j drawn' l Hpj _ IH]; intros Hin; constructor.
  - inversion Hin; subst. unfold shows_probabilities. rewrite Hpj.
    split; [reflexivity|]. split; [apply TfFacts.well_formed_tabulate|].
    intros r q Hr Hq.
    rewrite TfFacts.entry_tabulate
      by (unfold Tf.in_bounds; constructor; [assumption|];
          constructor; [assumption|]; constructor).
    unfold predictions. apply TfFacts.entry_unary; [assumption|].
    rewrite Hs. unfold Tf.in_bounds.
    constructor; [assumption|]. constructor; [assumption|].
    constructor; [assumption|]. constructor; [assumption|]. constructor.
  - apply IH. inversion Hin; assumption.
Qed.

(** X22: with more than 16 latent vectors the 17th call of
    [plt.subplot] raises a value error: the function ends there and
    saves no figure. *)
Theorem figure_grid_overflow draw model epoch test_input logits n h w c :
  Tf.generative_net model (Tf.convert_to_tensor test_input) = inr logits ->
  Numpy.shape logits = [n; h; w; c] ->
  16 < n -> 0 < c ->
  generate_and_save_images K draw model epoch test_input
  = inl Py.ValueError.
Proof.
  intros Hg Hs Hn Hc. unfold generate_and_save_images.
  rewrite (sample_run draw model test_input logits Hg). cbn [Py.bind].
  set (predictions := Tf.unary (Tf.sigmoid_kernel K) logits).
  assert (Hp : Numpy.shape predictions = [n; h; w; c]) by exact Hs.
  unfold Numpy.shape0. rewrite Hp. cbn [Py.bind Py.ret].
  rewrite <- (Nat.sub_0_r n) at 1.
  rewrite (draw_panels_overflow predictions n h w c 16 0 Hp Hc) by lia.
  reflexivity.
Qed.

End Kernels.

Lemma figure_of_predictions_witness :
  exists fig,
    generate_and_save_images Tf.example_kernels Tf.unit_noise
      Tf.toy_model 7 (latent_rows 2)
    = inr fig /\
    saved_as fig = Main.image_file 7 /\
    map position (panels fig) = seq 1 2 /\
    Forall2 (shows_probabilities Tf.example_kernels
               (Tf.tabulate [2; 1; 1; 1] (fun _ => Float32.zero)) 1 1)
            (panels fig) (seq 0 2).
Proof.
  apply (figure_of_predictions Tf.example_kernels Tf.unit_noise
           Tf.toy_model 7 (latent_rows 2)
           (Tf.tabulate [2; 1; 1; 1] (fun _ => Float32.zero)) 2 1 1 1).
  - reflexivity.
  - reflexivity.
  - reflexivity.
  - lia.
  - lia.
Defined.

Lemma figure_grid_overflow_witness :
  generate_and_save_images Tf.example_kernels Tf.unit_noise Tf.toy_model
    7 (latent_rows 17)
  = inl Py.ValueError.
Proof.
  apply (figure_grid_overflow Tf.example_kernels Tf.unit_noise
           Tf.toy_model 7 (latent_rows 17)
           (Tf.tabulate [17; 1; 1; 1] (fun _ => Float32.zero)) 17 1 1 1).
  - reflexivity.
  - reflexivity.
  - lia.
  - lia.
Defined.

End VisualizeFacts.
